(** * deeplinkview: the interactive canvas engine

    A shallow embedding of the two canvases of the repository,

    - [links_canvas.py] ([InteractiveLinksCanvas], the links-as-nodes
      meta-graph), module [LinksCanvas] below, and
    - [app.py] / [legacy/graph_canvas.py] ([InteractiveGraph] and the zoom
      slider of [GraphViewer], the plain node/edge graph), module
      [PlainGraph] below,

    together with the properties of the natural-language specification that
    concern them.

    Conventions of the embedding.

    - Python floats are idealised as exact rationals ([Q]); equalities between
      coordinates are stated with [==].  The one place where the source calls
      trigonometric functions ([_get_loop_connection_point]) is embedded over
      the reals in module [LoopRule].
    - A Python [dict] is an association list in insertion order with unique
      keys: the hit test returns the first entry of [items()] that matches,
      so the order is part of the behaviour.
    - The matplotlib axes are the pair of limits [xlim], [ylim]; the figure is
      its size in inches and its dpi.  The artists are the entries of the
      dictionaries the canvas keeps ([link_artists], [node_artists],
      [edge_artists]); a patch that was added to the axes and is no longer in
      one of them is not modelled.  Z-orders, line widths, the cursor and the
      text labels are left out: no property below depends on them.
    - The layout algorithms of networkx are a section variable. *)

From Stdlib Require Import ZArith QArith Qminmax Lqa Lia.
From Stdlib Require Import Reals Lra Qreals.
From Stdlib Require Import List Bool Ascii String.
Import ListNotations.

Local Open Scope Z_scope.
Local Open Scope Q_scope.

(** ** Python dictionaries, in insertion order *)

Module Dict.

Definition t (K V : Type) : Type := list (K * V).

Section Dict.
Context {K V : Type}.
Variable eqb : K -> K -> bool.

Fixpoint get (d : t K V) (k : K) : option V :=
  match d with
  | [] => None
  | (k', v) :: r => if eqb k k' then Some v else get r k
  end.

(** [d[k] = v]: an existing key keeps its place, a new key goes last. *)
Fixpoint set (d : t K V) (k : K) (v : V) : t K V :=
  match d with
  | [] => [(k, v)]
  | (k', v') :: r => if eqb k k' then (k', v) :: r else (k', v') :: set r k v
  end.

Definition mem (d : t K V) (k : K) : bool :=
  match get d k with Some _ => true | None => false end.

Definition keys (d : t K V) : list K := map fst d.
Definition values (d : t K V) : list V := map snd d.

(** Truthiness of a dict: [not d] is [is_empty d]. *)
Definition is_empty (d : t K V) : bool :=
  match d with [] => true | _ => false end.
End Dict.
End Dict.

(** ** Points, truthiness and the small numeric helpers *)

Definition Point : Type := (Q * Q)%type.

Definition origin : Point := (0, 0).

(** A coordinate of an event ([event.xdata]): [None] or a float. *)
Definition Coord : Type := option Q.

(** [not c] for a coordinate: [None] and [0.0] are both falsy. *)
Definition falsy (c : Coord) : bool :=
  match c with
  | None => true
  | Some q => Qeq_bool q 0
  end.

(** [c if c else d]. *)
Definition or_else (c : Coord) (d : Q) : Q :=
  match c with
  | Some q => if Qeq_bool q 0 then d else q
  | None => d
  end.

Definition Qltb (a b : Q) : bool := negb (Qle_bool b a).

(** Python's [max(a, b)] on two floats: the first one unless the second is
    strictly larger. *)
Definition pymax (a b : Q) : Q := if Qltb a b then b else a.

(** [min(l)] and [max(l)] of a non-empty list (the first extremal element). *)
Definition list_min (x : Q) (l : list Q) : Q :=
  fold_left (fun m y => if Qltb y m then y else m) l x.
Definition list_max (x : Q) (l : list Q) : Q :=
  fold_left (fun m y => if Qltb m y then y else m) l x.

Definition Zopt_eqb (a b : option Z) : bool :=
  match a, b with
  | Some x, Some y => Z.eqb x y
  | None, None => true
  | _, _ => false
  end.

(** ** Python strings: [str.strip] and [int] *)

Module Py.

(** ASCII white space, as [str.isspace] has it. *)
Definition is_space (c : ascii) : bool :=
  let n := nat_of_ascii c in
  ((9 <=? n) && (n <=? 13) || (28 <=? n) && (n <=? 32))%nat.

Fixpoint lstrip (cs : list ascii) : list ascii :=
  match cs with
  | c :: r => if is_space c then lstrip r else cs
  | [] => []
  end.

Definition strip (cs : list ascii) : list ascii :=
  rev (lstrip (rev (lstrip cs))).

Definition digit_val (c : ascii) : option Z :=
  let n := nat_of_ascii c in
  if ((48 <=? n) && (n <=? 57))%nat then Some (Z.of_nat n - 48)%Z else None.

(** The digits of a decimal literal after a first digit: further digits, each
    optionally preceded by a single underscore. *)
Fixpoint digits_from (acc : Z) (cs : list ascii) : option Z :=
  match cs with
  | [] => Some acc
  | c :: r =>
      match digit_val c with
      | Some d => digits_from (acc * 10 + d)%Z r
      | None =>
          if Ascii.eqb c "_" then
            match r with
            | c2 :: r2 =>
                match digit_val c2 with
                | Some d => digits_from (acc * 10 + d)%Z r2
                | None => None
                end
            | [] => None
            end
          else None
      end
  end.

Definition digits (cs : list ascii) : option Z :=
  match cs with
  | c :: r =>
      match digit_val c with
      | Some d => digits_from d r
      | None => None
      end
  | [] => None
  end.

(** The white space that [int] skips around the literal: of the ASCII
    characters only 9 to 13 and the blank, not the separators 28 to 31 that
    [str.strip] removes. *)
Definition is_int_space (c : ascii) : bool :=
  let n := nat_of_ascii c in
  ((9 <=? n) && (n <=? 13) || (n =? 32))%nat.

Fixpoint int_lstrip (cs : list ascii) : list ascii :=
  match cs with
  | c :: r => if is_int_space c then int_lstrip r else cs
  | [] => []
  end.

Definition int_strip (cs : list ascii) : list ascii :=
  rev (int_lstrip (rev (int_lstrip cs))).

(** [int(s)] in base ten: [None] stands for [ValueError]. *)
Definition int (s : string) : option Z :=
  match int_strip (list_ascii_of_string s) with
  | c :: r =>
      if Ascii.eqb c "+" then digits r
      else if Ascii.eqb c "-" then option_map Z.opp (digits r)
      else digits (c :: r)
  | [] => None
  end.

(** Truthiness of [s.strip()]. *)
Definition nonblank (s : string) : bool :=
  match strip (list_ascii_of_string s) with
  | [] => false
  | _ => true
  end.

End Py.

(** ** Events of the canvas *)

(** [event.button]: an integer for a mouse button, ['up'] or ['down'] for the
    scroll wheel. *)
Inductive Button : Type :=
| NoButton
| MouseButton (n : Z)
| ScrollUp
| ScrollDown.

Definition is_button_1 (b : Button) : bool :=
  match b with
  | MouseButton n => Z.eqb n 1
  | _ => false
  end.

Definition is_up (b : Button) : bool :=
  match b with
  | ScrollUp => true
  | _ => false
  end.

Record Event : Type := mkEvent {
  inaxes : bool;          (* event.inaxes == self.ax *)
  button : Button;
  ev_x : Z;               (* event.x, event.y: pixel coordinates *)
  ev_y : Z;
  xdata : Coord;          (* data coordinates, None outside the axes *)
  ydata : Coord
}.

(** The figure: its size in inches and its dots per inch. *)
Record Figure : Type := mkFigure {
  fig_width : Q;
  fig_height : Q;
  dpi : Q
}.

Definition Lim : Type := (Q * Q)%type.

(** The limits of freshly cleared axes. *)
Definition default_lim : Lim := (0, 1).

(** The radius of the hit test, shared by both canvases:
    [15.0 / dpi * ((x_data_per_inch + y_data_per_inch) / 2)]. *)
Definition node_radius (fig : Figure) (xlim ylim : Lim) : Q :=
  let x_data_per_inch := (snd xlim - fst xlim) / fig_width fig in
  let y_data_per_inch := (snd ylim - fst ylim) / fig_height fig in
  15 / dpi fig * ((x_data_per_inch + y_data_per_inch) / 2).

(** The loop over [positions.items()] of the hit test: the first entry whose
    squared distance to [(px, py)] is at most [r ** 2]. *)
Fixpoint first_within {K : Type} (items : Dict.t K Point) (px py r : Q)
  : option K :=
  match items with
  | [] => None
  | (k, (lx, ly)) :: rest =>
      if Qle_bool ((lx - px) ^ 2 + (ly - py) ^ 2) (r ^ 2) then Some k
      else first_within rest px py r
  end.

(** [_get_link_at_position] of links_canvas.py and [get_node_at_position] of
    app.py and legacy/graph_canvas.py: the same body over the positions of the
    canvas. *)
Definition hit_test {K : Type} (fig : Figure) (xlim ylim : Lim)
    (positions : Dict.t K Point) (pos : Coord * Coord) : option K :=
  if falsy (fst pos) || falsy (snd pos) then None
  else
    match pos with
    | (Some px, Some py) =>
        if Qeq_bool (snd xlim - fst xlim) 0 || Qeq_bool (snd ylim - fst ylim) 0
        then None
        else first_within positions px py (node_radius fig xlim ylim)
    | _ => None
    end.

(** ** What both canvases take from outside *)

(** The layout algorithms of networkx that the canvases offer;
    [DefaultSpring] is [nx.spring_layout(G)] without parameters, the default
    of the [layouts.get] of links_canvas.py. *)
Inductive LayoutKind : Type :=
| Spring
| Circular
| Random
| KamadaKawai
| Spectral
| DefaultSpring.

(** The contents of a CSV file as [csv.reader] yields them; a file that
    [open] cannot read; or a file whose reader yields some rows and then
    raises ([UnicodeDecodeError] in a later block, [csv.Error]). *)
Inductive CsvFile : Type :=
| Unreadable
| Rows (rows : list (list string))
| Truncated (rows : list (list string)).

(** ** links_canvas.py: [InteractiveLinksCanvas] *)

Module LinksCanvas.

(** One entry of [self.links]: [{'from': x, 'to': y}]. *)
Record Link : Type := mkLink {
  from : option Z;
  to : option Z
}.

Inductive Color : Type :=
| self_link_color
| link_color
| highlight_color.

(** What the three drawing routines put on the axes. *)
Inductive Shape : Type :=
| SelfLink (cx cy a : Q)
    (* [loop, arrow] of _draw_self_link: the curve
       (a sin t / (1 + cos^2 t) + cx, a sin t cos t / (1 + cos^2 t) + cy) *)
| Arrow (start_pos end_pos : Point)        (* FancyArrowPatch *)
| Circle (center : Point) (radius : Q).    (* Circle *)

Record Artist : Type := mkArtist {
  shape : Shape;
  color : Color
}.

Record Canvas : Type := mkCanvas {
  fig : Figure;
  xlim : Lim;
  ylim : Lim;
  links : Dict.t Z Link;
  link_positions : Dict.t Z Point;
  zoom_level : Q;
  selected_link : option Z;
  hovered_link : option Z;
  dragging : bool;
  pan_start : option (Z * Z);
  pan_origin : option (Lim * Lim);
  link_artists : Dict.t Z Artist
}.

Definition node_size : Q := 0.15.
Definition arrow_size : Q := 15.

Definition get {V : Type} (d : Dict.t Z V) (k : Z) : option V :=
  Dict.get Z.eqb d k.
Definition set {V : Type} (d : Dict.t Z V) (k : Z) (v : V) : Dict.t Z V :=
  Dict.set Z.eqb d k v.
Definition mem {V : Type} (d : Dict.t Z V) (k : Z) : bool :=
  Dict.mem Z.eqb d k.

(** [k in d] and [d.get(k, (0, 0))] where the key may be [None]: the keys
    of both dictionaries are integers, so [None] is never found. *)
Definition mem_opt {V : Type} (d : Dict.t Z V) (k : option Z) : bool :=
  match k with
  | Some k => mem d k
  | None => false
  end.

Definition pos_get (d : Dict.t Z Point) (k : option Z) : Point :=
  match k with
  | Some k => match get d k with Some p => p | None => origin end
  | None => origin
  end.

(** Truthiness of an id ([if clicked_link:], [if self.hovered_link:]). *)
Definition truthy (k : option Z) : bool :=
  match k with
  | Some n => negb (Z.eqb n 0)
  | None => false
  end.

(** *** Field updates *)

Definition with_lims (c : Canvas) (xl yl : Lim) : Canvas :=
  mkCanvas (fig c) xl yl (links c) (link_positions c) (zoom_level c)
    (selected_link c) (hovered_link c) (dragging c) (pan_start c)
    (pan_origin c) (link_artists c).

Definition with_links (c : Canvas) (l : Dict.t Z Link) : Canvas :=
  mkCanvas (fig c) (xlim c) (ylim c) l (link_positions c) (zoom_level c)
    (selected_link c) (hovered_link c) (dragging c) (pan_start c)
    (pan_origin c) (link_artists c).

Definition with_link_positions (c : Canvas) (p : Dict.t Z Point) : Canvas :=
  mkCanvas (fig c) (xlim c) (ylim c) (links c) p (zoom_level c)
    (selected_link c) (hovered_link c) (dragging c) (pan_start c)
    (pan_origin c) (link_artists c).

Definition with_zoom_level (c : Canvas) (z : Q) : Canvas :=
  mkCanvas (fig c) (xlim c) (ylim c) (links c) (link_positions c) z
    (selected_link c) (hovered_link c) (dragging c) (pan_start c)
    (pan_origin c) (link_artists c).

Definition with_selected_link (c : Canvas) (s : option Z) (d : bool)
  : Canvas :=
  mkCanvas (fig c) (xlim c) (ylim c) (links c) (link_positions c)
    (zoom_level c) s (hovered_link c) d (pan_start c) (pan_origin c)
    (link_artists c).

Definition with_hovered_link (c : Canvas) (h : option Z) : Canvas :=
  mkCanvas (fig c) (xlim c) (ylim c) (links c) (link_positions c)
    (zoom_level c) (selected_link c) h (dragging c) (pan_start c)
    (pan_origin c) (link_artists c).

Definition with_pan (c : Canvas) (s : option (Z * Z))
    (o : option (Lim * Lim)) : Canvas :=
  mkCanvas (fig c) (xlim c) (ylim c) (links c) (link_positions c)
    (zoom_level c) (selected_link c) (hovered_link c) (dragging c) s o
    (link_artists c).

Definition with_link_artists (c : Canvas) (a : Dict.t Z Artist) : Canvas :=
  mkCanvas (fig c) (xlim c) (ylim c) (links c) (link_positions c)
    (zoom_level c) (selected_link c) (hovered_link c) (dragging c)
    (pan_start c) (pan_origin c) a.

(** *** Statistics *)

Record Stats : Type := mkStats {
  stats_links : nat;          (* 'links' *)
  stats_self_links : nat      (* 'self_links' *)
}.

Definition from_eq_to (l : Link) : bool := Zopt_eqb (from l) (to l).

Definition get_stats (c : Canvas) : Stats :=
  let self_links := List.length (filter from_eq_to (Dict.values (links c))) in
  mkStats (List.length (links c)) self_links.

(** *** Artists *)

(** [ax.clear()] also puts the limits of the axes back to their default. *)
Definition clear_artists (c : Canvas) : Canvas :=
  with_lims (with_link_artists c []) default_lim default_lim.

Definition _draw_self_link (link_id : Z) (x y : Q) : Artist :=
  let a := node_size * 0.7 in
  mkArtist (SelfLink x y a) self_link_color.

Definition midpoint (p q : Point) : Point :=
  ((fst p + fst q) / 2, (snd p + snd q) / 2).

(** The adjustment of an end of a regular link: when [ref_id] is a link
    whose [from] and [to] differ, the middle of that link's own two ends. *)
Definition adjust_end (c : Canvas) (ref_id : Z) (raw : Point) : Point :=
  match get (links c) ref_id with
  | Some l =>
      if negb (from_eq_to l) then
        midpoint (pos_get (link_positions c) (from l))
                 (pos_get (link_positions c) (to l))
      else raw
  | None => raw
  end.

Definition _draw_regular_link (c : Canvas) (link_id from_id to_id : Z)
  : Artist :=
  let start_pos := pos_get (link_positions c) (Some from_id) in
  let end_pos := pos_get (link_positions c) (Some to_id) in
  let start_pos := adjust_end c from_id start_pos in
  let end_pos := adjust_end c to_id end_pos in
  mkArtist (Arrow start_pos end_pos) link_color.

Definition _draw_link_as_node (link_id : Z) (x y : Q) : Artist :=
  mkArtist (Circle (x, y) (node_size / 2)) link_color.

(** The three-way test of [_create_link_artist] and [_update_link_artist]. *)
Definition is_self_link (link_id : Z) (l : Link) : bool :=
  Zopt_eqb (from l) (Some link_id) && Zopt_eqb (to l) (Some link_id).

Definition draw_link (c : Canvas) (link_id : Z) (l : Link) (pos : Point)
  : Artist :=
  if is_self_link link_id l then _draw_self_link link_id (fst pos) (snd pos)
  else
    match from l, to l with
    | Some from_id, Some to_id => _draw_regular_link c link_id from_id to_id
    | _, _ => _draw_link_as_node link_id (fst pos) (snd pos)
    end.

Definition _create_link_artist (c : Canvas) (link_id : Z) : Canvas :=
  match get (links c) link_id with
  | Some link_data =>
      let pos := pos_get (link_positions c) (Some link_id) in
      with_link_artists c
        (set (link_artists c) link_id (draw_link c link_id link_data pos))
  | None => c     (* KeyError: create_artists only passes keys of links *)
  end.

Definition create_artists (c : Canvas) : Canvas :=
  fold_left _create_link_artist (Dict.keys (links c)) c.

Definition is_id (k : option Z) (link_id : Z) : bool :=
  Zopt_eqb k (Some link_id).

Definition artist_color (c : Canvas) (link_id : Z) (a : Artist) : Color :=
  if is_id (hovered_link c) link_id || is_id (selected_link c) link_id
  then highlight_color
  else
    match get (links c) link_id with
    | Some l => if from_eq_to l then self_link_color else link_color
    | None => color a   (* KeyError: every artist belongs to a link *)
    end.

(** [update_artists] only recolours. *)
Definition update_artists (c : Canvas) : Canvas :=
  with_link_artists c
    (map (fun e => (fst e, mkArtist (shape (snd e))
                             (artist_color c (fst e) (snd e))))
         (link_artists c)).

(** *** The view *)

Definition reset_view (c : Canvas) : Canvas :=
  match Dict.values (link_positions c) with
  | [] => c
  | p :: ps =>
      let x_min := list_min (fst p) (map fst ps) in
      let x_max := list_max (fst p) (map fst ps) in
      let y_min := list_min (snd p) (map snd ps) in
      let y_max := list_max (snd p) (map snd ps) in
      let x_padding := pymax 0.2 ((x_max - x_min) * 0.2) in
      let y_padding := pymax 0.2 ((y_max - y_min) * 0.2) in
      with_zoom_level
        (with_lims c (x_min - x_padding, x_max + x_padding)
                     (y_min - y_padding, y_max + y_padding))
        1
  end.

(** [set_zoom] is called by the slider with [value / 100.0], [value] between
    10 and 200, so [zoom_level] is never zero there. *)
Definition set_zoom (c : Canvas) (zoom_level : Q) : Canvas :=
  let center_x := (fst (xlim c) + snd (xlim c)) / 2 in
  let center_y := (fst (ylim c) + snd (ylim c)) / 2 in
  let width := (snd (xlim c) - fst (xlim c)) / zoom_level in
  let height := (snd (ylim c) - fst (ylim c)) / zoom_level in
  with_zoom_level
    (with_lims c (center_x - width / 2, center_x + width / 2)
                 (center_y - height / 2, center_y + height / 2))
    zoom_level.

Definition _get_link_at_position (c : Canvas) (pos : Coord * Coord)
  : option Z :=
  hit_test (fig c) (xlim c) (ylim c) (link_positions c) pos.

(** [None] stands for the [KeyError] of [self.links[link_id]] or
    [self.link_positions[link_id]]. *)
Definition _update_link_artist (c : Canvas) (link_id : Z) : option Canvas :=
  if negb (mem (link_artists c) link_id) then Some c
  else
    match get (links c) link_id with
    | None => None
    | Some link_data =>
        let put a := Some (with_link_artists c (set (link_artists c) link_id a)) in
        if from_eq_to link_data && is_id (to link_data) link_id then
          match get (link_positions c) link_id with
          | Some p => put (_draw_self_link link_id (fst p) (snd p))
          | None => None
          end
        else
          match from link_data, to link_data with
          | Some from_id, Some to_id =>
              put (_draw_regular_link c link_id from_id to_id)
          | _, _ =>
              match get (link_positions c) link_id with
              | Some p => put (_draw_link_as_node link_id (fst p) (snd p))
              | None => None
              end
          end
    end.

(** *** The event handlers *)

Definition on_press (c : Canvas) (event : Event) : Canvas :=
  if negb (inaxes event) then c
  else if is_button_1 (button event) then
    let clicked_link := _get_link_at_position c (xdata event, ydata event) in
    if truthy clicked_link then
      update_artists (with_selected_link c clicked_link true)
    else
      with_pan c (Some (ev_x event, ev_y event)) (Some (xlim c, ylim c))
  else c.

Definition on_release (c : Canvas) (event : Event) : Canvas :=
  if is_button_1 (button event) then
    update_artists (with_pan (with_selected_link c None false) None None)
  else c.

(** Truthiness of [self.pan_start]: a [QPoint] is falsy when it is null. *)
Definition pan_start_truthy (p : option (Z * Z)) : bool :=
  match p with
  | Some (px, py) => negb (Z.eqb px 0 && Z.eqb py 0)
  | None => false
  end.

Definition is_none {A : Type} (o : option A) : bool :=
  match o with None => true | Some _ => false end.

(** The panning branch of [on_motion]. *)
Definition pan (c : Canvas) (event : Event) : Canvas :=
  if is_none (xdata event) || is_none (ydata event) then c
  else
    match pan_start c, pan_origin c with
    | Some (sx, sy), Some (ox, oy) =>
        let dx_pixels := inject_Z (ev_x event - sx) in
        let dy_pixels := inject_Z (ev_y event - sy) in
        let f := fig c in
        if Qeq_bool (fig_width f) 0 || Qeq_bool (fig_height f) 0 then c
        else
          let x_data_per_pixel :=
            (snd (xlim c) - fst (xlim c)) / (fig_width f * dpi f) in
          let y_data_per_pixel :=
            (snd (ylim c) - fst (ylim c)) / (fig_height f * dpi f) in
          let dx_data := dx_pixels * x_data_per_pixel in
          let dy_data := dy_pixels * y_data_per_pixel in
          with_lims c (fst ox - dx_data, snd ox - dx_data)
                      (fst oy + dy_data, snd oy + dy_data)
    | _, _ => c
    end.

(** The dragging branch of [on_motion]: the position of the selected link is
    overwritten and [_update_link_artist] is called for that link only. *)
Definition drag (c : Canvas) (event : Event) : Canvas :=
  match selected_link c, xdata event, ydata event with
  | Some sel, Some xd, Some yd =>
      if dragging c && truthy (selected_link c) then
        let c1 := with_link_positions c (set (link_positions c) sel (xd, yd)) in
        match _update_link_artist c1 sel with
        | Some c2 => c2
        | None => c1
        end
      else c
  | _, _, _ => c
  end.

Definition on_motion (c : Canvas) (event : Event) : Canvas :=
  if negb (inaxes event) then
    if truthy (hovered_link c) then update_artists (with_hovered_link c None)
    else c
  else if pan_start_truthy (pan_start c) && is_button_1 (button event) then
    pan c event
  else
    let hovered := _get_link_at_position c (xdata event, ydata event) in
    let c1 :=
      if negb (Zopt_eqb hovered (hovered_link c)) then
        update_artists (with_hovered_link c hovered)
      else c in
    drag c1 event.

Definition on_scroll (c : Canvas) (event : Event) : Canvas :=
  if negb (inaxes event) then c
  else
    let zoom_factor := if is_up (button event) then 1.25 else 0.8 in
    let c1 := with_zoom_level c (zoom_level c * zoom_factor) in
    let mouse_x := or_else (xdata event) ((fst (xlim c) + snd (xlim c)) / 2) in
    let mouse_y := or_else (ydata event) ((fst (ylim c) + snd (ylim c)) / 2) in
    let new_width := (snd (xlim c) - fst (xlim c)) / zoom_factor in
    let new_height := (snd (ylim c) - fst (ylim c)) / zoom_factor in
    update_artists
      (with_lims c1 (mouse_x - new_width / 2, mouse_x + new_width / 2)
                    (mouse_y - new_height / 2, mouse_y + new_height / 2)).

(** *** Layout and loading *)

(** The lookup [layouts.get(layout_type, nx.spring_layout(G))]. *)
Definition layout_kind (layout_type : string) : LayoutKind :=
  if String.eqb layout_type "spring" then Spring
  else if String.eqb layout_type "circular" then Circular
  else if String.eqb layout_type "random" then Random
  else if String.eqb layout_type "kamada_kawai" then KamadaKawai
  else if String.eqb layout_type "spectral" then Spectral
  else DefaultSpring.

(** [int(s) if s.strip() else None]; the outer [None] is the [ValueError]. *)
Definition parse_field (s : string) : option (option Z) :=
  if Py.nonblank s then option_map Some (Py.int s) else Some None.

(** One turn of the loop over [enumerate(reader, start=1)]. *)
Definition read_row (links : Dict.t Z Link) (row_id : Z) (row : list string)
  : Dict.t Z Link :=
  match row with
  | r0 :: r1 :: _ =>
      let link_id := row_id in
      match parse_field r0, parse_field r1 with
      | Some from_val, Some to_val => set links link_id (mkLink from_val to_val)
      | _, _ => links              (* except (ValueError, IndexError): continue *)
      end
  | _ => links                     (* len(row) < 2: continue *)
  end.

Fixpoint read_rows (links : Dict.t Z Link) (row_id : Z)
    (rows : list (list string)) : Dict.t Z Link :=
  match rows with
  | [] => links
  | row :: rest => read_rows (read_row links row_id row) (row_id + 1)%Z rest
  end.

(** The edges of the graph handed to networkx: links are its nodes. *)
Definition reference_edges (links : Dict.t Z Link) : list (Z * Z) :=
  flat_map
    (fun e =>
       let link_id := fst e in
       let link_data := snd e in
       (match from link_data with
        | Some f => if mem links f then [(f, link_id)] else []
        | None => []
        end) ++
       (match to link_data with
        | Some t => if mem links t then [(link_id, t)] else []
        | None => []
        end))
    links.

Section Layout.

(** networkx: the positions a layout algorithm gives to the nodes of the
    graph with the given nodes and edges. *)
Variable layout : LayoutKind -> list Z -> list (Z * Z) -> Dict.t Z Point.

Definition apply_layout (c : Canvas) (layout_type : string) : Canvas :=
  if Dict.is_empty (links c) then c
  else
    let positions :=
      layout (layout_kind layout_type) (Dict.keys (links c))
        (reference_edges (links c)) in
    let c1 := with_link_positions c positions in
    reset_view (create_artists (clear_artists c1)).

Definition load_links_from_csv (c : Canvas) (file : CsvFile)
  : bool * Canvas :=
  let c0 := clear_artists (with_link_positions (with_links c []) []) in
  match file with
  | Unreadable => (false, c0)
  | Rows rows =>
      (* next(reader, None) skips the header *)
      let c1 := with_links c0 (read_rows [] 1%Z (tl rows)) in
      if Dict.is_empty (links c1) then (false, c1)
      else (true, update_artists (create_artists (apply_layout c1 "spring")))
  | Truncated rows =>
      (* the exception leaves the loop with the links stored so far *)
      (false, with_links c0 (read_rows [] 1%Z (tl rows)))
  end.

End Layout.

End LinksCanvas.

(** ** app.py: [InteractiveGraph] and the zoom slider of [GraphViewer]

    legacy/graph_canvas.py holds the same [auto_scale],
    [get_node_at_position] and [on_scroll]. *)

Module PlainGraph.

Definition Edge : Type := (string * string)%type.

Definition edge_eqb (e1 e2 : Edge) : bool :=
  String.eqb (fst e1) (fst e2) && String.eqb (snd e1) (snd e2).

(** [nx.DiGraph]: nodes in insertion order, edges as a set. *)
Record DiGraph : Type := mkDiGraph {
  nodes : list string;
  edges : list Edge
}.

Definition empty_graph : DiGraph := mkDiGraph [] [].

Definition add_node (l : list string) (n : string) : list string :=
  if existsb (String.eqb n) l then l else l ++ [n].

Definition add_edge (g : DiGraph) (a b : string) : DiGraph :=
  mkDiGraph (add_node (add_node (nodes g) a) b)
            (if existsb (edge_eqb (a, b)) (edges g) then edges g
             else edges g ++ [(a, b)]).

Definition in_edges (g : DiGraph) (n : string) : list Edge :=
  filter (fun e => String.eqb (snd e) n) (edges g).
Definition out_edges (g : DiGraph) (n : string) : list Edge :=
  filter (fun e => String.eqb (fst e) n) (edges g).

Inductive Color : Type :=
| grey_88        (* '#888888' *)
| grey_aa        (* '#aaaaaa', the selected node *)
| grey_cc.       (* '#cccccc', the hovered node *)

(** The circle of a node. *)
Record NodeArtist : Type := mkNodeArtist {
  center : Point;
  radius : Q;
  facecolor : Color
}.

(** The arrow of an edge: its two ends. *)
Definition EdgeArtist : Type := (Point * Point)%type.

Record Canvas : Type := mkCanvas {
  fig : Figure;
  xlim : Lim;
  ylim : Lim;
  graph : DiGraph;
  pos : Dict.t string Point;
  node_labels : Dict.t string string;
  zoom_level : Q;
  selected_node : option string;
  hovered_node : option string;
  dragging : bool;
  pan_start : option (Z * Z);
  pan_origin : option (Lim * Lim);
  node_artists : Dict.t string NodeArtist;
  edge_artists : Dict.t Edge EdgeArtist
}.

Definition get {V : Type} (d : Dict.t string V) (k : string) : option V :=
  Dict.get String.eqb d k.
Definition set {V : Type} (d : Dict.t string V) (k : string) (v : V)
  : Dict.t string V :=
  Dict.set String.eqb d k v.

Definition pos_get (d : Dict.t string Point) (k : string) : Point :=
  match get d k with Some p => p | None => origin end.

(** Truthiness of a node: [None] and the empty string are falsy. *)
Definition truthy (n : option string) : bool :=
  match n with
  | Some s => negb (String.eqb s "")
  | None => false
  end.

Definition is_node (k : option string) (n : string) : bool :=
  match k with
  | Some s => String.eqb s n
  | None => false
  end.

Definition with_lims (c : Canvas) (xl yl : Lim) : Canvas :=
  mkCanvas (fig c) xl yl (graph c) (pos c) (node_labels c) (zoom_level c)
    (selected_node c) (hovered_node c) (dragging c) (pan_start c)
    (pan_origin c) (node_artists c) (edge_artists c).

Definition with_model (c : Canvas) (g : DiGraph) (p : Dict.t string Point)
    (l : Dict.t string string) : Canvas :=
  mkCanvas (fig c) (xlim c) (ylim c) g p l (zoom_level c)
    (selected_node c) (hovered_node c) (dragging c) (pan_start c)
    (pan_origin c) (node_artists c) (edge_artists c).

Definition with_pos (c : Canvas) (p : Dict.t string Point) : Canvas :=
  with_model c (graph c) p (node_labels c).

Definition with_zoom_level (c : Canvas) (z : Q) : Canvas :=
  mkCanvas (fig c) (xlim c) (ylim c) (graph c) (pos c) (node_labels c) z
    (selected_node c) (hovered_node c) (dragging c) (pan_start c)
    (pan_origin c) (node_artists c) (edge_artists c).

Definition with_artists (c : Canvas) (na : Dict.t string NodeArtist)
    (ea : Dict.t Edge EdgeArtist) : Canvas :=
  mkCanvas (fig c) (xlim c) (ylim c) (graph c) (pos c) (node_labels c)
    (zoom_level c) (selected_node c) (hovered_node c) (dragging c)
    (pan_start c) (pan_origin c) na ea.

Definition with_interaction (c : Canvas) (sel hov : option string)
    (d : bool) (ps : option (Z * Z)) (po : option (Lim * Lim)) : Canvas :=
  mkCanvas (fig c) (xlim c) (ylim c) (graph c) (pos c) (node_labels c)
    (zoom_level c) sel hov d ps po (node_artists c) (edge_artists c).

(** *** Artists *)

Definition clear_artists (c : Canvas) : Canvas :=
  with_lims (with_artists c [] []) default_lim default_lim.

Definition degenerate (xl yl : Lim) : bool :=
  Qeq_bool (snd xl - fst xl) 0 || Qeq_bool (snd yl - fst yl) 0.

(** The radius [update_artists] gives to every circle it touches. *)
Definition node_radius_in_data_units (c : Canvas) : Q :=
  if degenerate (xlim c) (ylim c) then 0.05
  else node_radius (fig c) (xlim c) (ylim c).

Definition node_color (c : Canvas) (node : string) : Color :=
  if is_node (selected_node c) node then grey_aa
  else if is_node (hovered_node c) node then grey_cc
  else grey_88.

Definition update_edge (c : Canvas) (ea : Dict.t Edge EdgeArtist) (edge : Edge)
  : Dict.t Edge EdgeArtist :=
  if Dict.mem edge_eqb ea edge then
    Dict.set edge_eqb ea edge (pos_get (pos c) (fst edge), pos_get (pos c) (snd edge))
  else ea.

Definition update_node (c : Canvas) (r : Q) (na : Dict.t string NodeArtist)
    (node : string) : Dict.t string NodeArtist :=
  if Dict.mem String.eqb na node then
    set na node (mkNodeArtist (pos_get (pos c) node) r (node_color c node))
  else na.

(** With a (truthy) [changed_node] only that node and the edges into and out
    of it are repositioned. *)
Definition update_artists (c : Canvas) (changed_node : option string)
  : Canvas :=
  match nodes (graph c) with
  | [] => c
  | _ =>
      let r := node_radius_in_data_units c in
      let nodes_to_update :=
        match changed_node with
        | Some n => if truthy changed_node then [n] else nodes (graph c)
        | None => nodes (graph c)
        end in
      let edges_to_update :=
        match changed_node with
        | Some n =>
            if truthy changed_node
            then in_edges (graph c) n ++ out_edges (graph c) n
            else edges (graph c)
        | None => edges (graph c)
        end in
      with_artists c
        (fold_left (update_node c r) nodes_to_update (node_artists c))
        (fold_left (update_edge c) edges_to_update (edge_artists c))
  end.

(** Every artist is created at dummy coordinates; [update_artists] places
    it. *)
Definition create_artists (c : Canvas) : Canvas :=
  with_artists c
    (fold_left (fun na node => set na node (mkNodeArtist origin 1 grey_88))
               (nodes (graph c)) (node_artists c))
    (fold_left (fun ea edge => Dict.set edge_eqb ea edge (origin, origin))
               (edges (graph c)) (edge_artists c)).

(** *** The view *)

Definition auto_scale (c : Canvas) : Canvas :=
  match Dict.values (pos c) with
  | [] => c
  | p :: ps =>
      let x_min := list_min (fst p) (map fst ps) in
      let x_max := list_max (fst p) (map fst ps) in
      let y_min := list_min (snd p) (map snd ps) in
      let y_max := list_max (snd p) (map snd ps) in
      let x_range := x_max - x_min in
      let y_range := y_max - y_min in
      let x_padding := if Qltb 0 x_range then pymax 0.2 (x_range * 0.3) else 0.5 in
      let y_padding := if Qltb 0 y_range then pymax 0.2 (y_range * 0.3) else 0.5 in
      update_artists
        (with_zoom_level
           (with_lims c (x_min - x_padding, x_max + x_padding)
                        (y_min - y_padding, y_max + y_padding))
           1)
        None
  end.

(** [GraphViewer.adjust_zoom], the slot of the zoom slider, on the canvas of
    the viewer; [value] is the position of the slider, from 10 to 200. *)
Definition adjust_zoom (c : Canvas) (value : Z) : Canvas :=
  let new_zoom_level := inject_Z value / 100 in
  let current_center_x := (fst (xlim c) + snd (xlim c)) / 2 in
  let current_center_y := (fst (ylim c) + snd (ylim c)) / 2 in
  match nodes (graph c), Dict.values (pos c) with
  | [], _ => c
  | _, [] => c
  | _, p :: ps =>
      let x_min := list_min (fst p) (map fst ps) in
      let x_max := list_max (fst p) (map fst ps) in
      let y_min := list_min (snd p) (map snd ps) in
      let y_max := list_max (snd p) (map snd ps) in
      let x_range := x_max - x_min in
      let y_range := y_max - y_min in
      let x_padding := if Qltb 0 x_range then pymax 0.2 (x_range * 0.3) else 0.5 in
      let y_padding := if Qltb 0 y_range then pymax 0.2 (y_range * 0.3) else 0.5 in
      let base_xlim := (x_min - x_padding, x_max + x_padding) in
      let base_ylim := (y_min - y_padding, y_max + y_padding) in
      let base_width := snd base_xlim - fst base_xlim in
      let base_height := snd base_ylim - fst base_ylim in
      let zoomed_width := base_width / new_zoom_level in
      let zoomed_height := base_height / new_zoom_level in
      update_artists
        (with_zoom_level
           (with_lims c
              (current_center_x - zoomed_width / 2,
               current_center_x + zoomed_width / 2)
              (current_center_y - zoomed_height / 2,
               current_center_y + zoomed_height / 2))
           new_zoom_level)
        None
  end.

Definition get_node_at_position (c : Canvas) (p : Coord * Coord)
  : option string :=
  hit_test (fig c) (xlim c) (ylim c) (pos c) p.

(** *** The event handlers *)

Definition on_press (c : Canvas) (event : Event) : Canvas :=
  if negb (inaxes event) then c
  else if is_button_1 (button event) then
    let node := get_node_at_position c (xdata event, ydata event) in
    if truthy node then
      update_artists
        (with_interaction c node (hovered_node c) true (pan_start c)
           (pan_origin c))
        None
    else
      with_interaction c (selected_node c) (hovered_node c) (dragging c)
        (Some (ev_x event, ev_y event)) (Some (xlim c, ylim c))
  else c.

Definition on_release (c : Canvas) (event : Event) : Canvas :=
  if is_button_1 (button event) then
    update_artists (with_interaction c None (hovered_node c) false None None)
      None
  else c.

Definition pan_start_truthy (p : option (Z * Z)) : bool :=
  match p with
  | Some (px, py) => negb (Z.eqb px 0 && Z.eqb py 0)
  | None => false
  end.

Definition pan (c : Canvas) (event : Event) : Canvas :=
  match xdata event, ydata event, pan_start c, pan_origin c with
  | Some _, Some _, Some (sx, sy), Some (ox, oy) =>
      let dx_pixels := inject_Z (ev_x event - sx) in
      let dy_pixels := inject_Z (ev_y event - sy) in
      let f := fig c in
      if Qeq_bool (fig_width f) 0 || Qeq_bool (fig_height f) 0 then c
      else
        let x_data_per_pixel :=
          (snd (xlim c) - fst (xlim c)) / (fig_width f * dpi f) in
        let y_data_per_pixel :=
          (snd (ylim c) - fst (ylim c)) / (fig_height f * dpi f) in
        let dx_data := dx_pixels * x_data_per_pixel in
        let dy_data := dy_pixels * y_data_per_pixel in
        with_lims c (fst ox - dx_data, snd ox - dx_data)
                    (fst oy + dy_data, snd oy + dy_data)
  | _, _, _, _ => c
  end.

(** The dragging branch of [on_motion]: the dragged node and its incident
    edges are repositioned. *)
Definition drag (c : Canvas) (event : Event) : Canvas :=
  match selected_node c, xdata event, ydata event with
  | Some sel, Some xd, Some yd =>
      if dragging c && truthy (selected_node c) then
        update_artists (with_pos c (set (pos c) sel (xd, yd)))
          (selected_node c)
      else c
  | _, _, _ => c
  end.

Definition opt_string_eqb (a b : option string) : bool :=
  match a, b with
  | Some s, Some t => String.eqb s t
  | None, None => true
  | _, _ => false
  end.

Definition on_motion (c : Canvas) (event : Event) : Canvas :=
  if negb (inaxes event) then
    if truthy (hovered_node c) then
      update_artists
        (with_interaction c (selected_node c) None (dragging c) (pan_start c)
           (pan_origin c))
        None
    else c
  else if pan_start_truthy (pan_start c) && is_button_1 (button event) then
    pan c event
  else
    let node := get_node_at_position c (xdata event, ydata event) in
    let c1 :=
      if negb (opt_string_eqb node (hovered_node c)) then
        update_artists
          (with_interaction c (selected_node c) node (dragging c)
             (pan_start c) (pan_origin c))
          None
      else c in
    drag c1 event.

Definition on_scroll (c : Canvas) (event : Event) : Canvas :=
  if negb (inaxes event) then c
  else
    let zoom_factor_scroll := if is_up (button event) then 1.25 else 0.8 in
    let c1 := with_zoom_level c (zoom_level c * zoom_factor_scroll) in
    let mouse_x := or_else (xdata event) ((fst (xlim c) + snd (xlim c)) / 2) in
    let mouse_y := or_else (ydata event) ((fst (ylim c) + snd (ylim c)) / 2) in
    let new_width := (snd (xlim c) - fst (xlim c)) / zoom_factor_scroll in
    let new_height := (snd (ylim c) - fst (ylim c)) / zoom_factor_scroll in
    update_artists
      (with_lims c1 (mouse_x - new_width / 2, mouse_x + new_width / 2)
                    (mouse_y - new_height / 2, mouse_y + new_height / 2))
      None.

(** *** Layout and loading *)

Definition strip (s : string) : string :=
  string_of_list_ascii (Py.strip (list_ascii_of_string s)).

(** One turn of the loop over the data rows. *)
Definition read_row (c : Canvas) (row : list string) : Canvas :=
  match row with
  | r0 :: r1 :: _ =>
      let node_a := strip r0 in
      let node_b := strip r1 in
      if String.eqb node_a "" || String.eqb node_b "" then c
      else
        with_model c (add_edge (graph c) node_a node_b) (pos c)
          (set (set (node_labels c) node_a node_a) node_b node_b)
  | _ => c
  end.

Section Layout.

Variable layout
  : LayoutKind -> list string -> list Edge -> Dict.t string Point.

(** An unknown [layout_type] leaves [self.pos] as it is. *)
Definition apply_layout (c : Canvas) (layout_type : string) : Canvas :=
  match nodes (graph c) with
  | [] => c
  | _ =>
      let run kind := with_pos c (layout kind (nodes (graph c)) (edges (graph c))) in
      let c1 :=
        if String.eqb layout_type "spring" then run Spring
        else if String.eqb layout_type "circular" then run Circular
        else if String.eqb layout_type "random" then run Random
        else if String.eqb layout_type "kamada_kawai" then run KamadaKawai
        else if String.eqb layout_type "spectral" then run Spectral
        else c in
      update_artists (create_artists (auto_scale (clear_artists c1))) None
  end.

Definition load_graph_from_csv (c : Canvas) (file : CsvFile) : bool * Canvas :=
  let c0 := clear_artists (with_model c empty_graph [] []) in
  match file with
  | Unreadable => (false, c0)
  | Rows [] => (false, c0)                    (* not header *)
  | Rows (header :: data) =>
      if (List.length header <? 2)%nat then (false, c0)
      else
        let c1 := fold_left read_row data c0 in
        match nodes (graph c1) with
        | [] => (false, c1)
        | _ =>
            (true,
             update_artists
               (create_artists (auto_scale (apply_layout c1 "spring")))
               None)
        end
  | Truncated [] => (false, c0)               (* next(reader, None) raises *)
  | Truncated (header :: data) =>
      if (List.length header <? 2)%nat then (false, c0)
      else
        (* the exception leaves the loop with the edges stored so far *)
        (false, fold_left read_row data c0)
  end.

End Layout.

End PlainGraph.

(** ** The dead helper [_get_loop_connection_point] of links_canvas.py

    It calls [np.arctan2], [np.cos] and [np.sin], so it is embedded over the
    reals.  No drawing routine calls it. *)

Module LoopRule.

Local Open Scope R_scope.

(** [np.arctan2(y, x)]. *)
Definition arctan2 (y x : R) : R :=
  if Rlt_dec 0 x then atan (y / x)
  else if Rlt_dec x 0 then
    if Rle_dec 0 y then atan (y / x) + PI else atan (y / x) - PI
  else if Rlt_dec 0 y then PI / 2
  else if Rlt_dec y 0 then - (PI / 2)
  else 0.

Definition _get_loop_connection_point (node_size : R)
    (loop_pos target_pos : R * R) (outward : bool) : R * R :=
  let angle :=
    arctan2 (snd target_pos - snd loop_pos) (fst target_pos - fst loop_pos) in
  let loop_size := node_size * (7 / 10) in
  let factor := if outward then 7 / 10 else - (7 / 10) in
  (fst loop_pos + loop_size * cos angle * factor,
   snd loop_pos + loop_size * sin angle * factor).

(** A rational point seen as a real one. *)
Definition Q2R_point (p : Point) : R * R := (Q2R (fst p), Q2R (snd p)).

End LoopRule.

(** ** Device space *)

(** Modelled from the spec: [dataToDevice], the affine map from data space to
    device pixels that the axes of matplotlib (a library, not code of the
    repository) derive from the limits and from the size of the figure in
    pixels. *)
Definition dataToDevice (fig : Figure) (xlim ylim : Lim) (p : Point) : Point :=
  ((fst p - fst xlim) / (snd xlim - fst xlim) * (fig_width fig * dpi fig),
   (snd p - fst ylim) / (snd ylim - fst ylim) * (fig_height fig * dpi fig)).

(** ** Concrete inputs *)

(** The figure both canvases create: [figsize=(10, 8)] at 100 dpi. *)
Definition fig_10x8 : Figure := mkFigure 10 8 100.

(** A layout provider to run the canvases with: the nodes in a row at height
    1, [step] apart, the first one at (1, 1). *)
Fixpoint row_positions {K : Type} (step : Q) (x0 : Q) (nodes : list K)
  : Dict.t K Point :=
  match nodes with
  | [] => []
  | n :: rest => (n, (x0, 1)) :: row_positions step (x0 + step) rest
  end.

Definition row_layout {K : Type} (step : Q) (kind : LayoutKind)
    (nodes : list K) (edges : list (K * K)) : Dict.t K Point :=
  row_positions step 1 nodes.

(** The links canvas as [__init__] leaves it. *)
Definition links_canvas_init : LinksCanvas.Canvas :=
  LinksCanvas.mkCanvas fig_10x8 default_lim default_lim [] [] 1
    None None false None None [].

(** The graph canvas as [__init__] leaves it. *)
Definition graph_canvas_init : PlainGraph.Canvas :=
  PlainGraph.mkCanvas fig_10x8 default_lim default_lim PlainGraph.empty_graph
    [] [] 1 None None false None None [] [].

(** The number of artists that [_draw_self_link] drew. *)
Definition rendered_self_loops (c : LinksCanvas.Canvas) : nat :=
  List.length
    (filter (fun e => match LinksCanvas.shape (snd e) with
                      | LinksCanvas.SelfLink _ _ _ => true
                      | _ => false
                      end)
            (LinksCanvas.link_artists c)).

(** The number of links that pass the self-loop test of
    [_create_link_artist]. *)
Definition classified_self_loops (c : LinksCanvas.Canvas) : nat :=
  List.length
    (filter (fun e => LinksCanvas.is_self_link (fst e) (snd e))
            (LinksCanvas.links c)).

(** A link, and a node, centred on the y axis at (0, 1/2), in a view that
    shows it. *)
Definition links_canvas_on_axis : LinksCanvas.Canvas :=
  LinksCanvas.mkCanvas fig_10x8 (-1, 1) (0, 1)
    [(1%Z, LinksCanvas.mkLink None None)] [(1%Z, (0, 1 # 2))] 1
    None None false None None [].

Definition graph_canvas_on_axis : PlainGraph.Canvas :=
  PlainGraph.mkCanvas fig_10x8 (-1, 1) (0, 1)
    (PlainGraph.mkDiGraph ["A"%string] [("A"%string, "A"%string)])
    [("A"%string, (0, 1 # 2))] [("A"%string, "A"%string)] 1
    None None false None None [] [].

(** Three data rows: a bare node with both references absent, a link from 3
    to 3 that is not link 3, and link 3 pointing at itself. *)
Definition csv_self_links : CsvFile :=
  Rows [["from"; "to"]; [""; ""]; ["3"; "3"]; ["3"; "3"]]%string.

Definition canvas_self_links : LinksCanvas.Canvas :=
  snd (LinksCanvas.load_links_from_csv (row_layout 1) links_canvas_init
         csv_self_links).

(** The rows [1,1] and [2,1] under a header, and a file with the header
    alone. *)
Definition csv_two_links : CsvFile :=
  Rows [["from"; "to"]; ["1"; "1"]; ["2"; "1"]]%string.

Definition csv_header_only : CsvFile := Rows [["from"; "to"]]%string.

Definition canvas_two_links : LinksCanvas.Canvas :=
  snd (LinksCanvas.load_links_from_csv (row_layout 1) links_canvas_init
         csv_two_links).


(** The two links of [csv_two_links] laid out a thousandth of a data unit
    apart: closer than the node radius of the fitted view. *)
Definition canvas_close_links : LinksCanvas.Canvas :=
  snd (LinksCanvas.load_links_from_csv (row_layout (1 # 1000))
         links_canvas_init csv_two_links).

(** The squared-distance test of the hit test. *)
Definition within (q : Point) (px py r : Q) : Prop :=
  (fst q - px) ^ 2 + (snd q - py) ^ 2 <= r ^ 2.

(** *** Auto-fit, in the words of the specification *)

(** The padding of an axis whose positions span [range]. *)
Definition auto_fit_padding (range : Q) : Q :=
  if Qltb 0 range then Qmax 0.2 (range * 0.3) else 0.5.

(** The padding [reset_view] of the links canvas uses instead. *)
Definition reset_view_padding (range : Q) : Q := Qmax 0.2 (range * 0.2).

Definition is_min (m : Q) (l : list Q) : Prop :=
  In m l /\ forall v, In v l -> m <= v.
Definition is_max (m : Q) (l : list Q) : Prop :=
  In m l /\ forall v, In v l -> v <= m.

(** [lim] is the span of [coords] padded on both sides by [padding]. *)
Definition padded_by (padding : Q -> Q) (coords : list Q) (lim : Lim) : Prop :=
  exists c_min c_max,
    is_min c_min coords /\ is_max c_max coords /\
    fst lim == c_min - padding (c_max - c_min) /\
    snd lim == c_max + padding (c_max - c_min).

(** Positions that span x in [0, 10] and y in [0, 0]. *)
Definition graph_canvas_span : PlainGraph.Canvas :=
  PlainGraph.mkCanvas fig_10x8 default_lim default_lim
    (PlainGraph.mkDiGraph ["A"; "B"]%string [("A", "B")]%string)
    [("A", (0, 0)); ("B", (10, 0))]%string [("A", "A"); ("B", "B")]%string 1
    None None false None None [] [].

Definition links_canvas_span : LinksCanvas.Canvas :=
  LinksCanvas.mkCanvas fig_10x8 default_lim default_lim
    [(1%Z, LinksCanvas.mkLink None None); (2%Z, LinksCanvas.mkLink None None)]
    [(1%Z, (0, 0)); (2%Z, (10, 0))] 1 None None false None None [].

Definition width (lim : Lim) : Q := snd lim - fst lim.

(** Modelled from the spec: the data units that one device pixel covers
    along an axis of [extent] inches. *)
Definition dataUnitsPerDevicePixel (extent dpi : Q) (lim : Lim) : Q :=
  width lim / (extent * dpi).

(** Modelled from the spec: [nodeRadius = K / devicePixelDensity *
    avg(dataUnitsPerDevicePixel_x, dataUnitsPerDevicePixel_y)] with the
    pixel constant K = 15. *)
Definition nodeRadius (fig : Figure) (xlim ylim : Lim) : Q :=
  15 / dpi fig *
  ((dataUnitsPerDevicePixel (fig_width fig) (dpi fig) xlim +
    dataUnitsPerDevicePixel (fig_height fig) (dpi fig) ylim) / 2).

(** A view of x in [0, 10] and y in [0, 8] on the 1000 by 800 pixel figure,
    and scroll events at a data point of it. *)
Definition links_canvas_view : LinksCanvas.Canvas :=
  LinksCanvas.mkCanvas fig_10x8 (0, 10) (0, 8) [] [] 1
    None None false None None [].

Definition graph_canvas_view : PlainGraph.Canvas :=
  PlainGraph.mkCanvas fig_10x8 (0, 10) (0, 8) PlainGraph.empty_graph
    [] [] 1 None None false None None [] [].

Definition scroll_at (b : Button) (p : Point) : Event :=
  mkEvent true b 0 0 (Some (fst p)) (Some (snd p)).

(** Where the links canvas, and the graph canvas, show a data point. *)
Definition links_device (c : LinksCanvas.Canvas) (p : Point) : Point :=
  dataToDevice (LinksCanvas.fig c) (LinksCanvas.xlim c) (LinksCanvas.ylim c) p.

Definition graph_device (c : PlainGraph.Canvas) (p : Point) : Point :=
  dataToDevice (PlainGraph.fig c) (PlainGraph.xlim c) (PlainGraph.ylim c) p.

Definition point_eq (p q : Point) : Prop := fst p == fst q /\ snd p == snd q.

(** Two links at (0, 0) and (10, 8), not yet fitted. *)
Definition links_canvas_diag : LinksCanvas.Canvas :=
  LinksCanvas.mkCanvas fig_10x8 default_lim default_lim
    [(1%Z, LinksCanvas.mkLink None None); (2%Z, LinksCanvas.mkLink None None)]
    [(1%Z, (0, 0)); (2%Z, (10, 8))] 1 None None false None None [].

(** Four data rows: the bare node 1, link 2 from 1 to 3, the bare node 3,
    and link 4 from link 2 to 3. *)
Definition csv_chain : CsvFile :=
  Rows [["from"; "to"]; [""; ""]; ["1"; "3"]; [""; ""]; ["2"; "3"]]%string.

Definition canvas_chain : LinksCanvas.Canvas :=
  snd (LinksCanvas.load_links_from_csv (row_layout 1) links_canvas_init
         csv_chain).

(** Left button pressed, moved and released at a data point of the axes. *)
Definition mouse_at (p : Point) : Event :=
  mkEvent true (MouseButton 1) 0 0 (Some (fst p)) (Some (snd p)).

(** The artist is an arrow that starts at [p]. *)
Definition arrow_from (a : option LinksCanvas.Artist) (p : Point) : Prop :=
  match a with
  | Some a =>
      match LinksCanvas.shape a with
      | LinksCanvas.Arrow start_pos _ => point_eq start_pos p
      | _ => False
      end
  | None => False
  end.

(** The artist is an arrow that ends at [p]. *)
Definition arrow_to (a : option LinksCanvas.Artist) (p : Point) : Prop :=
  match a with
  | Some a =>
      match LinksCanvas.shape a with
      | LinksCanvas.Arrow _ end_pos => point_eq end_pos p
      | _ => False
      end
  | None => False
  end.

Definition shape_of (c : LinksCanvas.Canvas) (link_id : Z)
  : option LinksCanvas.Shape :=
  option_map LinksCanvas.shape
    (LinksCanvas.get (LinksCanvas.link_artists c) link_id).

(** The links that the rows [1,1] and [2,1] give. *)
Definition two_links : Dict.t Z LinksCanvas.Link :=
  [(1%Z, LinksCanvas.mkLink (Some 1%Z) (Some 1%Z));
   (2%Z, LinksCanvas.mkLink (Some 2%Z) (Some 1%Z))].

(** The plain graph with the one edge from A to B, loaded and laid out at
    (1, 1) and (2, 1). *)
Definition csv_edge : CsvFile := Rows [["from"; "to"]; ["A"; "B"]]%string.

Definition graph_canvas_edge : PlainGraph.Canvas :=
  snd (PlainGraph.load_graph_from_csv (row_layout 1) graph_canvas_init
         csv_edge).

(** ** Further definitions for the properties of the rest of the code *)

(** The node radius of the hit test of each canvas. *)
Definition links_radius (c : LinksCanvas.Canvas) : Q :=
  node_radius (LinksCanvas.fig c) (LinksCanvas.xlim c) (LinksCanvas.ylim c).

Definition graph_radius (c : PlainGraph.Canvas) : Q :=
  node_radius (PlainGraph.fig c) (PlainGraph.xlim c) (PlainGraph.ylim c).

(** [k] is the first entry of [positions] within [r] of [(px, py)]. *)
Definition first_hit {K : Type} (positions : Dict.t K Point) (px py r : Q)
    (k : K) : Prop :=
  exists l1 p l2,
    positions = l1 ++ (k, p) :: l2 /\
    within p px py r /\
    forall k' q, In (k', q) l1 -> ~ within q px py r.

(** No entry of [positions] is within [r] of [(px, py)]. *)
Definition no_hit {K : Type} (positions : Dict.t K Point) (px py r : Q)
  : Prop :=
  forall k p, In (k, p) positions -> ~ within p px py r.




(** [p] lies strictly inside the view. *)
Definition inside (xl yl : Lim) (p : Point) : Prop :=
  fst xl < fst p /\ fst p < snd xl /\ fst yl < snd p /\ snd p < snd yl.

(** The middle of a range. *)
Definition centre (lim : Lim) : Q := (fst lim + snd lim) / 2.

(** A scroll event inside the axes with the given data coordinates. *)
Definition scroll_event (b : Button) (xd yd : Coord) : Event :=
  mkEvent true b 0 0 xd yd.

(** The factor of a scroll: 1.25 for ['up'], 0.8 for anything else. *)
Definition scroll_factor (b : Button) : Q := if is_up b then 1.25 else 0.8.

(** *** The states of the interaction *)

(** Neither dragging nor panning. *)
Definition idle (c : LinksCanvas.Canvas) : Prop :=
  LinksCanvas.dragging c = false /\ LinksCanvas.selected_link c = None /\
  LinksCanvas.pan_start c = None /\ LinksCanvas.pan_origin c = None.

(** The model and the view of the links canvas: everything but the
    interaction state and the colours. *)
Definition same_model (c c' : LinksCanvas.Canvas) : Prop :=
  LinksCanvas.links c' = LinksCanvas.links c /\
  LinksCanvas.link_positions c' = LinksCanvas.link_positions c /\
  LinksCanvas.xlim c' = LinksCanvas.xlim c /\
  LinksCanvas.ylim c' = LinksCanvas.ylim c /\
  LinksCanvas.zoom_level c' = LinksCanvas.zoom_level c /\
  forall k, shape_of c' k = shape_of c k.

(** Panning since a press at pixel [(sx, sy)] that took the snapshot
    [(ox, oy)] of the limits. *)
Definition panning (c : LinksCanvas.Canvas) (sx sy : Z) (ox oy : Lim) : Prop :=
  LinksCanvas.pan_start c = Some (sx, sy) /\
  LinksCanvas.pan_origin c = Some (ox, oy).

(** The limits [lim] moved by [d] data units. *)
Definition shifted (lim : Lim) (d : Q) : Lim := (fst lim + d, snd lim + d).

(** A motion event inside the axes with the left button held. *)
Definition move_event (px py : Z) (xd yd : Q) : Event :=
  mkEvent true (MouseButton 1) px py (Some xd) (Some yd).

(** The interaction mode: what press and release set. *)
Definition same_mode (c c' : LinksCanvas.Canvas) : Prop :=
  LinksCanvas.dragging c' = LinksCanvas.dragging c /\
  LinksCanvas.selected_link c' = LinksCanvas.selected_link c /\
  LinksCanvas.pan_start c' = LinksCanvas.pan_start c /\
  LinksCanvas.pan_origin c' = LinksCanvas.pan_origin c.

(** *** The graph of the plain canvas *)

(** What the loader keeps true of the graph and of the labels: no node and
    no edge twice, no node with an empty name, every edge between two nodes,
    every node labelled with its own name. *)
Definition well_formed (g : PlainGraph.DiGraph)
    (labels : Dict.t string string) : Prop :=
  NoDup (PlainGraph.nodes g) /\
  NoDup (PlainGraph.edges g) /\
  (forall n, In n (PlainGraph.nodes g) ->
     n <> ""%string /\ PlainGraph.get labels n = Some n) /\
  (forall a b, In (a, b) (PlainGraph.edges g) ->
     In a (PlainGraph.nodes g) /\ In b (PlainGraph.nodes g)).

(** A data row that gives an edge: two columns at least, the first two not
    blank. *)
Definition edge_row (row : list string) : bool :=
  match row with
  | r0 :: r1 :: _ => Py.nonblank r0 && Py.nonblank r1
  | _ => false
  end.

(** One turn of the loops of [update_artists] of the graph canvas: an artist
    that exists is given the value [val] computes for its key. *)
Definition touch {K V : Type} (eqb : K -> K -> bool) (val : K -> V)
    (d : Dict.t K V) (k : K) : Dict.t K V :=
  if Dict.mem eqb d k then Dict.set eqb d k (val k) else d.

(** Where [update_artists] of the graph canvas puts the circle of a node and
    the arrow of an edge. *)
Definition node_artist_of (c : PlainGraph.Canvas) (n : string)
  : PlainGraph.NodeArtist :=
  PlainGraph.mkNodeArtist (PlainGraph.pos_get (PlainGraph.pos c) n)
    (PlainGraph.node_radius_in_data_units c) (PlainGraph.node_color c n).

Definition edge_artist_of (c : PlainGraph.Canvas) (e : PlainGraph.Edge)
  : PlainGraph.EdgeArtist :=
  (PlainGraph.pos_get (PlainGraph.pos c) (fst e),
   PlainGraph.pos_get (PlainGraph.pos c) (snd e)).

Definition edge_artist (c : PlainGraph.Canvas) (e : PlainGraph.Edge)
  : option PlainGraph.EdgeArtist :=
  Dict.get PlainGraph.edge_eqb (PlainGraph.edge_artists c) e.

(** The limits that [auto_scale] sets and [adjust_zoom] takes as its base,
    for the positions [p :: ps]. *)
Definition base_lims (p : Point) (ps : list Point) : Lim * Lim :=
  let x_min := list_min (fst p) (map fst ps) in
  let x_max := list_max (fst p) (map fst ps) in
  let y_min := list_min (snd p) (map snd ps) in
  let y_max := list_max (snd p) (map snd ps) in
  let x_range := x_max - x_min in
  let y_range := y_max - y_min in
  let x_padding := if Qltb 0 x_range then pymax 0.2 (x_range * 0.3) else 0.5 in
  let y_padding := if Qltb 0 y_range then pymax 0.2 (y_range * 0.3) else 0.5 in
  ((x_min - x_padding, x_max + x_padding),
   (y_min - y_padding, y_max + y_padding)).

(** ** More of the dead helpers of links_canvas.py, over the reals *)

Module EdgePoint.

Local Open Scope R_scope.

(** [np.hypot(dx, dy)]. *)
Definition hypot (dx dy : R) : R := sqrt (dx * dx + dy * dy).

(** [dist = max(0.001, np.hypot(dx, dy))]: the divisor of
    [_get_node_edge_point]. *)
Definition dist (node_pos target_pos : R * R) : R :=
  let dx := fst target_pos - fst node_pos in
  let dy := snd target_pos - snd node_pos in
  Rmax (1 / 1000) (hypot dx dy).

(** [_get_node_edge_point]: the point on the edge of a node's circle towards
    (or away from) a target. *)
Definition _get_node_edge_point (node_size : R) (node_pos target_pos : R * R)
    (outward : bool) : R * R :=
  let dx := fst target_pos - fst node_pos in
  let dy := snd target_pos - snd node_pos in
  let dist := dist node_pos target_pos in
  let factor := if outward then 1 / 2 else - (1 / 2) in
  (fst node_pos + dx * node_size * factor / dist,
   snd node_pos + dy * node_size * factor / dist).

(** The squared distance between two points. *)
Definition dist2 (p q : R * R) : R :=
  (fst p - fst q) * (fst p - fst q) + (snd p - snd q) * (snd p - snd q).

End EdgePoint.

(** ** legacy/graph_canvas.py: what differs from app.py

    [auto_scale], [clear_artists], [update_artists] and the reading of the
    rows are those of app.py.  [create_artists] iterates over [self.links],
    an attribute the class never sets, and [apply_layout] looks the layout up
    in a table with a default. *)

Module Legacy.

(** A call that returns, or raises with the canvas as the exception finds
    it. *)
Inductive Outcome : Type :=
| Returned (c : PlainGraph.Canvas)
| Raised (c : PlainGraph.Canvas).

(** [for link_id in self.links]: [AttributeError]. *)
Definition create_artists (c : PlainGraph.Canvas) : Outcome := Raised c.

Section Layout.

Variable layout
  : LayoutKind -> list string -> list PlainGraph.Edge -> Dict.t string Point.

Definition apply_layout (c : PlainGraph.Canvas) (layout_type : string)
  : Outcome :=
  match PlainGraph.nodes (PlainGraph.graph c) with
  | [] => Returned c
  | _ =>
      let c1 :=
        PlainGraph.with_pos c
          (layout (LinksCanvas.layout_kind layout_type)
             (PlainGraph.nodes (PlainGraph.graph c))
             (PlainGraph.edges (PlainGraph.graph c))) in
      match create_artists (PlainGraph.auto_scale (PlainGraph.clear_artists c1))
      with
      | Returned c2 => Returned (PlainGraph.update_artists c2 None)
      | Raised c2 => Raised c2
      end
  end.

(** Every exception inside the [try] is answered with [return False]. *)
Definition load_graph_from_csv (c : PlainGraph.Canvas) (file : CsvFile)
  : bool * PlainGraph.Canvas :=
  let c0 := PlainGraph.clear_artists
              (PlainGraph.with_model c PlainGraph.empty_graph [] []) in
  match file with
  | Unreadable => (false, c0)
  | Rows [] => (false, c0)
  | Rows (header :: data) =>
      if (List.length header <? 2)%nat then (false, c0)
      else
        let c1 := fold_left PlainGraph.read_row data c0 in
        match PlainGraph.nodes (PlainGraph.graph c1) with
        | [] => (false, c1)
        | _ =>
            match apply_layout c1 "spring" with
            | Raised c2 => (false, c2)
            | Returned c2 =>
                match create_artists (PlainGraph.auto_scale c2) with
                | Raised c3 => (false, c3)
                | Returned c3 => (true, PlainGraph.update_artists c3 None)
                end
            end
        end
  | Truncated [] => (false, c0)
  | Truncated (header :: data) =>
      if (List.length header <? 2)%nat then (false, c0)
      else (false, fold_left PlainGraph.read_row data c0)
  end.

End Layout.

End Legacy.

(** ** main_window.py: [LinksViewer] *)

Module LinksViewer.

(** The canvas of the viewer and the value of its zoom slider. *)
Record Viewer : Type := mkViewer {
  links_canvas : LinksCanvas.Canvas;
  zoom_slider : Z
}.

Definition adjust_zoom (v : Viewer) (value : Z) : Viewer :=
  mkViewer (LinksCanvas.set_zoom (links_canvas v) (inject_Z value / 100))
    (zoom_slider v).

(** [self.zoom_slider.setValue(value)] on the slider of range 10 to 200
    whose [valueChanged] is connected to [adjust_zoom]: Qt bounds the value
    to the range and emits the signal only when the value changes. *)
Definition setValue (v : Viewer) (value : Z) : Viewer :=
  let value := Z.max 10 (Z.min 200 value) in
  if Z.eqb value (zoom_slider v) then v
  else adjust_zoom (mkViewer (links_canvas v) value) value.

Definition reset_view (v : Viewer) : Viewer :=
  setValue (mkViewer (LinksCanvas.reset_view (links_canvas v)) (zoom_slider v))
    100.

Section Layout.

Variable layout : LayoutKind -> list Z -> list (Z * Z) -> Dict.t Z Point.

(** [layout_type] is the current text of the layout combo box. *)
Definition apply_layout (v : Viewer) (layout_type : string) : Viewer :=
  setValue
    (mkViewer (LinksCanvas.apply_layout layout (links_canvas v) layout_type)
       (zoom_slider v))
    100.

End Layout.

End LinksViewer.

(** The layout that [apply_layout] of app.py runs for a name, if any. *)
Definition graph_layout_kind (layout_type : string) : option LayoutKind :=
  if String.eqb layout_type "spring" then Some Spring
  else if String.eqb layout_type "circular" then Some Circular
  else if String.eqb layout_type "random" then Some Random
  else if String.eqb layout_type "kamada_kawai" then Some KamadaKawai
  else if String.eqb layout_type "spectral" then Some Spectral
  else None.

(** ** app.py: the slider and the Reset View button of [GraphViewer] *)

Module GraphViewer.

Record Viewer : Type := mkViewer {
  graph_canvas : PlainGraph.Canvas;
  zoom_slider : Z
}.

Definition adjust_zoom (v : Viewer) (value : Z) : Viewer :=
  mkViewer (PlainGraph.adjust_zoom (graph_canvas v) value) (zoom_slider v).

(** [self.zoom_slider.setValue(value)], as in [LinksViewer]. *)
Definition setValue (v : Viewer) (value : Z) : Viewer :=
  let value := Z.max 10 (Z.min 200 value) in
  if Z.eqb value (zoom_slider v) then v
  else adjust_zoom (mkViewer (graph_canvas v) value) value.

Definition reset_view (v : Viewer) : Viewer :=
  setValue (mkViewer (PlainGraph.auto_scale (graph_canvas v)) (zoom_slider v))
    100.

End GraphViewer.

(** ** What a load that fails leaves behind *)

(** The links stored when the load of a links file fails: those of the rows
    read before the reader raised, none otherwise. *)
Definition links_read_before_failure (file : CsvFile)
  : Dict.t Z LinksCanvas.Link :=
  match file with
  | Truncated rows => LinksCanvas.read_rows [] 1%Z (tl rows)
  | _ => []
  end.

(** The graph stored when the load of a plain CSV file fails: the edges of
    the rows read before the reader raised, when the header was accepted;
    no graph otherwise. *)
Definition graph_read_before_failure (file : CsvFile) : PlainGraph.DiGraph :=
  match file with
  | Truncated (header :: data) =>
      if (List.length header <? 2)%nat then PlainGraph.empty_graph
      else
        PlainGraph.graph (fold_left PlainGraph.read_row data graph_canvas_init)
  | _ => PlainGraph.empty_graph
  end.

(** A links file whose reader raises after the header and the row [1,1],
    and a plain file whose reader raises after the header and the row
    [A,B]. *)
Definition csv_truncated_links : CsvFile :=
  Truncated [["from"; "to"]; ["1"; "1"]]%string.

Definition csv_truncated_graph : CsvFile :=
  Truncated [["from"; "to"]; ["A"; "B"]]%string.

(** * Properties *)

(** ** Helper lemmas *)

(** Closed statements about concrete canvases are settled by running the
    embedded code. *)
Ltac conjuncts := repeat match goal with |- _ /\ _ => split end.
Ltac run := cbv zeta; conjuncts; vm_compute; conjuncts; reflexivity.

Lemma Zopt_eqb_eq a b : Zopt_eqb a b = true <-> a = b.
Proof.
  destruct a as [x|], b as [y|]; simpl; split; intros H;
    try discriminate; try reflexivity.
  - apply Z.eqb_eq in H. now subst.
  - injection H as ->. apply Z.eqb_refl.
Qed.

Lemma Qltb_lt a b : Qltb a b = true <-> a < b.
Proof.
  unfold Qltb. rewrite negb_true_iff. split; intros H.
  - apply Qnot_le_lt. intros Hle. apply Qle_bool_iff in Hle. congruence.
  - destruct (Qle_bool b a) eqn:E; [|reflexivity].
    apply Qle_bool_iff in E. exfalso. apply (Qlt_not_le _ _ H E).
Qed.

Lemma Qltb_ge a b : Qltb a b = false <-> b <= a.
Proof.
  unfold Qltb. rewrite negb_false_iff. apply Qle_bool_iff.
Qed.

Lemma falsy_zero q : q == 0 -> falsy (Some q) = true.
Proof. intros H. simpl. now apply Qeq_bool_iff. Qed.

Lemma hit_test_falsy {K : Type} fig xl yl (ps : Dict.t K Point) cx cy :
  falsy cx = true \/ falsy cy = true ->
  hit_test fig xl yl ps (cx, cy) = None.
Proof.
  intros [H|H]; unfold hit_test; simpl; rewrite H; simpl.
  - reflexivity.
  - now rewrite orb_true_r.
Qed.

Example int_examples :
  Py.int " 42 " = Some 42%Z /\ Py.int "-7" = Some (-7)%Z /\
  Py.int "1_000" = Some 1000%Z /\ Py.int "abc" = None /\
  Py.int "1.5" = None /\ Py.int "" = None /\ Py.int "1__0" = None /\
  Py.nonblank "  " = false /\ Py.nonblank " x" = true.
Proof. repeat split; reflexivity. Qed.

(** The separators 28 to 31 are white space for [str.strip] and not for
    [int]: a field such as ["\x1c5"] is not blank and is no integer. *)
Example int_rejects_separators :
  Py.nonblank (String (ascii_of_nat 28) "5") = true /\
  Py.int (String (ascii_of_nat 28) "5") = None /\
  Py.int (String (ascii_of_nat 31) "5") = None /\
  Py.int (String (ascii_of_nat 11) "5") = Some 5%Z /\
  LinksCanvas.parse_field (String (ascii_of_nat 28) "5") = None /\
  LinksCanvas.parse_field (String (ascii_of_nat 28) "") = Some None.
Proof. repeat split; reflexivity. Qed.

(** ** The truthiness guard of the hit test *)

(** C9: a query point with an x or a y coordinate equal to 0 is falsy under
    the guard [if not pos[0] or not pos[1]], so the hit test of either canvas
    returns none for it, whatever the positions of the entities are. *)
Theorem hit_test_none_on_zero_coordinate :
  forall (lc : LinksCanvas.Canvas) (gc : PlainGraph.Canvas) (px py : Q),
    px == 0 \/ py == 0 ->
    LinksCanvas._get_link_at_position lc (Some px, Some py) = None /\
    PlainGraph.get_node_at_position gc (Some px, Some py) = None.
Proof.
  intros lc gc px py H.
  assert (F : falsy (Some px) = true \/ falsy (Some py) = true)
    by (destruct H; [left | right]; now apply falsy_zero).
  split; apply hit_test_falsy; exact F.
Qed.

Lemma hit_test_none_on_zero_coordinate_witness :
  (0 == 0 \/ (1 # 2) == 0) /\
  first_within (LinksCanvas.link_positions links_canvas_on_axis) 0 (1 # 2)
    (node_radius fig_10x8 (-1, 1) (0, 1)) = Some 1%Z /\
  LinksCanvas._get_link_at_position links_canvas_on_axis
    (Some 0, Some (1 # 2)) = None /\
  PlainGraph.get_node_at_position graph_canvas_on_axis
    (Some 0, Some (1 # 2)) = None.
Proof.
  split; [left; reflexivity|].
  split; [vm_compute; reflexivity|].
  apply (hit_test_none_on_zero_coordinate links_canvas_on_axis
           graph_canvas_on_axis 0 (1 # 2)).
  left; reflexivity.
Defined.

(** ** Statistics *)

Lemma is_self_link_from_eq_to link_id l :
  LinksCanvas.is_self_link link_id l = true -> LinksCanvas.from_eq_to l = true.
Proof.
  unfold LinksCanvas.is_self_link, LinksCanvas.from_eq_to.
  rewrite andb_true_iff, !Zopt_eqb_eq. intros [-> ->]. reflexivity.
Qed.

Lemma self_links_count (d : Dict.t Z LinksCanvas.Link) :
  List.length (filter LinksCanvas.from_eq_to (Dict.values d)) =
  List.length (filter (fun e => LinksCanvas.from_eq_to (snd e)) d).
Proof.
  unfold Dict.values.
  induction d as [|[k l] d IH]; simpl; [reflexivity|].
  destruct (LinksCanvas.from_eq_to l); simpl; now rewrite IH.
Qed.

Lemma filter_length_le {A : Type} (f g : A -> bool) (l : list A) :
  (forall a, f a = true -> g a = true) ->
  (List.length (filter f l) <= List.length (filter g l))%nat.
Proof.
  intros H. induction l as [|a l IH]; simpl; [lia|].
  destruct (f a) eqn:Ef.
  - rewrite (H a Ef). simpl. lia.
  - destruct (g a); simpl; lia.
Qed.

(** C10: [get_stats] counts as self-links exactly the links whose [from]
    equals their [to]; the id of the link plays no part.  Every link drawn as
    a self-loop is counted, and so are a bare node with both references
    absent and a link from and to one other id: in the canvas loaded from
    such rows the count is 3 while one loop is classified and drawn. *)
Theorem get_stats_self_links_ignore_id :
  (forall c : LinksCanvas.Canvas,
     LinksCanvas.stats_self_links (LinksCanvas.get_stats c) =
     List.length (filter (fun e => Zopt_eqb (LinksCanvas.from (snd e))
                                            (LinksCanvas.to (snd e)))
                         (LinksCanvas.links c)) /\
     (classified_self_loops c
      <= LinksCanvas.stats_self_links (LinksCanvas.get_stats c))%nat) /\
  LinksCanvas.links canvas_self_links =
    [(1%Z, LinksCanvas.mkLink None None);
     (2%Z, LinksCanvas.mkLink (Some 3%Z) (Some 3%Z));
     (3%Z, LinksCanvas.mkLink (Some 3%Z) (Some 3%Z))] /\
  LinksCanvas.stats_self_links (LinksCanvas.get_stats canvas_self_links) = 3%nat /\
  classified_self_loops canvas_self_links = 1%nat /\
  rendered_self_loops canvas_self_links = 1%nat.
Proof.
  split.
  - intros c. unfold LinksCanvas.get_stats; simpl. split.
    + apply self_links_count.
    + rewrite self_links_count. unfold classified_self_loops.
      apply filter_length_le. intros [k l]; simpl.
      apply is_self_link_from_eq_to.
  - run.
Qed.

(** ** Loading *)

Lemma add_node_not_nil l n : PlainGraph.add_node l n <> [].
Proof.
  unfold PlainGraph.add_node.
  destruct (existsb (String.eqb n) l) eqn:E.
  - destruct l; [discriminate | congruence].
  - destruct l; discriminate.
Qed.

Lemma read_row_cases c row :
  PlainGraph.read_row c row = c \/
  PlainGraph.nodes (PlainGraph.graph (PlainGraph.read_row c row)) <> [].
Proof.
  unfold PlainGraph.read_row.
  destruct row as [|r0 [|r1 row]]; auto.
  destruct (_ || _); auto.
  right. simpl. apply add_node_not_nil.
Qed.

Lemma read_row_keeps_nodes c row :
  PlainGraph.nodes (PlainGraph.graph c) <> [] ->
  PlainGraph.nodes (PlainGraph.graph (PlainGraph.read_row c row)) <> [].
Proof.
  intros H. destruct (read_row_cases c row) as [-> | H']; assumption.
Qed.

Lemma read_rows_keep_nodes data : forall c,
  PlainGraph.nodes (PlainGraph.graph c) <> [] ->
  PlainGraph.nodes
    (PlainGraph.graph (fold_left PlainGraph.read_row data c)) <> [].
Proof.
  induction data as [|row data IH]; intros c H; simpl; [exact H|].
  apply IH, read_row_keeps_nodes, H.
Qed.

Lemma read_rows_no_nodes data : forall c,
  PlainGraph.nodes
    (PlainGraph.graph (fold_left PlainGraph.read_row data c)) = [] ->
  fold_left PlainGraph.read_row data c = c.
Proof.
  induction data as [|row data IH]; intros c H; simpl in *; [reflexivity|].
  destruct (read_row_cases c row) as [E | N].
  - rewrite E in *. now apply IH.
  - exfalso. exact (read_rows_keep_nodes data _ N H).
Qed.

Lemma read_row_graph_indep c c' row :
  PlainGraph.graph c = PlainGraph.graph c' ->
  PlainGraph.node_labels c = PlainGraph.node_labels c' ->
  PlainGraph.graph (PlainGraph.read_row c row) =
    PlainGraph.graph (PlainGraph.read_row c' row) /\
  PlainGraph.node_labels (PlainGraph.read_row c row) =
    PlainGraph.node_labels (PlainGraph.read_row c' row).
Proof.
  intros Eg El. unfold PlainGraph.read_row.
  destruct row as [|r0 [|r1 row]]; auto.
  destruct (_ || _); [auto|]. simpl. now rewrite Eg, El.
Qed.

Lemma read_rows_graph_indep data : forall c c',
  PlainGraph.graph c = PlainGraph.graph c' ->
  PlainGraph.node_labels c = PlainGraph.node_labels c' ->
  PlainGraph.graph (fold_left PlainGraph.read_row data c) =
    PlainGraph.graph (fold_left PlainGraph.read_row data c').
Proof.
  induction data as [|row data IH]; intros c c' Eg El; simpl; [exact Eg|].
  destruct (read_row_graph_indep c c' row Eg El) as (Eg' & El').
  now apply IH.
Qed.

Lemma read_rows_keep_view data : forall c,
  PlainGraph.pos (fold_left PlainGraph.read_row data c) = PlainGraph.pos c /\
  PlainGraph.node_artists (fold_left PlainGraph.read_row data c) =
    PlainGraph.node_artists c /\
  PlainGraph.edge_artists (fold_left PlainGraph.read_row data c) =
    PlainGraph.edge_artists c.
Proof.
  induction data as [|row data IH]; intros c; simpl; [auto|].
  destruct (IH (PlainGraph.read_row c row)) as (-> & -> & ->).
  unfold PlainGraph.read_row.
  destruct row as [|r0 [|r1 row]]; auto.
  destruct (_ || _); auto.
Qed.

(** C1, as the code has it: both loaders clear the model before they open
    the file, so a load that fails does not keep the graph of before: the
    positions and the artists are empty, and the links (the graph, on the
    graph canvas) are those of the rows read from the new file before the
    failure, whatever was loaded before.  That is nothing at all when the
    file cannot be opened, when it is rejected at its header or when it ends
    without a usable row, a header alone for one. *)
Theorem failed_load_discards_prior_graph :
  forall layout_links layout_graph
         (lc : LinksCanvas.Canvas) (gc : PlainGraph.Canvas) (file : CsvFile),
    (fst (LinksCanvas.load_links_from_csv layout_links lc file) = false ->
     let lc' := snd (LinksCanvas.load_links_from_csv layout_links lc file) in
     LinksCanvas.links lc' = links_read_before_failure file /\
     LinksCanvas.link_positions lc' = [] /\
     LinksCanvas.link_artists lc' = [] /\
     (forall rows, file = Rows rows -> LinksCanvas.links lc' = [])) /\
    (fst (PlainGraph.load_graph_from_csv layout_graph gc file) = false ->
     let gc' := snd (PlainGraph.load_graph_from_csv layout_graph gc file) in
     PlainGraph.graph gc' = graph_read_before_failure file /\
     PlainGraph.pos gc' = [] /\
     PlainGraph.node_artists gc' = [] /\ PlainGraph.edge_artists gc' = [] /\
     (forall rows, file = Rows rows ->
        PlainGraph.graph gc' = PlainGraph.empty_graph)).
Proof.
  intros ll lg lc gc file. split.
  - intros Hl. unfold LinksCanvas.load_links_from_csv in *.
    destruct file as [|rows|rows]; simpl in *.
    + conjuncts; intros; solve [reflexivity | discriminate].
    + destruct (LinksCanvas.read_rows [] 1 (tl rows)) eqn:E; simpl in *;
        [|discriminate].
      conjuncts; intros; reflexivity.
    + conjuncts; intros; solve [reflexivity | discriminate].
  - intros Hg. unfold PlainGraph.load_graph_from_csv in *.
    set (c0 := PlainGraph.clear_artists _) in *.
    destruct file as [|[|header data]|[|header data]];
      cbn [graph_read_before_failure];
      try (conjuncts; intros; solve [reflexivity | discriminate]).
    + destruct (List.length header <? 2)%nat;
        [conjuncts; intros; reflexivity|].
      destruct (PlainGraph.nodes
                  (PlainGraph.graph (fold_left PlainGraph.read_row data c0)))
        eqn:E; [|discriminate].
      apply read_rows_no_nodes in E. cbn [snd]. rewrite E.
      conjuncts; intros; reflexivity.
    + destruct (List.length header <? 2)%nat;
        [conjuncts; intros; solve [reflexivity | discriminate]|].
      cbn [snd].
      destruct (read_rows_keep_view data c0) as (-> & -> & ->).
      split; [now apply read_rows_graph_indep|].
      conjuncts; intros; solve [reflexivity | discriminate].
Qed.

Lemma failed_load_discards_prior_graph_witness :
  LinksCanvas.links canvas_two_links <> [] /\
  LinksCanvas.links
    (snd (LinksCanvas.load_links_from_csv (row_layout 1) canvas_two_links
            csv_header_only)) = [] /\
  LinksCanvas.links
    (snd (LinksCanvas.load_links_from_csv (row_layout 1) canvas_two_links
            csv_truncated_links)) =
    [(1%Z, LinksCanvas.mkLink (Some 1%Z) (Some 1%Z))] /\
  PlainGraph.graph
    (snd (PlainGraph.load_graph_from_csv (row_layout 1) graph_canvas_on_axis
            csv_truncated_graph)) =
    PlainGraph.mkDiGraph ["A"; "B"]%string [("A", "B")]%string.
Proof.
  split; [discriminate|].
  destruct (failed_load_discards_prior_graph (row_layout 1) (row_layout 1)
              canvas_two_links graph_canvas_on_axis csv_header_only)
    as [Hl _].
  destruct (failed_load_discards_prior_graph (row_layout 1) (row_layout 1)
              canvas_two_links graph_canvas_on_axis csv_truncated_links)
    as [Ht _].
  destruct (failed_load_discards_prior_graph (row_layout 1) (row_layout 1)
              canvas_two_links graph_canvas_on_axis csv_truncated_graph)
    as [_ Hg].
  split; [|split].
  - apply Hl. vm_compute. reflexivity.
  - apply Ht. vm_compute. reflexivity.
  - apply Hg. vm_compute. reflexivity.
Defined.

(** C1 at a concrete input: after the rows [1,1] and [2,1] are loaded, a file
    with a header and no data row is rejected and the two links are gone. *)
Lemma failed_load_does_not_keep_prior_graph :
  ~ (fst (LinksCanvas.load_links_from_csv (row_layout 1) canvas_two_links
            csv_header_only) = false ->
     LinksCanvas.links
       (snd (LinksCanvas.load_links_from_csv (row_layout 1) canvas_two_links
               csv_header_only)) = LinksCanvas.links canvas_two_links /\
     LinksCanvas.link_positions
       (snd (LinksCanvas.load_links_from_csv (row_layout 1) canvas_two_links
               csv_header_only)) = LinksCanvas.link_positions canvas_two_links).
Proof.
  intros H. destruct (H eq_refl) as [H1 _]. vm_compute in H1. discriminate.
Qed.

(** ** Reading the rows of the meta-graph *)

Lemma get_set_same {V : Type} (d : Dict.t Z V) k v :
  LinksCanvas.get (LinksCanvas.set d k v) k = Some v.
Proof.
  unfold LinksCanvas.get, LinksCanvas.set.
  induction d as [|[k' v'] d IH]; simpl.
  - now rewrite Z.eqb_refl.
  - destruct (Z.eqb k k') eqn:E; simpl; rewrite E; [reflexivity | exact IH].
Qed.

Lemma get_set_other {V : Type} (d : Dict.t Z V) k k' v :
  k <> k' ->
  LinksCanvas.get (LinksCanvas.set d k v) k' = LinksCanvas.get d k'.
Proof.
  intros N. unfold LinksCanvas.get, LinksCanvas.set.
  induction d as [|[k0 v0] d IH]; simpl.
  - destruct (Z.eqb k' k) eqn:E; [|reflexivity].
    apply Z.eqb_eq in E. congruence.
  - destruct (Z.eqb k k0) eqn:E; simpl.
    + apply Z.eqb_eq in E. subst k0.
      destruct (Z.eqb k' k) eqn:E'; [|reflexivity].
      apply Z.eqb_eq in E'. congruence.
    + destruct (Z.eqb k' k0); [reflexivity | exact IH].
Qed.








(** ** The hit test *)

Lemma first_within_first {K : Type} (l1 l2 : Dict.t K Point) id q px py r :
  (forall k p, In (k, p) l1 -> ~ within p px py r) ->
  within q px py r ->
  first_within (l1 ++ (id, q) :: l2) px py r = Some id.
Proof.
  unfold within. intros Hl1 Hq.
  induction l1 as [|[k [lx ly]] l1 IH]; simpl.
  - destruct q as [qx qy]. simpl in Hq.
    apply Qle_bool_iff in Hq. now rewrite Hq.
  - destruct (Qle_bool _ _) eqn:E.
    + apply Qle_bool_iff in E. exfalso.
      apply (Hl1 k (lx, ly)); [now left | exact E].
    + apply IH. intros k' p Hin. apply (Hl1 k' p). now right.
Qed.

Lemma within_self px py r : within (px, py) px py r.
Proof.
  unfold within. cbn [fst snd].
  assert (E : (px - px) ^ 2 + (py - py) ^ 2 == 0) by (simpl; ring).
  assert (E2 : r ^ 2 == r * r) by (simpl; ring).
  rewrite E, E2. Lqa.nra.
Qed.

Lemma Qeq_bool_false a b : ~ a == b -> Qeq_bool a b = false.
Proof.
  intros N. destruct (Qeq_bool a b) eqn:E; [|reflexivity].
  apply Qeq_bool_iff in E. contradiction.
Qed.

Lemma hit_test_first {K : Type} fig xl yl (l1 l2 : Dict.t K Point) id px py :
  ~ px == 0 -> ~ py == 0 ->
  ~ snd xl - fst xl == 0 -> ~ snd yl - fst yl == 0 ->
  (forall k p, In (k, p) l1 -> ~ within p px py (node_radius fig xl yl)) ->
  hit_test fig xl yl (l1 ++ (id, (px, py)) :: l2) (Some px, Some py) = Some id.
Proof.
  intros Hx Hy Hxl Hyl Hl1. unfold hit_test. simpl.
  rewrite !Qeq_bool_false by assumption. simpl.
  apply first_within_first; [exact Hl1 | apply within_self].
Qed.

(** ** Auto-fit *)

Lemma list_min_le_acc l : forall x, list_min x l <= x.
Proof.
  unfold list_min. induction l as [|y l IH]; intros x; simpl.
  - apply Qle_refl.
  - destruct (Qltb y x) eqn:E.
    + apply Qltb_lt in E. eapply Qle_trans; [apply IH|]. now apply Qlt_le_weak.
    + apply IH.
Qed.

Lemma list_min_le_in l : forall x v, In v l -> list_min x l <= v.
Proof.
  unfold list_min. induction l as [|y l IH]; intros x v Hin; simpl.
  - destruct Hin.
  - destruct Hin as [-> | Hin].
    + destruct (Qltb v x) eqn:E.
      * apply (list_min_le_acc l v).
      * apply Qltb_ge in E. eapply Qle_trans; [apply (list_min_le_acc l x)|].
        exact E.
    + now apply IH.
Qed.

Lemma list_min_in l : forall x, In (list_min x l) (x :: l).
Proof.
  unfold list_min. induction l as [|y l IH]; intros x; simpl.
  - now left.
  - destruct (Qltb y x).
    + right. apply IH.
    + destruct (IH x) as [E | Hin]; [left; exact E | right; right; exact Hin].
Qed.

Lemma list_max_ge_acc l : forall x, x <= list_max x l.
Proof.
  unfold list_max. induction l as [|y l IH]; intros x; simpl.
  - apply Qle_refl.
  - destruct (Qltb x y) eqn:E.
    + apply Qltb_lt in E. eapply Qle_trans; [|apply IH]. now apply Qlt_le_weak.
    + apply IH.
Qed.

Lemma list_max_ge_in l : forall x v, In v l -> v <= list_max x l.
Proof.
  unfold list_max. induction l as [|y l IH]; intros x v Hin; simpl.
  - destruct Hin.
  - destruct Hin as [-> | Hin].
    + destruct (Qltb x v) eqn:E.
      * apply (list_max_ge_acc l v).
      * apply Qltb_ge in E. eapply Qle_trans; [exact E|].
        apply (list_max_ge_acc l x).
    + now apply IH.
Qed.

Lemma list_max_in l : forall x, In (list_max x l) (x :: l).
Proof.
  unfold list_max. induction l as [|y l IH]; intros x; simpl.
  - now left.
  - destruct (Qltb x y).
    + right. apply IH.
    + destruct (IH x) as [E | Hin]; [left; exact E | right; right; exact Hin].
Qed.

Lemma list_min_is_min x l : is_min (list_min x l) (x :: l).
Proof.
  split; [apply list_min_in|].
  intros v [<- | Hin]; [apply list_min_le_acc | now apply list_min_le_in].
Qed.

Lemma list_max_is_max x l : is_max (list_max x l) (x :: l).
Proof.
  split; [apply list_max_in|].
  intros v [<- | Hin]; [apply list_max_ge_acc | now apply list_max_ge_in].
Qed.

Lemma pymax_Qmax a b : pymax a b == Qmax a b.
Proof.
  unfold pymax. destruct (Qltb a b) eqn:E.
  - apply Qltb_lt in E. symmetry. apply Q.max_r. now apply Qlt_le_weak.
  - apply Qltb_ge in E. symmetry. now apply Q.max_l.
Qed.

Lemma auto_scale_padding_eq r :
  (if Qltb 0 r then pymax 0.2 (r * 0.3) else 0.5) == auto_fit_padding r.
Proof.
  unfold auto_fit_padding. destruct (Qltb 0 r); [apply pymax_Qmax | reflexivity].
Qed.

Lemma update_artists_view gc n :
  PlainGraph.xlim (PlainGraph.update_artists gc n) = PlainGraph.xlim gc /\
  PlainGraph.ylim (PlainGraph.update_artists gc n) = PlainGraph.ylim gc /\
  PlainGraph.zoom_level (PlainGraph.update_artists gc n) =
  PlainGraph.zoom_level gc.
Proof.
  unfold PlainGraph.update_artists.
  destruct (PlainGraph.nodes (PlainGraph.graph gc)); auto.
Qed.

Lemma pymax_ge_l a b : a <= pymax a b.
Proof.
  unfold pymax. destruct (Qltb a b) eqn:E.
  - apply Qltb_lt in E. now apply Qlt_le_weak.
  - apply Qle_refl.
Qed.

Lemma list_min_le_max x l : list_min x l <= list_max x l.
Proof.
  eapply Qle_trans; [apply list_min_le_acc | apply list_max_ge_acc].
Qed.

(** The view that [reset_view] fits to a non-empty set of positions is at
    least 2/5 wide and high: it is not degenerate. *)
Lemma reset_view_not_degenerate (c : LinksCanvas.Canvas) :
  LinksCanvas.link_positions c <> [] ->
  0.4 <= width (LinksCanvas.xlim (LinksCanvas.reset_view c)) /\
  0.4 <= width (LinksCanvas.ylim (LinksCanvas.reset_view c)).
Proof.
  intros Hne. unfold LinksCanvas.reset_view.
  destruct (LinksCanvas.link_positions c) as [|[k p] ps]; [contradiction|].
  cbn [Dict.values map snd].
  cbn [LinksCanvas.with_zoom_level LinksCanvas.with_lims LinksCanvas.xlim
       LinksCanvas.ylim].
  unfold width. cbn [fst snd].
  split.
  - pose proof (list_min_le_max (fst p) (map fst (map snd ps))) as H.
    match goal with
    | |- context [pymax ?a ?b] => pose proof (pymax_ge_l a b) as Hp
    end.
    Lqa.lra.
  - pose proof (list_min_le_max (snd p) (map snd (map snd ps))) as H.
    match goal with
    | |- context [pymax ?a ?b] => pose proof (pymax_ge_l a b) as Hp
    end.
    Lqa.lra.
Qed.

(** C5, as the code has it: [auto_scale] of the graph canvas pads each axis
    on its own by max(0.2, range * 0.3) when the range of the positions is
    positive and by 0.5 when it is zero, and sets the zoom level to 1.0;
    positions spanning x in [0, 10] and y in [0, 0] give a y-range of width 1
    and an x-range of width 16.  [reset_view] of the links canvas pads each
    axis by max(0.2, range * 0.2), whatever the range, and sets the zoom
    level to 1.0 as well. *)
Theorem auto_fit_padding_of_each_canvas :
  forall (gc : PlainGraph.Canvas) (lc : LinksCanvas.Canvas),
    (PlainGraph.pos gc <> [] ->
     let gc' := PlainGraph.auto_scale gc in
     padded_by auto_fit_padding (map fst (Dict.values (PlainGraph.pos gc)))
       (PlainGraph.xlim gc') /\
     padded_by auto_fit_padding (map snd (Dict.values (PlainGraph.pos gc)))
       (PlainGraph.ylim gc') /\
     PlainGraph.zoom_level gc' = 1) /\
    (LinksCanvas.link_positions lc <> [] ->
     let lc' := LinksCanvas.reset_view lc in
     padded_by reset_view_padding
       (map fst (Dict.values (LinksCanvas.link_positions lc)))
       (LinksCanvas.xlim lc') /\
     padded_by reset_view_padding
       (map snd (Dict.values (LinksCanvas.link_positions lc)))
       (LinksCanvas.ylim lc') /\
     LinksCanvas.zoom_level lc' = 1) /\
    (width (PlainGraph.xlim (PlainGraph.auto_scale graph_canvas_span)) == 16 /\
     width (PlainGraph.ylim (PlainGraph.auto_scale graph_canvas_span)) == 1).
Proof.
  intros gc lc. split; [|split].
  - intros Hne gc'. subst gc'. unfold PlainGraph.auto_scale.
    destruct (PlainGraph.pos gc) as [|[k p] ps]; [contradiction|].
    cbn [Dict.values map snd].
    match goal with
    | |- context [PlainGraph.update_artists ?c None] =>
        destruct (update_artists_view c None) as (-> & -> & ->)
    end.
    cbn [PlainGraph.with_zoom_level PlainGraph.with_lims PlainGraph.xlim
         PlainGraph.ylim PlainGraph.zoom_level].
    repeat split.
    + exists (list_min (fst p) (map fst (map snd ps))),
             (list_max (fst p) (map fst (map snd ps))).
      split; [apply list_min_is_min|]. split; [apply list_max_is_max|].
      cbn [fst snd]. split; rewrite auto_scale_padding_eq; reflexivity.
    + exists (list_min (snd p) (map snd (map snd ps))),
             (list_max (snd p) (map snd (map snd ps))).
      split; [apply list_min_is_min|]. split; [apply list_max_is_max|].
      cbn [fst snd]. split; rewrite auto_scale_padding_eq; reflexivity.
  - intros Hne lc'. subst lc'. unfold LinksCanvas.reset_view.
    destruct (LinksCanvas.link_positions lc) as [|[k p] ps]; [contradiction|].
    cbn [Dict.values map snd].
    cbn [LinksCanvas.with_zoom_level LinksCanvas.with_lims LinksCanvas.xlim
         LinksCanvas.ylim LinksCanvas.zoom_level].
    repeat split.
    + exists (list_min (fst p) (map fst (map snd ps))),
             (list_max (fst p) (map fst (map snd ps))).
      split; [apply list_min_is_min|]. split; [apply list_max_is_max|].
      cbn [fst snd]. unfold reset_view_padding.
      split; rewrite pymax_Qmax; reflexivity.
    + exists (list_min (snd p) (map snd (map snd ps))),
             (list_max (snd p) (map snd (map snd ps))).
      split; [apply list_min_is_min|]. split; [apply list_max_is_max|].
      cbn [fst snd]. unfold reset_view_padding.
      split; rewrite pymax_Qmax; reflexivity.
  - run.
Qed.

Lemma auto_fit_padding_of_each_canvas_witness :
  PlainGraph.zoom_level (PlainGraph.auto_scale graph_canvas_span) = 1 /\
  LinksCanvas.zoom_level (LinksCanvas.reset_view links_canvas_span) = 1.
Proof.
  destruct (auto_fit_padding_of_each_canvas graph_canvas_span
              links_canvas_span) as (Hg & Hl & _).
  split.
  - apply Hg. discriminate.
  - apply Hl. discriminate.
Defined.

(** C5 at a concrete input: for links at (0, 0) and (10, 0), [reset_view]
    gives a y-range of width 2/5 and an x-range of width 14, not 1 and 16. *)
Lemma reset_view_pads_by_a_fifth :
  width (LinksCanvas.ylim (LinksCanvas.reset_view links_canvas_span)) == 0.4 /\
  width (LinksCanvas.xlim (LinksCanvas.reset_view links_canvas_span)) == 14 /\
  ~ width (LinksCanvas.ylim (LinksCanvas.reset_view links_canvas_span)) == 1 /\
  ~ width (LinksCanvas.xlim (LinksCanvas.reset_view links_canvas_span)) == 16.
Proof.
  split; [run|]. split; [run|].
  split; intros H; vm_compute in H; discriminate.
Qed.

(** ** Scroll zoom *)

(** What [on_scroll] does to the anchor: in a view that is not degenerate, a
    scroll at a data point with non-zero coordinates puts that point at the
    centre of the figure. *)
Lemma on_scroll_centres_anchor (c : LinksCanvas.Canvas) (b : Button) px py :
  ~ px == 0 -> ~ py == 0 ->
  ~ width (LinksCanvas.xlim c) == 0 -> ~ width (LinksCanvas.ylim c) == 0 ->
  point_eq
    (links_device (LinksCanvas.on_scroll c (scroll_at b (px, py))) (px, py))
    (fig_width (LinksCanvas.fig c) * dpi (LinksCanvas.fig c) / 2,
     fig_height (LinksCanvas.fig c) * dpi (LinksCanvas.fig c) / 2).
Proof.
  intros Hx Hy Hw Hh. unfold width in *.
  unfold links_device, LinksCanvas.on_scroll, scroll_at, dataToDevice, point_eq.
  cbn [inaxes negb button xdata ydata fst snd or_else
       LinksCanvas.update_artists LinksCanvas.with_link_artists
       LinksCanvas.with_lims LinksCanvas.with_zoom_level
       LinksCanvas.fig LinksCanvas.xlim LinksCanvas.ylim].
  rewrite !Qeq_bool_false by assumption.
  destruct (LinksCanvas.xlim c) as [x0 x1], (LinksCanvas.ylim c) as [y0 y1].
  cbn [fst snd] in *.
  destruct (is_up b); split; field; intros E; [apply Hw | apply Hh | apply Hw | apply Hh];
    Lqa.lra.
Qed.

(** C2 at a concrete input: in the view x in [0, 10], y in [0, 8] of the
    1000 by 800 pixel figure the data point (2, 2) is shown at pixel
    (200, 200).  After a scroll at that point, up (factor 1.25) or down
    (factor 0.8), both ranges are scaled by 1/factor but centred on the
    point, so it is shown at the centre of the figure, pixel (500, 400): the
    anchor has moved on the device. *)
Theorem scroll_zoom_moves_anchor :
  let p : Point := (2, 2) in
  let up := scroll_at ScrollUp p in
  let down := scroll_at ScrollDown p in
  point_eq (links_device links_canvas_view p) (200, 200) /\
  point_eq (links_device (LinksCanvas.on_scroll links_canvas_view up) p)
    (500, 400) /\
  point_eq (links_device (LinksCanvas.on_scroll links_canvas_view down) p)
    (500, 400) /\
  point_eq (graph_device graph_canvas_view p) (200, 200) /\
  point_eq (graph_device (PlainGraph.on_scroll graph_canvas_view up) p)
    (500, 400) /\
  point_eq (graph_device (PlainGraph.on_scroll graph_canvas_view down) p)
    (500, 400) /\
  point_eq (LinksCanvas.xlim (LinksCanvas.on_scroll links_canvas_view up))
    (-2, 6) /\
  point_eq (LinksCanvas.xlim (LinksCanvas.on_scroll links_canvas_view down))
    (-(17 # 4), 33 # 4).
Proof. run. Qed.

(** ** Slider zoom *)

(** The slider of the graph viewer: the width and the height of the view
    are those of the auto-fit of the current positions divided by the
    level. *)
Lemma adjust_zoom_width (gc : PlainGraph.Canvas) (value : Z) :
  PlainGraph.nodes (PlainGraph.graph gc) <> [] ->
  PlainGraph.pos gc <> [] ->
  value <> 0%Z ->
  let level := inject_Z value / 100 in
  width (PlainGraph.xlim (PlainGraph.adjust_zoom gc value)) ==
    width (PlainGraph.xlim (PlainGraph.auto_scale gc)) / level /\
  width (PlainGraph.ylim (PlainGraph.adjust_zoom gc value)) ==
    width (PlainGraph.ylim (PlainGraph.auto_scale gc)) / level /\
  PlainGraph.zoom_level (PlainGraph.adjust_zoom gc value) = level.
Proof.
  intros Hn Hp Hv level.
  assert (Hl : ~ inject_Z value == 0).
  { unfold inject_Z, Qeq. simpl. lia. }
  unfold PlainGraph.adjust_zoom, PlainGraph.auto_scale.
  destruct (PlainGraph.nodes (PlainGraph.graph gc)) as [|n ns] eqn:En;
    [contradiction|].
  destruct (PlainGraph.pos gc) as [|[k p] ps]; [contradiction|].
  cbn [Dict.values map snd].
  repeat match goal with
  | |- context [PlainGraph.update_artists ?c None] =>
      let H1 := fresh in let H2 := fresh in let H3 := fresh in
      destruct (update_artists_view c None) as (H1 & H2 & H3);
      rewrite ?H1, ?H2, ?H3; clear H1 H2 H3
  end.
  cbn [PlainGraph.with_zoom_level PlainGraph.with_lims PlainGraph.xlim
       PlainGraph.ylim PlainGraph.zoom_level].
  unfold width, level. cbn [fst snd].
  split; [|split]; [field | field | reflexivity]; exact Hl.
Qed.

(** C6 at a concrete input: for links at (0, 0) and (10, 8) the auto-fit
    view is 14 wide and 56/5 high.  [set_zoom] divides the current width and
    height by the level: level 2 gives 7 by 28/5, and level 1.0 after it
    leaves 7 by 28/5 with the stored zoom level back at 1; level 2 twice
    gives 7/2 by 14/5 with the stored level at 2. *)
Theorem set_zoom_compounds :
  let fitted := LinksCanvas.reset_view links_canvas_diag in
  let zoomed := LinksCanvas.set_zoom fitted 2 in
  let back := LinksCanvas.set_zoom zoomed 1 in
  let twice := LinksCanvas.set_zoom zoomed 2 in
  (width (LinksCanvas.xlim fitted) == 14 /\
   width (LinksCanvas.ylim fitted) == 56 # 5) /\
  (width (LinksCanvas.xlim zoomed) == 7 /\
   width (LinksCanvas.ylim zoomed) == 28 # 5) /\
  (width (LinksCanvas.xlim back) == 7 /\
   width (LinksCanvas.ylim back) == 28 # 5 /\
   LinksCanvas.zoom_level back == LinksCanvas.zoom_level fitted) /\
  (width (LinksCanvas.xlim twice) == 7 # 2 /\
   width (LinksCanvas.ylim twice) == 14 # 5 /\
   LinksCanvas.zoom_level twice == LinksCanvas.zoom_level zoomed).
Proof. run. Qed.

(** ** Dragging a link *)

Lemma update_artists_shape c k :
  shape_of (LinksCanvas.update_artists c) k = shape_of c k.
Proof.
  unfold shape_of, LinksCanvas.update_artists, LinksCanvas.get. simpl.
  induction (LinksCanvas.link_artists c) as [|[k' a] d IH]; simpl.
  - reflexivity.
  - destruct (Z.eqb k k'); [reflexivity | exact IH].
Qed.

Lemma update_link_artist_other c sel c' k :
  LinksCanvas._update_link_artist c sel = Some c' ->
  k <> sel ->
  LinksCanvas.get (LinksCanvas.link_artists c') k =
  LinksCanvas.get (LinksCanvas.link_artists c) k.
Proof.
  unfold LinksCanvas._update_link_artist. intros H N.
  destruct (negb _); [now injection H as <-|].
  destruct (LinksCanvas.get (LinksCanvas.links c) sel) as [l|]; [|discriminate].
  destruct (_ && _).
  - destruct (LinksCanvas.get (LinksCanvas.link_positions c) sel);
      [|discriminate].
    injection H as <-. simpl. apply get_set_other. congruence.
  - destruct (LinksCanvas.from l), (LinksCanvas.to l);
      try (destruct (LinksCanvas.get (LinksCanvas.link_positions c) sel);
           [|discriminate]);
      injection H as <-; simpl; apply get_set_other; congruence.
Qed.

Lemma drag_shape_other c event k :
  LinksCanvas.selected_link c <> Some k ->
  shape_of (LinksCanvas.drag c event) k = shape_of c k.
Proof.
  intros N. unfold LinksCanvas.drag.
  destruct (LinksCanvas.selected_link c) as [sel|]; [|reflexivity].
  destruct (xdata event) as [xd|]; [|reflexivity].
  destruct (ydata event) as [yd|]; [|reflexivity].
  destruct (_ && _); [|reflexivity].
  destruct (LinksCanvas._update_link_artist _ sel) as [c2|] eqn:E;
    [|reflexivity].
  unfold shape_of. rewrite (update_link_artist_other _ _ _ k E); [reflexivity|].
  congruence.
Qed.

(** A motion event redraws no link but the selected one: the shape of every
    other artist is what it was. *)
Lemma on_motion_shape_other c event k :
  LinksCanvas.selected_link c <> Some k ->
  shape_of (LinksCanvas.on_motion c event) k = shape_of c k.
Proof.
  intros N. unfold LinksCanvas.on_motion.
  destruct (negb (inaxes event)).
  - destruct (LinksCanvas.truthy _); [|reflexivity].
    now rewrite update_artists_shape.
  - destruct (_ && _).
    + unfold LinksCanvas.pan. destruct (_ || _); [reflexivity|].
      destruct (LinksCanvas.pan_start c) as [[sx sy]|]; [|reflexivity].
      destruct (LinksCanvas.pan_origin c) as [[ox oy]|]; [|reflexivity].
      destruct (_ || _); reflexivity.
    + destruct (negb (Zopt_eqb _ _)).
      * rewrite drag_shape_other by exact N. now rewrite update_artists_shape.
      * apply drag_shape_other, N.
Qed.

(** The graph canvas, for comparison: dragging node A of the edge from A to B
    repositions the circle of A and the arrow of the edge in the same motion
    event. *)
Example graph_drag_repositions_incident_edge :
  let pressed := PlainGraph.on_press graph_canvas_edge (mouse_at (1, 1)) in
  let moved := PlainGraph.on_motion pressed (mouse_at (6 # 5, 11 # 10)) in
  PlainGraph.selected_node pressed = Some "A"%string /\
  Dict.get PlainGraph.edge_eqb (PlainGraph.edge_artists pressed)
    ("A", "B")%string = Some ((1, 1), (2, 1)) /\
  Dict.get PlainGraph.edge_eqb (PlainGraph.edge_artists moved)
    ("A", "B")%string = Some ((6 # 5, 11 # 10), (2, 1)) /\
  option_map PlainGraph.center
    (PlainGraph.get (PlainGraph.node_artists moved) "A") =
  Some (6 # 5, 11 # 10).
Proof. run. Qed.

(** C3 at a concrete input: rows that make 1 a bare node, 2 a regular link
    from 1 to 3 and 4 a link from link 2 to 3, laid out at (1, 1), (2, 1),
    (3, 1) and (4, 1).  Link 1 is pressed at its centre and dragged to
    (3/2, 11/10).  The arrow of link 4 starts at the middle of the two ends of
    link 2, (2, 1) before the drag and (9/4, 21/20) when drawn anew after it;
    the motion event redraws link 1 only, so the artists of links 2 and 4 are
    the ones of before the drag, and they still are after the release. *)
Theorem drag_leaves_dependent_links_stale :
  let pressed := LinksCanvas.on_press canvas_chain (mouse_at (1, 1)) in
  let moved := LinksCanvas.on_motion pressed (mouse_at (3 # 2, 11 # 10)) in
  let released := LinksCanvas.on_release moved (mouse_at (3 # 2, 11 # 10)) in
  let artist c k := LinksCanvas.get (LinksCanvas.link_artists c) k in
  (LinksCanvas.selected_link pressed = Some 1%Z /\
   LinksCanvas.dragging pressed = true) /\
  LinksCanvas.get (LinksCanvas.link_positions moved) 1%Z =
    Some (3 # 2, 11 # 10) /\
  shape_of moved 1%Z =
    Some (LinksCanvas.Circle (3 # 2, 11 # 10) (LinksCanvas.node_size / 2)) /\
  (arrow_from (artist canvas_chain 4%Z) (2, 1) /\
   artist moved 4%Z = artist canvas_chain 4%Z /\
   artist released 4%Z = artist canvas_chain 4%Z /\
   arrow_from (artist (LinksCanvas.create_artists moved) 4%Z)
     (9 # 4, 21 # 20)) /\
  (arrow_from (artist canvas_chain 2%Z) (1, 1) /\
   artist moved 2%Z = artist canvas_chain 2%Z /\
   artist released 2%Z = artist canvas_chain 2%Z /\
   arrow_from (artist (LinksCanvas.create_artists moved) 2%Z)
     (3 # 2, 11 # 10)).
Proof. run. Qed.

(** ** Links that end on a self-loop *)

(** The point of the loop rule lies at distance [node_size * 0.49] from the
    centre of the loop: it is never the centre itself. *)
Lemma loop_connection_point_off_centre (node_size : R) loop_pos target_pos
    outward :
  node_size <> 0%R ->
  LoopRule._get_loop_connection_point node_size loop_pos target_pos outward
  <> loop_pos.
Proof.
  intros Hn. unfold LoopRule._get_loop_connection_point.
  set (angle := LoopRule.arctan2 _ _).
  destruct loop_pos as [lx ly]. cbn [fst snd]. intros E.
  injection E as Ex Ey.
  assert (Hf : ((if outward then 7 / 10 else - (7 / 10)) <> 0)%R)
    by (destruct outward; Lra.lra).
  set (f := (if outward then (7 / 10)%R else (- (7 / 10))%R)) in *.
  assert (Hc : (node_size * (7 / 10) * cos angle * f = 0)%R) by Lra.lra.
  assert (Hs : (node_size * (7 / 10) * sin angle * f = 0)%R) by Lra.lra.
  assert (Hk : (node_size * (7 / 10) * f <> 0)%R).
  { apply Rmult_integral_contrapositive_currified; [|exact Hf].
    apply Rmult_integral_contrapositive_currified; [exact Hn | Lra.lra]. }
  assert (C0 : cos angle = 0%R).
  { apply (Rmult_eq_reg_l (node_size * (7 / 10) * f)%R); [|exact Hk].
    rewrite Rmult_0_r. rewrite <- Hc. ring. }
  assert (S0 : sin angle = 0%R).
  { apply (Rmult_eq_reg_l (node_size * (7 / 10) * f)%R); [|exact Hk].
    rewrite Rmult_0_r. rewrite <- Hs. ring. }
  pose proof (sin2_cos2 angle) as H1. unfold Rsqr in H1.
  rewrite C0, S0 in H1. Lra.lra.
Qed.

Lemma node_size_nonzero : Q2R LinksCanvas.node_size <> 0%R.
Proof. unfold LinksCanvas.node_size, Q2R. simpl. Lra.lra. Qed.

(** What a successful load does after the rows are read, for the links of
    the scenario: layout, a first round of artists, the fit of the view and
    the artists again. *)
Lemma load_two_links layout (c0 : LinksCanvas.Canvas) :
  snd (LinksCanvas.load_links_from_csv layout c0 csv_two_links) =
  LinksCanvas.update_artists
    (LinksCanvas.create_artists
       (LinksCanvas.reset_view
          (LinksCanvas.create_artists
             (LinksCanvas.clear_artists
                (LinksCanvas.with_link_positions
                   (LinksCanvas.with_links
                      (LinksCanvas.clear_artists
                         (LinksCanvas.with_link_positions
                            (LinksCanvas.with_links c0 []) []))
                      two_links)
                   (layout Spring [1%Z; 2%Z]
                      [(1, 1); (1, 1); (2, 2); (2, 1)]%Z)))))).
Proof. reflexivity. Qed.

Lemma two_links_drawn (c : LinksCanvas.Canvas) :
  LinksCanvas.links c = two_links ->
  let c' :=
    LinksCanvas.update_artists
      (LinksCanvas.create_artists
         (LinksCanvas.reset_view
            (LinksCanvas.create_artists (LinksCanvas.clear_artists c)))) in
  let centre := LinksCanvas.pos_get (LinksCanvas.link_positions c) (Some 1%Z) in
  let own := LinksCanvas.pos_get (LinksCanvas.link_positions c) (Some 2%Z) in
  LinksCanvas.links c' = two_links /\
  LinksCanvas.link_positions c' = LinksCanvas.link_positions c /\
  shape_of c' 1%Z =
    Some (LinksCanvas.SelfLink (fst centre) (snd centre)
            (LinksCanvas.node_size * 0.7)) /\
  shape_of c' 2%Z =
    Some (LinksCanvas.Arrow (LinksCanvas.midpoint own centre) centre).
Proof.
  destruct c as [f xl yl l P z s h d ps po a]. cbn [LinksCanvas.links].
  intros ->. destruct P as [|[k p] P]; cbv zeta; conjuncts;
    vm_compute; reflexivity.
Qed.

(** C4 at the input of the scenario: after the rows [1,1] and [2,1] are
    loaded, under any layout, link 1 is drawn as a self-loop around its
    stored position and link 2 as an arrow from the middle of its own two
    ends to the stored position of link 1 itself.  The point of the loop rule
    [_get_loop_connection_point], which no drawing routine calls, is never
    that position, whatever the target. *)
Theorem link_to_self_loop_ends_at_loop_centre :
  forall (layout : LayoutKind -> list Z -> list (Z * Z) -> Dict.t Z Point)
         (c0 : LinksCanvas.Canvas),
    let c := snd (LinksCanvas.load_links_from_csv layout c0 csv_two_links) in
    let centre := LinksCanvas.pos_get (LinksCanvas.link_positions c) (Some 1%Z) in
    let own := LinksCanvas.pos_get (LinksCanvas.link_positions c) (Some 2%Z) in
    LinksCanvas.links c =
      [(1%Z, LinksCanvas.mkLink (Some 1%Z) (Some 1%Z));
       (2%Z, LinksCanvas.mkLink (Some 2%Z) (Some 1%Z))] /\
    shape_of c 1%Z =
      Some (LinksCanvas.SelfLink (fst centre) (snd centre)
              (LinksCanvas.node_size * 0.7)) /\
    shape_of c 2%Z =
      Some (LinksCanvas.Arrow (LinksCanvas.midpoint own centre) centre) /\
    forall (target_pos : R * R) (outward : bool),
      LoopRule._get_loop_connection_point (Q2R LinksCanvas.node_size)
        (LoopRule.Q2R_point centre) target_pos outward
      <> LoopRule.Q2R_point centre.
Proof.
  intros layout c0 c centre own.
  destruct (two_links_drawn
              (LinksCanvas.with_link_positions
                 (LinksCanvas.with_links
                    (LinksCanvas.clear_artists
                       (LinksCanvas.with_link_positions
                          (LinksCanvas.with_links c0 []) []))
                    two_links)
                 (layout Spring [1%Z; 2%Z] [(1, 1); (1, 1); (2, 2); (2, 1)]%Z))
              eq_refl) as (Hl & Hp & H1 & H2).
  rewrite <- load_two_links in Hl, Hp, H1, H2. fold c in Hl, Hp, H1, H2.
  cbn [LinksCanvas.link_positions LinksCanvas.with_link_positions] in Hp, H1, H2.
  rewrite <- Hp in H1, H2. fold centre in H1, H2. fold own in H2.
  split; [exact Hl|]. split; [exact H1|]. split; [exact H2|].
  - intros target_pos outward.
    apply loop_connection_point_off_centre, node_size_nonzero.
Qed.

(** * Further properties of the canvases *)

(** ** What the hit test answers *)

Lemma first_within_some {K : Type} (d : Dict.t K Point) px py r k :
  first_within d px py r = Some k -> first_hit d px py r k.
Proof.
  induction d as [|[k' [lx ly]] d IH]; simpl; [discriminate|].
  destruct (Qle_bool _ _) eqn:E.
  - intros H. injection H as ->. exists [], (lx, ly), d.
    split; [reflexivity|]. split.
    + unfold within. simpl. now apply Qle_bool_iff.
    + intros ? ? [].
  - intros H. destruct (IH H) as (l1 & p & l2 & -> & Hp & Hl1).
    exists ((k', (lx, ly)) :: l1), p, l2.
    split; [reflexivity|]. split; [exact Hp|].
    intros k0 q [Eq | Hin]; [|now apply (Hl1 k0)].
    injection Eq as <- <-. unfold within. simpl. intros Hw.
    apply Qle_bool_iff in Hw. congruence.
Qed.

Lemma first_within_none {K : Type} (d : Dict.t K Point) px py r :
  first_within d px py r = None <-> no_hit d px py r.
Proof.
  unfold no_hit. induction d as [|[k' [lx ly]] d IH]; simpl.
  - split; [intros _ ? ? [] | reflexivity].
  - destruct (Qle_bool _ _) eqn:E.
    + split; [discriminate|]. intros H. exfalso.
      apply (H k' (lx, ly)); [now left|].
      unfold within. simpl. now apply Qle_bool_iff.
    + rewrite IH. split.
      * intros H k p [Eq | Hin]; [|now apply (H k)].
        injection Eq as <- <-. unfold within. simpl. intros Hw.
        apply Qle_bool_iff in Hw. congruence.
      * intros H k p Hin. apply (H k). now right.
Qed.

Lemma hit_test_some {K : Type} fig xl yl (d : Dict.t K Point) cx cy k :
  hit_test fig xl yl d (cx, cy) = Some k ->
  exists px py,
    cx = Some px /\ cy = Some py /\ ~ px == 0 /\ ~ py == 0 /\
    ~ width xl == 0 /\ ~ width yl == 0 /\
    first_hit d px py (node_radius fig xl yl) k.
Proof.
  unfold hit_test, width. cbn [fst snd].
  destruct cx as [px|], cy as [py|]; simpl; try discriminate;
    try (destruct (Qeq_bool _ 0); discriminate).
  destruct (Qeq_bool px 0) eqn:Ex; [discriminate|].
  destruct (Qeq_bool py 0) eqn:Ey; [discriminate|]. simpl.
  destruct (Qeq_bool (snd xl - fst xl) 0) eqn:Exl; [discriminate|].
  destruct (Qeq_bool (snd yl - fst yl) 0) eqn:Eyl; [discriminate|]. simpl.
  intros H. exists px, py.
  repeat (split; [first [reflexivity
                        | intros Hq; apply Qeq_bool_iff in Hq; congruence]|]).
  now apply first_within_some.
Qed.

(** X1: when the hit test of either canvas answers with an entity, the query
    point has two non-zero coordinates, the view is not degenerate, and the
    entity is the first one in insertion order whose stored position lies
    within the node radius of the query point. *)
Theorem hit_test_answer_is_first_within_radius :
  forall (lc : LinksCanvas.Canvas) (gc : PlainGraph.Canvas)
         (cx cy : Coord) (link_id : Z) (node : string),
    (LinksCanvas._get_link_at_position lc (cx, cy) = Some link_id ->
     exists px py,
       cx = Some px /\ cy = Some py /\ ~ px == 0 /\ ~ py == 0 /\
       ~ width (LinksCanvas.xlim lc) == 0 /\
       ~ width (LinksCanvas.ylim lc) == 0 /\
       first_hit (LinksCanvas.link_positions lc) px py (links_radius lc)
         link_id) /\
    (PlainGraph.get_node_at_position gc (cx, cy) = Some node ->
     exists px py,
       cx = Some px /\ cy = Some py /\ ~ px == 0 /\ ~ py == 0 /\
       ~ width (PlainGraph.xlim gc) == 0 /\
       ~ width (PlainGraph.ylim gc) == 0 /\
       first_hit (PlainGraph.pos gc) px py (graph_radius gc) node).
Proof.
  intros lc gc cx cy link_id node. split; apply hit_test_some.
Qed.

Lemma hit_test_answer_is_first_within_radius_witness :
  exists px py,
    Some 2 = Some px /\ Some 1 = Some py /\ ~ px == 0 /\ ~ py == 0 /\
    ~ width (LinksCanvas.xlim canvas_two_links) == 0 /\
    ~ width (LinksCanvas.ylim canvas_two_links) == 0 /\
    first_hit (LinksCanvas.link_positions canvas_two_links) px py
      (links_radius canvas_two_links) 2%Z.
Proof.
  apply (proj1 (hit_test_answer_is_first_within_radius canvas_two_links
                  graph_canvas_on_axis (Some 2) (Some 1) 2%Z "A"%string)).
  vm_compute. reflexivity.
Defined.

(** X2: for a query point with two non-zero coordinates in a view that is
    not degenerate, the hit test of either canvas answers none exactly when
    no stored position lies within the node radius of the point. *)
Theorem hit_test_none_iff_nothing_within_radius :
  forall (lc : LinksCanvas.Canvas) (gc : PlainGraph.Canvas) (px py : Q),
    ~ px == 0 -> ~ py == 0 ->
    (~ width (LinksCanvas.xlim lc) == 0 ->
     ~ width (LinksCanvas.ylim lc) == 0 ->
     (LinksCanvas._get_link_at_position lc (Some px, Some py) = None <->
      no_hit (LinksCanvas.link_positions lc) px py (links_radius lc))) /\
    (~ width (PlainGraph.xlim gc) == 0 ->
     ~ width (PlainGraph.ylim gc) == 0 ->
     (PlainGraph.get_node_at_position gc (Some px, Some py) = None <->
      no_hit (PlainGraph.pos gc) px py (graph_radius gc))).
Proof.
  intros lc gc px py Hx Hy.
  split; intros Hxl Hyl;
    unfold LinksCanvas._get_link_at_position, PlainGraph.get_node_at_position,
      hit_test, width in *; simpl;
    rewrite !Qeq_bool_false by assumption; simpl;
    apply first_within_none.
Qed.

Lemma hit_test_none_iff_nothing_within_radius_witness :
  LinksCanvas._get_link_at_position canvas_two_links
    (Some (3 # 2), Some 1) = None <->
  no_hit (LinksCanvas.link_positions canvas_two_links) (3 # 2) 1
    (links_radius canvas_two_links).
Proof.
  refine (proj1 (hit_test_none_iff_nothing_within_radius canvas_two_links
                   graph_canvas_on_axis (3 # 2) 1 _ _) _ _);
    intros H; vm_compute in H; discriminate.
Defined.

(** ** The ids of the links that a file gives *)


Lemma get_none_of_keys {V : Type} (d : Dict.t Z V) k :
  ~ In k (Dict.keys d) -> LinksCanvas.get d k = None.
Proof.
  unfold LinksCanvas.get, Dict.keys.
  induction d as [|[k' v'] d IH]; simpl; [reflexivity|].
  intros H. destruct (Z.eqb k k') eqn:E.
  - apply Z.eqb_eq in E. exfalso. apply H. now left.
  - apply IH. intros Hin. apply H. now right.
Qed.








(** ** The artists of a full draw *)

Lemma draw_link_ext (c1 c2 : LinksCanvas.Canvas) link_id l pos :
  LinksCanvas.links c1 = LinksCanvas.links c2 ->
  LinksCanvas.link_positions c1 = LinksCanvas.link_positions c2 ->
  LinksCanvas.draw_link c1 link_id l pos =
  LinksCanvas.draw_link c2 link_id l pos.
Proof.
  intros El Ep.
  unfold LinksCanvas.draw_link, LinksCanvas._draw_regular_link,
    LinksCanvas.adjust_end.
  now rewrite El, Ep.
Qed.

Lemma get_some_in_keys {V : Type} (d : Dict.t Z V) k :
  In k (Dict.keys d) -> exists v, LinksCanvas.get d k = Some v.
Proof.
  unfold LinksCanvas.get, Dict.keys.
  induction d as [|[k' v'] d IH]; simpl; [intros []|].
  intros H. destruct (Z.eqb k k') eqn:E; [now exists v'|].
  destruct H as [H | H]; [|now apply IH].
  subst k'. rewrite Z.eqb_refl in E. discriminate.
Qed.

Lemma get_some_keys {V : Type} (d : Dict.t Z V) k v :
  LinksCanvas.get d k = Some v -> In k (Dict.keys d).
Proof.
  intros H. destruct (in_dec Z.eq_dec k (Dict.keys d)) as [Hin | Hn];
    [exact Hin|].
  apply get_none_of_keys in Hn. congruence.
Qed.

(** The artists after the loop of [create_artists] over a list of ids. *)
Lemma create_loop_spec ks : forall (c0 c : LinksCanvas.Canvas),
  LinksCanvas.links c = LinksCanvas.links c0 ->
  LinksCanvas.link_positions c = LinksCanvas.link_positions c0 ->
  (forall k, In k ks -> In k (Dict.keys (LinksCanvas.links c0))) ->
  let c' := fold_left LinksCanvas._create_link_artist ks c in
  LinksCanvas.links c' = LinksCanvas.links c0 /\
  LinksCanvas.link_positions c' = LinksCanvas.link_positions c0 /\
  LinksCanvas.xlim c' = LinksCanvas.xlim c /\
  LinksCanvas.ylim c' = LinksCanvas.ylim c /\
  forall k,
    LinksCanvas.get (LinksCanvas.link_artists c') k =
    if in_dec Z.eq_dec k ks then
      match LinksCanvas.get (LinksCanvas.links c0) k with
      | Some l =>
          Some (LinksCanvas.draw_link c0 k l
                  (LinksCanvas.pos_get (LinksCanvas.link_positions c0)
                     (Some k)))
      | None => None
      end
    else LinksCanvas.get (LinksCanvas.link_artists c) k.
Proof.
  induction ks as [|k0 ks IH]; intros c0 c El Ep Hks; simpl.
  - repeat split; auto.
  - destruct (get_some_in_keys (LinksCanvas.links c0) k0) as [l0 Hl0];
      [apply Hks; now left|].
    assert (Hstep : LinksCanvas._create_link_artist c k0 =
                    LinksCanvas.with_link_artists c
                      (LinksCanvas.set (LinksCanvas.link_artists c) k0
                         (LinksCanvas.draw_link c0 k0 l0
                            (LinksCanvas.pos_get
                               (LinksCanvas.link_positions c0) (Some k0))))).
    { unfold LinksCanvas._create_link_artist. rewrite El, Hl0, Ep.
      f_equal. f_equal. now apply draw_link_ext. }
    rewrite Hstep.
    destruct (IH c0 (LinksCanvas.with_link_artists c
                       (LinksCanvas.set (LinksCanvas.link_artists c) k0
                          (LinksCanvas.draw_link c0 k0 l0
                             (LinksCanvas.pos_get
                                (LinksCanvas.link_positions c0) (Some k0)))))
                El Ep)
      as (H1 & H2 & H3 & H4 & H5).
    { intros k Hk. apply Hks. now right. }
    split; [exact H1|]. split; [exact H2|].
    split; [exact H3|]. split; [exact H4|].
    intros k. rewrite H5. cbn [LinksCanvas.link_artists
      LinksCanvas.with_link_artists].
    destruct (in_dec Z.eq_dec k ks) as [Hin | Hn].
    + destruct (Z.eq_dec k0 k) as [-> | Hne]; [reflexivity|].
      destruct (in_dec Z.eq_dec k (k0 :: ks)) as [_ | Hn']; [reflexivity|].
      exfalso. apply Hn'. now right.
    + destruct (Z.eq_dec k0 k) as [-> | Hne].
      * rewrite get_set_same, Hl0.
        destruct (in_dec Z.eq_dec k (k :: ks)) as [_ | Hn']; [reflexivity|].
        exfalso. apply Hn'. now left.
      * rewrite get_set_other by exact Hne.
        destruct (in_dec Z.eq_dec k (k0 :: ks)) as [[E | Hin] | _];
          [congruence | contradiction | reflexivity].
Qed.

Lemma create_artists_spec (c : LinksCanvas.Canvas) :
  let c' := LinksCanvas.create_artists c in
  LinksCanvas.links c' = LinksCanvas.links c /\
  LinksCanvas.link_positions c' = LinksCanvas.link_positions c /\
  LinksCanvas.xlim c' = LinksCanvas.xlim c /\
  LinksCanvas.ylim c' = LinksCanvas.ylim c /\
  forall k,
    LinksCanvas.get (LinksCanvas.link_artists c') k =
    match LinksCanvas.get (LinksCanvas.links c) k with
    | Some l =>
        Some (LinksCanvas.draw_link c k l
                (LinksCanvas.pos_get (LinksCanvas.link_positions c) (Some k)))
    | None => LinksCanvas.get (LinksCanvas.link_artists c) k
    end.
Proof.
  unfold LinksCanvas.create_artists.
  destruct (create_loop_spec (Dict.keys (LinksCanvas.links c)) c c
              eq_refl eq_refl (fun k H => H)) as (H1 & H2 & H3 & H4 & H5).
  repeat (split; [assumption|]).
  intros k. rewrite H5.
  destruct (in_dec Z.eq_dec k (Dict.keys (LinksCanvas.links c))) as [Hin | Hn].
  - destruct (get_some_in_keys _ _ Hin) as [l ->]. reflexivity.
  - now rewrite (get_none_of_keys _ _ Hn).
Qed.

Lemma reset_view_model (c : LinksCanvas.Canvas) :
  LinksCanvas.links (LinksCanvas.reset_view c) = LinksCanvas.links c /\
  LinksCanvas.link_positions (LinksCanvas.reset_view c) =
    LinksCanvas.link_positions c /\
  LinksCanvas.link_artists (LinksCanvas.reset_view c) =
    LinksCanvas.link_artists c.
Proof.
  unfold LinksCanvas.reset_view.
  destruct (Dict.values (LinksCanvas.link_positions c)); auto.
Qed.



(** X6: a partial redraw agrees with a full draw.  When
    [_update_link_artist] redraws a link that has an artist and a stored
    position, the new artist is the one [_create_link_artist] draws for that
    link, and no other artist, no link and no position changes.  A link
    without an artist is left alone; a link with an artist that is no key of
    [links] raises [KeyError]. *)
Theorem update_link_artist_agrees_with_create :
  forall (c : LinksCanvas.Canvas) (link_id : Z),
    (LinksCanvas.get (LinksCanvas.link_artists c) link_id = None ->
     LinksCanvas._update_link_artist c link_id = Some c) /\
    (LinksCanvas.get (LinksCanvas.link_artists c) link_id <> None ->
     LinksCanvas.get (LinksCanvas.links c) link_id = None ->
     LinksCanvas._update_link_artist c link_id = None) /\
    (forall a l p,
       LinksCanvas.get (LinksCanvas.link_artists c) link_id = Some a ->
       LinksCanvas.get (LinksCanvas.links c) link_id = Some l ->
       LinksCanvas.get (LinksCanvas.link_positions c) link_id = Some p ->
       exists c',
         LinksCanvas._update_link_artist c link_id = Some c' /\
         LinksCanvas.link_artists c' =
           LinksCanvas.link_artists (LinksCanvas._create_link_artist c link_id) /\
         LinksCanvas.links c' = LinksCanvas.links c /\
         LinksCanvas.link_positions c' = LinksCanvas.link_positions c).
Proof.
  intros c link_id. unfold LinksCanvas._update_link_artist, LinksCanvas.mem.
  unfold Dict.mem. fold (LinksCanvas.get (LinksCanvas.link_artists c) link_id).
  split; [|split].
  - intros ->. reflexivity.
  - intros Ha ->.
    destruct (LinksCanvas.get (LinksCanvas.link_artists c) link_id);
      [reflexivity | contradiction].
  - intros a l p -> Hl Hp. simpl. rewrite Hl, Hp.
    unfold LinksCanvas._create_link_artist. rewrite Hl.
    unfold LinksCanvas.pos_get. rewrite Hp.
    unfold LinksCanvas.draw_link, LinksCanvas.is_self_link,
      LinksCanvas.from_eq_to, LinksCanvas.is_id.
    destruct l as [f t]. cbn [LinksCanvas.from LinksCanvas.to].
    assert (Etest : Zopt_eqb f t && Zopt_eqb t (Some link_id) =
                    Zopt_eqb f (Some link_id) && Zopt_eqb t (Some link_id)).
    { destruct (Zopt_eqb t (Some link_id)) eqn:Et.
      - apply Zopt_eqb_eq in Et. subst t. now rewrite !andb_true_r.
      - now rewrite !andb_false_r. }
    rewrite Etest.
    destruct (Zopt_eqb f (Some link_id) && Zopt_eqb t (Some link_id)).
    + eexists. split; [reflexivity|]. auto.
    + destruct f, t; eexists; (split; [reflexivity|]); auto.
Qed.

Lemma update_link_artist_agrees_with_create_witness :
  exists c',
    LinksCanvas._update_link_artist canvas_chain 4%Z = Some c' /\
    LinksCanvas.link_artists c' =
      LinksCanvas.link_artists (LinksCanvas._create_link_artist canvas_chain 4%Z) /\
    LinksCanvas.links c' = LinksCanvas.links canvas_chain /\
    LinksCanvas.link_positions c' = LinksCanvas.link_positions canvas_chain.
Proof.
  refine (proj2 (proj2 (update_link_artist_agrees_with_create canvas_chain 4%Z))
            _ _ _ _ _ _); vm_compute; reflexivity.
Defined.

(** ** The graph handed to the layout *)

Lemma mem_of_entry {V : Type} (d : Dict.t Z V) k v :
  In (k, v) d -> LinksCanvas.mem d k = true.
Proof.
  intros Hin. unfold LinksCanvas.mem, Dict.mem.
  fold (LinksCanvas.get d k).
  destruct (get_some_in_keys d k) as [v' ->]; [|reflexivity].
  unfold Dict.keys. apply in_map_iff. now exists (k, v).
Qed.

(** X7: the reference graph that [apply_layout] builds has no dangling edge:
    both ends of every edge are ids of links.  Each edge is a reference:
    [(f, id)] for a link [id] whose [from] is the link [f], or [(id, t)] for
    a link [id] whose [to] is the link [t]. *)
Theorem reference_edges_join_links :
  forall (links : Dict.t Z LinksCanvas.Link) (a b : Z),
    In (a, b) (LinksCanvas.reference_edges links) ->
    LinksCanvas.mem links a = true /\ LinksCanvas.mem links b = true /\
    ((exists l, In (b, l) links /\ LinksCanvas.from l = Some a) \/
     (exists l, In (a, l) links /\ LinksCanvas.to l = Some b)).
Proof.
  intros links a b. unfold LinksCanvas.reference_edges.
  rewrite in_flat_map. intros ([k l] & Hin & He). cbn [fst snd] in He.
  apply in_app_iff in He. destruct He as [He | He].
  - destruct (LinksCanvas.from l) as [f|] eqn:Ef; [|destruct He].
    destruct (LinksCanvas.mem links f) eqn:Em; [|destruct He].
    destruct He as [E | []]. injection E as <- <-.
    split; [exact Em|]. split; [now apply (mem_of_entry links k l)|].
    left. now exists l.
  - destruct (LinksCanvas.to l) as [t|] eqn:Et; [|destruct He].
    destruct (LinksCanvas.mem links t) eqn:Em; [|destruct He].
    destruct He as [E | []]. injection E as <- <-.
    split; [now apply (mem_of_entry links k l)|]. split; [exact Em|].
    right. now exists l.
Qed.

Lemma reference_edges_join_links_witness :
  LinksCanvas.mem two_links 2%Z = true /\ LinksCanvas.mem two_links 1%Z = true /\
  ((exists l, In (1%Z, l) two_links /\ LinksCanvas.from l = Some 2%Z) \/
   (exists l, In (2%Z, l) two_links /\ LinksCanvas.to l = Some 1%Z)).
Proof.
  apply (reference_edges_join_links two_links 2%Z 1%Z).
  vm_compute. right. right. right. left. reflexivity.
Defined.

(** ** The fitted view *)

Lemma fit_inside (m M pad v : Q) :
  m <= v -> v <= M -> 0.2 <= pad -> m - pad < v /\ v < M + pad.
Proof. intros. split; Lqa.lra. Qed.

Lemma auto_scale_padding_ge r :
  0.2 <= (if Qltb 0 r then pymax 0.2 (r * 0.3) else 0.5).
Proof.
  destruct (Qltb 0 r); [apply pymax_ge_l | Lqa.lra].
Qed.

(** X8: the view that [reset_view] fits to the positions of the links
    canvas shows every link: each stored position lies strictly inside the
    new limits, at least 0.2 away from each of them.  Without any position the
    canvas is left as it is. *)
Theorem reset_view_shows_every_link :
  forall (c : LinksCanvas.Canvas),
    (LinksCanvas.link_positions c = [] -> LinksCanvas.reset_view c = c) /\
    (forall k p,
       In (k, p) (LinksCanvas.link_positions c) ->
       let c' := LinksCanvas.reset_view c in
       inside (LinksCanvas.xlim c') (LinksCanvas.ylim c') p /\
       fst (LinksCanvas.xlim c') + 0.2 <= fst p /\
       fst p + 0.2 <= snd (LinksCanvas.xlim c') /\
       fst (LinksCanvas.ylim c') + 0.2 <= snd p /\
       snd p + 0.2 <= snd (LinksCanvas.ylim c')).
Proof.
  intros c. split.
  - unfold LinksCanvas.reset_view. now intros ->.
  - intros k p Hin. unfold LinksCanvas.reset_view.
    destruct (LinksCanvas.link_positions c) as [|[k0 p0] ps] eqn:E;
      [destruct Hin|].
    cbn [Dict.values map snd].
    cbn [LinksCanvas.with_zoom_level LinksCanvas.with_lims LinksCanvas.xlim
         LinksCanvas.ylim fst].
    assert (Hx : In (fst p) (fst p0 :: map fst (map snd ps))).
    { destruct Hin as [Eq | Hin]; [injection Eq as _ <-; now left|].
      right. apply in_map. now apply (in_map snd _ (k, p)). }
    assert (Hy : In (snd p) (snd p0 :: map snd (map snd ps))).
    { destruct Hin as [Eq | Hin]; [injection Eq as _ <-; now left|].
      right. apply in_map. now apply (in_map snd _ (k, p)). }
    pose proof (proj2 (list_min_is_min _ _) _ Hx) as Hx1.
    pose proof (proj2 (list_max_is_max _ _) _ Hx) as Hx2.
    pose proof (proj2 (list_min_is_min _ _) _ Hy) as Hy1.
    pose proof (proj2 (list_max_is_max _ _) _ Hy) as Hy2.
    repeat match goal with
    | |- context [pymax ?a ?b] =>
        let H := fresh "Hp" in
        pose proof (pymax_ge_l a b) as H;
        let q := fresh "pad" in
        set (q := pymax a b) in *
    end.
    unfold inside. cbn [fst snd]. repeat split; Lqa.lra.
Qed.

Lemma reset_view_shows_every_link_witness :
  inside (LinksCanvas.xlim (LinksCanvas.reset_view links_canvas_diag))
    (LinksCanvas.ylim (LinksCanvas.reset_view links_canvas_diag)) (10, 8).
Proof.
  apply (proj2 (reset_view_shows_every_link links_canvas_diag) 2%Z (10, 8)).
  right. left. reflexivity.
Defined.

(** X9: the view that [auto_scale] fits to the positions of the graph canvas
    shows every node: each stored position lies strictly inside the new
    limits, at least 0.2 away from each of them.  Without any position the
    canvas is left as it is. *)
Theorem auto_scale_shows_every_node :
  forall (c : PlainGraph.Canvas),
    (PlainGraph.pos c = [] -> PlainGraph.auto_scale c = c) /\
    (forall k p,
       In (k, p) (PlainGraph.pos c) ->
       let c' := PlainGraph.auto_scale c in
       inside (PlainGraph.xlim c') (PlainGraph.ylim c') p /\
       fst (PlainGraph.xlim c') + 0.2 <= fst p /\
       fst p + 0.2 <= snd (PlainGraph.xlim c') /\
       fst (PlainGraph.ylim c') + 0.2 <= snd p /\
       snd p + 0.2 <= snd (PlainGraph.ylim c')).
Proof.
  intros c. split.
  - unfold PlainGraph.auto_scale. now intros ->.
  - intros k p Hin. unfold PlainGraph.auto_scale.
    destruct (PlainGraph.pos c) as [|[k0 p0] ps] eqn:E; [destruct Hin|].
    cbn [Dict.values map snd].
    match goal with
    | |- context [PlainGraph.update_artists ?c0 None] =>
        destruct (update_artists_view c0 None) as (-> & -> & _)
    end.
    cbn [PlainGraph.with_zoom_level PlainGraph.with_lims PlainGraph.xlim
         PlainGraph.ylim fst].
    assert (Hx : In (fst p) (fst p0 :: map fst (map snd ps))).
    { destruct Hin as [Eq | Hin]; [injection Eq as _ <-; now left|].
      right. apply in_map. now apply (in_map snd _ (k, p)). }
    assert (Hy : In (snd p) (snd p0 :: map snd (map snd ps))).
    { destruct Hin as [Eq | Hin]; [injection Eq as _ <-; now left|].
      right. apply in_map. now apply (in_map snd _ (k, p)). }
    pose proof (proj2 (list_min_is_min _ _) _ Hx) as Hx1.
    pose proof (proj2 (list_max_is_max _ _) _ Hx) as Hx2.
    pose proof (proj2 (list_min_is_min _ _) _ Hy) as Hy1.
    pose proof (proj2 (list_max_is_max _ _) _ Hy) as Hy2.
    repeat match goal with
    | |- context [if Qltb 0 ?r then pymax 0.2 (?r * 0.3) else 0.5] =>
        let H := fresh "Hp" in
        pose proof (auto_scale_padding_ge r) as H;
        let q := fresh "pad" in
        set (q := if Qltb 0 r then pymax 0.2 (r * 0.3) else 0.5) in *
    end.
    unfold inside. cbn [fst snd]. repeat split; Lqa.lra.
Qed.

Lemma auto_scale_shows_every_node_witness :
  inside (PlainGraph.xlim (PlainGraph.auto_scale graph_canvas_span))
    (PlainGraph.ylim (PlainGraph.auto_scale graph_canvas_span)) (10, 0).
Proof.
  apply (proj2 (auto_scale_shows_every_node graph_canvas_span)
           "B"%string (10, 0)).
  right. left. reflexivity.
Defined.

(** ** Slider zoom and scroll zoom on the links canvas *)

(** X10: [set_zoom] with a level other than zero keeps the centre of the view
    on both axes, divides its width and height by the level and stores the
    level; it touches neither the links nor the positions nor the artists.
    Two calls in a row compound: levels a and then b give the limits of the
    one level a * b. *)
Theorem set_zoom_keeps_centre_and_compounds :
  forall (c : LinksCanvas.Canvas) (a b : Q),
    ~ a == 0 -> ~ b == 0 ->
    let c1 := LinksCanvas.set_zoom c a in
    let c2 := LinksCanvas.set_zoom c1 b in
    (centre (LinksCanvas.xlim c1) == centre (LinksCanvas.xlim c) /\
     centre (LinksCanvas.ylim c1) == centre (LinksCanvas.ylim c) /\
     width (LinksCanvas.xlim c1) == width (LinksCanvas.xlim c) / a /\
     width (LinksCanvas.ylim c1) == width (LinksCanvas.ylim c) / a /\
     LinksCanvas.zoom_level c1 = a) /\
    (LinksCanvas.links c1 = LinksCanvas.links c /\
     LinksCanvas.link_positions c1 = LinksCanvas.link_positions c /\
     LinksCanvas.link_artists c1 = LinksCanvas.link_artists c) /\
    (point_eq (LinksCanvas.xlim c2)
       (LinksCanvas.xlim (LinksCanvas.set_zoom c (a * b))) /\
     point_eq (LinksCanvas.ylim c2)
       (LinksCanvas.ylim (LinksCanvas.set_zoom c (a * b))) /\
     LinksCanvas.zoom_level c2 = b).
Proof.
  intros c a b Ha Hb c1 c2. subst c1 c2.
  unfold LinksCanvas.set_zoom, centre, width, point_eq.
  cbn [LinksCanvas.with_zoom_level LinksCanvas.with_lims LinksCanvas.xlim
       LinksCanvas.ylim LinksCanvas.zoom_level LinksCanvas.links
       LinksCanvas.link_positions LinksCanvas.link_artists fst snd].
  destruct (LinksCanvas.xlim c) as [x0 x1], (LinksCanvas.ylim c) as [y0 y1].
  cbn [fst snd].
  repeat match goal with |- _ /\ _ => split end;
    try reflexivity; field; auto.
Qed.

Lemma set_zoom_keeps_centre_and_compounds_witness :
  centre (LinksCanvas.xlim (LinksCanvas.set_zoom links_canvas_view 2)) ==
  centre (LinksCanvas.xlim links_canvas_view).
Proof.
  refine (proj1 (proj1 (set_zoom_keeps_centre_and_compounds links_canvas_view
                          2 (1 # 2) _ _)));
    intros H; vm_compute in H; discriminate.
Defined.

(** X11: a scroll inside the axes at a data point with two non-zero
    coordinates leaves a view centred on that point, its width and height
    divided by the factor (1.25 up, 0.8 down), and the stored zoom level
    multiplied by it.  A scroll up followed by a scroll down at the same point
    (or the other way round) gives back the width, the height and the zoom
    level of before.  The same holds on the graph canvas. *)
Theorem scroll_centres_and_scales :
  forall (lc : LinksCanvas.Canvas) (gc : PlainGraph.Canvas)
         (b : Button) (px py : Q),
    ~ px == 0 -> ~ py == 0 ->
    let e := scroll_event b (Some px) (Some py) in
    let back := scroll_event (if is_up b then ScrollDown else ScrollUp)
                  (Some px) (Some py) in
    let lc1 := LinksCanvas.on_scroll lc e in
    let lc2 := LinksCanvas.on_scroll lc1 back in
    let gc1 := PlainGraph.on_scroll gc e in
    let gc2 := PlainGraph.on_scroll gc1 back in
    (centre (LinksCanvas.xlim lc1) == px /\
     centre (LinksCanvas.ylim lc1) == py /\
     width (LinksCanvas.xlim lc1) ==
       width (LinksCanvas.xlim lc) / scroll_factor b /\
     width (LinksCanvas.ylim lc1) ==
       width (LinksCanvas.ylim lc) / scroll_factor b /\
     LinksCanvas.zoom_level lc1 = LinksCanvas.zoom_level lc * scroll_factor b) /\
    (width (LinksCanvas.xlim lc2) == width (LinksCanvas.xlim lc) /\
     width (LinksCanvas.ylim lc2) == width (LinksCanvas.ylim lc) /\
     LinksCanvas.zoom_level lc2 == LinksCanvas.zoom_level lc) /\
    (centre (PlainGraph.xlim gc1) == px /\
     centre (PlainGraph.ylim gc1) == py /\
     width (PlainGraph.xlim gc1) ==
       width (PlainGraph.xlim gc) / scroll_factor b /\
     width (PlainGraph.ylim gc1) ==
       width (PlainGraph.ylim gc) / scroll_factor b /\
     PlainGraph.zoom_level gc1 = PlainGraph.zoom_level gc * scroll_factor b) /\
    (width (PlainGraph.xlim gc2) == width (PlainGraph.xlim gc) /\
     width (PlainGraph.ylim gc2) == width (PlainGraph.ylim gc) /\
     PlainGraph.zoom_level gc2 == PlainGraph.zoom_level gc).
Proof.
  intros lc gc b px py Hx Hy e back lc1 lc2 gc1 gc2.
  subst e back lc1 lc2 gc1 gc2.
  unfold LinksCanvas.on_scroll, PlainGraph.on_scroll, scroll_event,
    scroll_factor, centre, width.
  cbn [inaxes negb button xdata ydata or_else].
  repeat match goal with
  | |- context [PlainGraph.update_artists ?c0 None] =>
      let H1 := fresh in let H2 := fresh in let H3 := fresh in
      destruct (update_artists_view c0 None) as (H1 & H2 & H3);
      rewrite ?H1, ?H2, ?H3; clear H1 H2 H3
  end.
  cbn [LinksCanvas.update_artists LinksCanvas.with_link_artists
       LinksCanvas.with_lims LinksCanvas.with_zoom_level LinksCanvas.xlim
       LinksCanvas.ylim LinksCanvas.zoom_level
       PlainGraph.with_lims PlainGraph.with_zoom_level PlainGraph.xlim
       PlainGraph.ylim PlainGraph.zoom_level fst snd].
  rewrite !Qeq_bool_false by assumption.
  destruct (LinksCanvas.xlim lc) as [x0 x1], (LinksCanvas.ylim lc) as [y0 y1].
  destruct (PlainGraph.xlim gc) as [u0 u1], (PlainGraph.ylim gc) as [v0 v1].
  cbn [fst snd].
  destruct b as [| n | |]; cbn [is_up];
    repeat match goal with |- _ /\ _ => split end;
    try reflexivity; field.
Qed.

Lemma scroll_centres_and_scales_witness :
  width (LinksCanvas.xlim
           (LinksCanvas.on_scroll
              (LinksCanvas.on_scroll links_canvas_view
                 (scroll_event ScrollUp (Some 2) (Some 2)))
              (scroll_event ScrollDown (Some 2) (Some 2)))) ==
  width (LinksCanvas.xlim links_canvas_view).
Proof.
  refine (proj1 (proj1 (proj2 (scroll_centres_and_scales links_canvas_view
                                 graph_canvas_view ScrollUp 2 2 _ _))));
    intros H; vm_compute in H; discriminate.
Defined.

(** X12: a scroll whose data coordinate is missing or is exactly 0 is zoomed
    about the middle of the view on that axis: the centre of the range stays
    where it was while its width is divided by the factor.  Outside the axes
    a scroll does nothing. *)
Theorem scroll_without_coordinate_keeps_centre :
  forall (c : LinksCanvas.Canvas) (b : Button) (xd yd : Coord) (e : Event),
    (falsy xd = true ->
     centre (LinksCanvas.xlim (LinksCanvas.on_scroll c (scroll_event b xd yd)))
     == centre (LinksCanvas.xlim c)) /\
    (falsy yd = true ->
     centre (LinksCanvas.ylim (LinksCanvas.on_scroll c (scroll_event b xd yd)))
     == centre (LinksCanvas.ylim c)) /\
    width (LinksCanvas.xlim (LinksCanvas.on_scroll c (scroll_event b xd yd)))
    == width (LinksCanvas.xlim c) / scroll_factor b /\
    width (LinksCanvas.ylim (LinksCanvas.on_scroll c (scroll_event b xd yd)))
    == width (LinksCanvas.ylim c) / scroll_factor b /\
    (inaxes e = false -> LinksCanvas.on_scroll c e = c).
Proof.
  intros c b xd yd e.
  assert (Hor : forall cd d, falsy cd = true -> or_else cd d = d).
  { intros [q|] d; simpl; [|reflexivity]. now intros ->. }
  unfold LinksCanvas.on_scroll, scroll_event, scroll_factor, centre, width.
  cbn [inaxes negb button xdata ydata].
  cbn [LinksCanvas.update_artists LinksCanvas.with_link_artists
       LinksCanvas.with_lims LinksCanvas.with_zoom_level LinksCanvas.xlim
       LinksCanvas.ylim fst snd].
  destruct (LinksCanvas.xlim c) as [x0 x1], (LinksCanvas.ylim c) as [y0 y1].
  cbn [fst snd].
  repeat match goal with |- _ /\ _ => split end.
  - intros F. rewrite (Hor _ _ F). destruct (is_up b); field.
  - intros F. rewrite (Hor _ _ F). destruct (is_up b); field.
  - destruct (is_up b); field.
  - destruct (is_up b); field.
  - now intros ->.
Qed.

Lemma scroll_without_coordinate_keeps_centre_witness :
  centre (LinksCanvas.xlim
            (LinksCanvas.on_scroll links_canvas_view
               (scroll_event ScrollUp (Some 0) (Some 2))))
  == centre (LinksCanvas.xlim links_canvas_view).
Proof.
  apply (proj1 (scroll_without_coordinate_keeps_centre links_canvas_view
                  ScrollUp (Some 0) (Some 2) (scroll_event ScrollUp None None))).
  reflexivity.
Defined.

(** ** Panning *)

(** One motion event while panning: the limits are the snapshot moved by
    the pixel distance from the press, scaled by the size of the current
    view. *)
Lemma pan_step (c : LinksCanvas.Canvas) (sx sy : Z) (ox oy : Lim)
    (px py : Z) (xd yd : Q) :
  panning c sx sy ox oy ->
  (sx <> 0 \/ sy <> 0)%Z ->
  ~ fig_width (LinksCanvas.fig c) == 0 ->
  ~ fig_height (LinksCanvas.fig c) == 0 ->
  let f := LinksCanvas.fig c in
  LinksCanvas.on_motion c (move_event px py xd yd) =
  LinksCanvas.with_lims c
    (fst ox - inject_Z (px - sx) *
       ((snd (LinksCanvas.xlim c) - fst (LinksCanvas.xlim c))
        / (fig_width f * dpi f)),
     snd ox - inject_Z (px - sx) *
       ((snd (LinksCanvas.xlim c) - fst (LinksCanvas.xlim c))
        / (fig_width f * dpi f)))
    (fst oy + inject_Z (py - sy) *
       ((snd (LinksCanvas.ylim c) - fst (LinksCanvas.ylim c))
        / (fig_height f * dpi f)),
     snd oy + inject_Z (py - sy) *
       ((snd (LinksCanvas.ylim c) - fst (LinksCanvas.ylim c))
        / (fig_height f * dpi f))).
Proof.
  intros (Hs & Ho) Hnz Hfw Hfh f.
  assert (Et : LinksCanvas.pan_start_truthy (Some (sx, sy)) = true).
  { simpl. apply negb_true_iff. apply andb_false_iff.
    destruct Hnz as [N | N]; [left | right]; now apply Z.eqb_neq. }
  subst f. unfold LinksCanvas.on_motion, move_event, LinksCanvas.pan.
  cbn [inaxes negb button xdata ydata ev_x ev_y is_button_1 LinksCanvas.is_none
       orb].
  rewrite Hs, Ho, Et. cbn [Z.eqb andb].
  rewrite !Qeq_bool_false by assumption. reflexivity.
Qed.

(** X13: panning does not accumulate.  While the left button is held after a
    press on empty canvas at a pixel other than (0, 0), a motion event inside
    the axes sets the limits to the snapshot taken at the press, moved by the
    pixel distance from the press times the data units per pixel of the view
    as it is at the event: against the motion on x, along it on y.  The new
    view has the size of the snapshot, whatever the size of the view was, and
    the canvas is still panning; neither links nor positions nor artists
    change.  So every later motion event is scaled by the size of the
    snapshot, and its result does not depend on the motion events before
    it. *)
Theorem pan_is_relative_to_the_press :
  forall (c : LinksCanvas.Canvas) (sx sy : Z) (ox oy : Lim)
         (px py : Z) (xd yd : Q),
    panning c sx sy ox oy ->
    (sx <> 0 \/ sy <> 0)%Z ->
    ~ fig_width (LinksCanvas.fig c) == 0 ->
    ~ fig_height (LinksCanvas.fig c) == 0 ->
    let f := LinksCanvas.fig c in
    let c' := LinksCanvas.on_motion c (move_event px py xd yd) in
    let dx := inject_Z (px - sx) *
              (width (LinksCanvas.xlim c) / (fig_width f * dpi f)) in
    let dy := inject_Z (py - sy) *
              (width (LinksCanvas.ylim c) / (fig_height f * dpi f)) in
    (point_eq (LinksCanvas.xlim c') (shifted ox (- dx)) /\
     point_eq (LinksCanvas.ylim c') (shifted oy dy)) /\
    (width (LinksCanvas.xlim c') == width ox /\
     width (LinksCanvas.ylim c') == width oy /\
     panning c' sx sy ox oy) /\
    (LinksCanvas.links c' = LinksCanvas.links c /\
     LinksCanvas.link_positions c' = LinksCanvas.link_positions c /\
     LinksCanvas.link_artists c' = LinksCanvas.link_artists c) /\
    (forall (px2 py2 : Z) (xd2 yd2 : Q),
       let c'' := LinksCanvas.on_motion c' (move_event px2 py2 xd2 yd2) in
       point_eq (LinksCanvas.xlim c'')
         (shifted ox
            (- (inject_Z (px2 - sx) * (width ox / (fig_width f * dpi f)))))
       /\
       point_eq (LinksCanvas.ylim c'')
         (shifted oy
            (inject_Z (py2 - sy) * (width oy / (fig_height f * dpi f))))).
Proof.
  intros c sx sy ox oy px py xd yd Hpan Hnz Hfw Hfh f c' dx dy.
  pose proof (pan_step c sx sy ox oy px py xd yd Hpan Hnz Hfw Hfh) as Ec.
  fold c' in Ec. cbv zeta in Ec. fold f in Ec.
  assert (Hpan' : panning c' sx sy ox oy).
  { rewrite Ec. exact Hpan. }
  assert (Hw : width (LinksCanvas.xlim c') == width ox /\
               width (LinksCanvas.ylim c') == width oy).
  { rewrite Ec. unfold width.
    cbn [LinksCanvas.with_lims LinksCanvas.xlim LinksCanvas.ylim fst snd].
    split; ring. }
  split; [|split; [|split]].
  - rewrite Ec. subst dx dy. unfold point_eq, shifted, width.
    cbn [LinksCanvas.with_lims LinksCanvas.xlim LinksCanvas.ylim fst snd].
    repeat split; ring.
  - destruct Hw as (Hwx & Hwy). split; [exact Hwx|]. split; [exact Hwy|].
    exact Hpan'.
  - rewrite Ec. repeat split.
  - intros px2 py2 xd2 yd2 c''.
    assert (Hf' : LinksCanvas.fig c' = f) by (rewrite Ec; reflexivity).
    pose proof (pan_step c' sx sy ox oy px2 py2 xd2 yd2 Hpan' Hnz) as Ec2.
    rewrite Hf' in Ec2. specialize (Ec2 Hfw Hfh).
    fold c'' in Ec2. cbv zeta in Ec2.
    destruct Hw as (Hwx & Hwy). unfold width in Hwx, Hwy.
    rewrite Ec2. unfold point_eq, shifted, width.
    cbn [LinksCanvas.with_lims LinksCanvas.xlim LinksCanvas.ylim fst snd].
    rewrite Hwx, Hwy. repeat split; ring.
Qed.

Lemma pan_is_relative_to_the_press_witness :
  let c := LinksCanvas.on_press links_canvas_view
             (mkEvent true (MouseButton 1) 100 100 (Some 1) (Some 1)) in
  point_eq
    (LinksCanvas.xlim (LinksCanvas.on_motion c (move_event 200 150 2 (3 # 2))))
    (shifted (0, 10) (- (inject_Z (200 - 100) * (width (0, 10) / (10 * 100))))).
Proof.
  cbv zeta.
  refine (proj1 (proj1 (pan_is_relative_to_the_press
                   (LinksCanvas.on_press links_canvas_view
                      (mkEvent true (MouseButton 1) 100 100 (Some 1) (Some 1)))
                   100 100 (0, 10) (0, 8) 200 150 2 (3 # 2) _ _ _ _))).
  - split; vm_compute; reflexivity.
  - left. lia.
  - intros H; vm_compute in H; discriminate.
  - intros H; vm_compute in H; discriminate.
Defined.

(** ** Press, motion and release *)

Lemma update_artists_same_model c :
  same_model c (LinksCanvas.update_artists c).
Proof.
  unfold same_model. repeat (split; [reflexivity|]).
  intros k. apply update_artists_shape.
Qed.

Lemma on_press_same_model c e : same_model c (LinksCanvas.on_press c e).
Proof.
  unfold LinksCanvas.on_press.
  destruct (negb (inaxes e)); [repeat split|].
  destruct (is_button_1 (button e)); [|repeat split].
  destruct (LinksCanvas.truthy _); [|repeat split].
  destruct (update_artists_same_model
              (LinksCanvas.with_selected_link c
                 (LinksCanvas._get_link_at_position c (xdata e, ydata e))
                 true)) as (H1 & H2 & H3 & H4 & H5 & H6).
  repeat split; assumption.
Qed.

(** X14: a press on an idle links canvas has one of three outcomes.  Outside
    the axes, or with another button than the left one, nothing changes.  On
    a link (the hit test answers a non-zero id) the canvas is dragging that
    link and is not panning.  Anywhere else the canvas is panning, with the
    pixel of the press and a snapshot of the limits, and is not dragging.
    In no case does the press change links, positions, view or shapes. *)
Theorem press_starts_drag_or_pan :
  forall (c : LinksCanvas.Canvas) (e : Event),
    idle c ->
    let c' := LinksCanvas.on_press c e in
    let hit := LinksCanvas._get_link_at_position c (xdata e, ydata e) in
    same_model c c' /\
    LinksCanvas.hovered_link c' = LinksCanvas.hovered_link c /\
    ((inaxes e = false \/ is_button_1 (button e) = false) /\ idle c'
     \/
     (inaxes e = true /\ is_button_1 (button e) = true /\
      LinksCanvas.truthy hit = true /\
      LinksCanvas.dragging c' = true /\ LinksCanvas.selected_link c' = hit /\
      LinksCanvas.pan_start c' = None /\ LinksCanvas.pan_origin c' = None)
     \/
     (inaxes e = true /\ is_button_1 (button e) = true /\
      LinksCanvas.truthy hit = false /\
      LinksCanvas.dragging c' = false /\ LinksCanvas.selected_link c' = None /\
      LinksCanvas.pan_start c' = Some (ev_x e, ev_y e) /\
      LinksCanvas.pan_origin c' =
        Some (LinksCanvas.xlim c, LinksCanvas.ylim c))).
Proof.
  intros c e (Hd & Hsel & Hps & Hpo) c' hit. subst c' hit.
  unfold LinksCanvas.on_press.
  destruct (inaxes e); cbn [negb].
  - destruct (is_button_1 (button e)).
    + destruct (LinksCanvas.truthy _) eqn:Et.
      * split; [|split; [reflexivity|]].
        { destruct (update_artists_same_model
                      (LinksCanvas.with_selected_link c
                         (LinksCanvas._get_link_at_position c (xdata e, ydata e))
                         true)) as (H1 & H2 & H3 & H4 & H5 & H6).
          repeat split; assumption. }
        right. left. repeat split; assumption.
      * split; [|split; [reflexivity|]].
        { repeat split. }
        right. right. repeat split; assumption.
    + split; [repeat split|]. split; [reflexivity|].
      left. split; [now right|]. repeat split; assumption.
  - split; [repeat split|]. split; [reflexivity|].
    left. split; [now left|]. repeat split; assumption.
Qed.

Lemma press_starts_drag_or_pan_witness :
  same_model canvas_chain (LinksCanvas.on_press canvas_chain (mouse_at (1, 1))).
Proof.
  apply (press_starts_drag_or_pan canvas_chain (mouse_at (1, 1))).
  repeat split.
Defined.

(** X15: a release of the left button always ends in the idle state, and a
    release of another button changes nothing.  A click, that is a press on
    an idle canvas followed by a release of the left button with no motion
    in between, leaves the canvas idle with links, positions, view and shapes
    as they were, wherever the press was. *)
Theorem release_returns_to_idle :
  forall (c : LinksCanvas.Canvas) (press release : Event),
    (is_button_1 (button release) = true ->
     idle (LinksCanvas.on_release c release) /\
     same_model c (LinksCanvas.on_release c release)) /\
    (is_button_1 (button release) = false ->
     LinksCanvas.on_release c release = c) /\
    (idle c -> is_button_1 (button release) = true ->
     let c' := LinksCanvas.on_release (LinksCanvas.on_press c press) release in
     idle c' /\ same_model c c').
Proof.
  intros c press release.
  assert (R : forall c0, is_button_1 (button release) = true ->
                idle (LinksCanvas.on_release c0 release) /\
                same_model c0 (LinksCanvas.on_release c0 release)).
  { intros c0 Hb. unfold LinksCanvas.on_release. rewrite Hb. split.
    - repeat split.
    - destruct (update_artists_same_model
                  (LinksCanvas.with_pan
                     (LinksCanvas.with_selected_link c0 None false) None None))
        as (H1 & H2 & H3 & H4 & H5 & H6).
      repeat split; assumption. }
  split; [apply R|]. split.
  - intros Hb. unfold LinksCanvas.on_release. now rewrite Hb.
  - intros Hidle Hb c'. subst c'.
    destruct (R (LinksCanvas.on_press c press) Hb) as (Hi & Hm).
    split; [exact Hi|].
    destruct (on_press_same_model c press) as (P1 & P2 & P3 & P4 & P5 & P6).
    destruct Hm as (M1 & M2 & M3 & M4 & M5 & M6).
    repeat split; try congruence.
Qed.

Lemma release_returns_to_idle_witness :
  idle (LinksCanvas.on_release
          (LinksCanvas.on_press canvas_chain (mouse_at (1, 1)))
          (mouse_at (1, 1))).
Proof.
  refine (proj1 (proj2 (proj2 (release_returns_to_idle canvas_chain
                                 (mouse_at (1, 1)) (mouse_at (1, 1)))) _ _)).
  - repeat split.
  - reflexivity.
Defined.

Lemma update_link_artist_fields c sel c' :
  LinksCanvas._update_link_artist c sel = Some c' ->
  LinksCanvas.links c' = LinksCanvas.links c /\
  LinksCanvas.link_positions c' = LinksCanvas.link_positions c /\
  LinksCanvas.zoom_level c' = LinksCanvas.zoom_level c /\
  LinksCanvas.hovered_link c' = LinksCanvas.hovered_link c /\
  same_mode c c'.
Proof.
  unfold LinksCanvas._update_link_artist, same_mode. intros H.
  destruct (negb _); [injection H as <-; repeat split|].
  destruct (LinksCanvas.get (LinksCanvas.links c) sel) as [l|]; [|discriminate].
  destruct (_ && _).
  - destruct (LinksCanvas.get (LinksCanvas.link_positions c) sel);
      [|discriminate].
    injection H as <-. repeat split.
  - destruct (LinksCanvas.from l), (LinksCanvas.to l);
      try (destruct (LinksCanvas.get (LinksCanvas.link_positions c) sel);
           [|discriminate]);
      injection H as <-; repeat split.
Qed.

Lemma drag_fields c e :
  LinksCanvas.links (LinksCanvas.drag c e) = LinksCanvas.links c /\
  LinksCanvas.zoom_level (LinksCanvas.drag c e) = LinksCanvas.zoom_level c /\
  same_mode c (LinksCanvas.drag c e) /\
  forall k, LinksCanvas.selected_link c <> Some k ->
    LinksCanvas.get (LinksCanvas.link_positions (LinksCanvas.drag c e)) k =
    LinksCanvas.get (LinksCanvas.link_positions c) k.
Proof.
  unfold LinksCanvas.drag, same_mode.
  destruct (LinksCanvas.selected_link c) as [sel|] eqn:Es;
    [|conjuncts; solve [reflexivity | assumption]].
  destruct (xdata e) as [xd|];
    [|conjuncts; solve [reflexivity | assumption]].
  destruct (ydata e) as [yd|];
    [|conjuncts; solve [reflexivity | assumption]].
  destruct (_ && _); [|conjuncts; solve [reflexivity | assumption]].
  set (c1 := LinksCanvas.with_link_positions c _).
  assert (Hk : forall k, Some sel <> Some k ->
            LinksCanvas.get (LinksCanvas.link_positions c1) k =
            LinksCanvas.get (LinksCanvas.link_positions c) k).
  { intros k N. subst c1. cbn [LinksCanvas.link_positions
      LinksCanvas.with_link_positions].
    apply get_set_other. congruence. }
  destruct (LinksCanvas._update_link_artist c1 sel) as [c2|] eqn:E.
  - destruct (update_link_artist_fields _ _ _ E)
      as (H1 & H2 & H3 & _ & H4 & H5 & H6 & H7).
    conjuncts; try assumption.
    + rewrite H5. exact Es.
    + intros k N. rewrite H2. now apply Hk.
  - conjuncts; try reflexivity; [exact Es | exact Hk].
Qed.

(** X16: a motion event never changes the links, the zoom level or the
    interaction mode, and it moves and redraws no link but the selected one.
    When the canvas is dragging a link and is not panning, a motion inside the
    axes stores the data point of the cursor as the position of that link.
    Outside the axes the hover is dropped and nothing else changes. *)
Theorem motion_moves_only_the_selected_link :
  forall (c : LinksCanvas.Canvas) (e : Event),
    let c' := LinksCanvas.on_motion c e in
    (LinksCanvas.links c' = LinksCanvas.links c /\
     LinksCanvas.zoom_level c' = LinksCanvas.zoom_level c /\
     same_mode c c') /\
    (forall k, LinksCanvas.selected_link c <> Some k ->
       LinksCanvas.get (LinksCanvas.link_positions c') k =
       LinksCanvas.get (LinksCanvas.link_positions c) k /\
       shape_of c' k = shape_of c k) /\
    (forall sel xd yd,
       inaxes e = true ->
       LinksCanvas.pan_start c = None ->
       LinksCanvas.dragging c = true ->
       LinksCanvas.selected_link c = Some sel -> sel <> 0%Z ->
       xdata e = Some xd -> ydata e = Some yd ->
       LinksCanvas.get (LinksCanvas.link_positions c') sel = Some (xd, yd)) /\
    (inaxes e = false ->
     same_model c c' /\ LinksCanvas.truthy (LinksCanvas.hovered_link c') = false).
Proof.
  intros c e c'. subst c'.
  split; [|split; [|split]].
  - unfold LinksCanvas.on_motion.
    destruct (negb (inaxes e)).
    { destruct (LinksCanvas.truthy _); repeat split. }
    destruct (_ && _).
    { unfold LinksCanvas.pan. destruct (_ || _); [repeat split|].
      destruct (LinksCanvas.pan_start c) as [[sx sy]|] eqn:Es; [|repeat split; congruence].
      destruct (LinksCanvas.pan_origin c) as [[ox oy]|] eqn:Eo; [|repeat split; congruence].
      destruct (_ || _); repeat split; cbn; congruence. }
    destruct (negb (Zopt_eqb _ _)).
    + destruct (drag_fields
                  (LinksCanvas.update_artists
                     (LinksCanvas.with_hovered_link c
                        (LinksCanvas._get_link_at_position c
                           (xdata e, ydata e)))) e)
        as (H1 & H2 & (H3 & H4 & H5 & H6) & _).
      repeat split; assumption.
    + destruct (drag_fields c e) as (H1 & H2 & H3 & _).
      repeat split; solve [assumption | apply H3].
  - intros k N. split; [|now apply on_motion_shape_other].
    unfold LinksCanvas.on_motion.
    destruct (negb (inaxes e)).
    { destruct (LinksCanvas.truthy _); reflexivity. }
    destruct (_ && _).
    { unfold LinksCanvas.pan. destruct (_ || _); [reflexivity|].
      destruct (LinksCanvas.pan_start c) as [[sx sy]|]; [|reflexivity].
      destruct (LinksCanvas.pan_origin c) as [[ox oy]|]; [|reflexivity].
      destruct (_ || _); reflexivity. }
    destruct (negb (Zopt_eqb _ _)).
    + destruct (drag_fields
                  (LinksCanvas.update_artists
                     (LinksCanvas.with_hovered_link c
                        (LinksCanvas._get_link_at_position c
                           (xdata e, ydata e)))) e)
        as (_ & _ & _ & H).
      now rewrite H.
    + destruct (drag_fields c e) as (_ & _ & _ & H). now apply H.
  - intros sel xd yd Hin Hps Hd Hsel Hnz Hx Hy.
    unfold LinksCanvas.on_motion. rewrite Hin, Hps. cbn [negb
      LinksCanvas.pan_start_truthy andb].
    assert (D : forall c0,
              LinksCanvas.dragging c0 = true ->
              LinksCanvas.selected_link c0 = Some sel ->
              LinksCanvas.get
                (LinksCanvas.link_positions (LinksCanvas.drag c0 e)) sel =
              Some (xd, yd)).
    { intros c0 Hd0 Hs0. unfold LinksCanvas.drag.
      rewrite Hs0, Hx, Hy, Hd0. cbn [LinksCanvas.truthy andb].
      replace (negb (Z.eqb sel 0)) with true
        by (symmetry; apply negb_true_iff; now apply Z.eqb_neq).
      destruct (LinksCanvas._update_link_artist _ sel) as [c2|] eqn:E.
      - destruct (update_link_artist_fields _ _ _ E) as (_ & -> & _).
        apply get_set_same.
      - apply get_set_same. }
    destruct (negb (Zopt_eqb _ _)); apply D; assumption.
  - intros Hout. unfold LinksCanvas.on_motion. rewrite Hout. cbn [negb].
    destruct (LinksCanvas.truthy (LinksCanvas.hovered_link c)) eqn:Et.
    + split; [|reflexivity].
      destruct (update_artists_same_model (LinksCanvas.with_hovered_link c None))
        as (H1 & H2 & H3 & H4 & H5 & H6).
      repeat split; assumption.
    + split; [repeat split | exact Et].
Qed.

Lemma motion_moves_only_the_selected_link_witness :
  LinksCanvas.get
    (LinksCanvas.link_positions
       (LinksCanvas.on_motion
          (LinksCanvas.on_press canvas_chain (mouse_at (1, 1)))
          (mouse_at (3 # 2, 11 # 10)))) 1%Z = Some (3 # 2, 11 # 10).
Proof.
  refine (proj1 (proj2 (proj2 (motion_moves_only_the_selected_link
                                 (LinksCanvas.on_press canvas_chain
                                    (mouse_at (1, 1)))
                                 (mouse_at (3 # 2, 11 # 10)))))
            1%Z (3 # 2) (11 # 10) _ _ _ _ _ _ _);
    try (vm_compute; reflexivity).
  discriminate.
Defined.

(** ** Dictionaries *)

Section DictFacts.
Context {K V : Type}.
Variable eqb : K -> K -> bool.
Hypothesis eqb_eq : forall a b, eqb a b = true <-> a = b.

Lemma eqb_refl' a : eqb a a = true.
Proof. now apply eqb_eq. Qed.

Lemma eqb_neq' a b : a <> b -> eqb a b = false.
Proof.
  intros N. destruct (eqb a b) eqn:E; [|reflexivity].
  apply eqb_eq in E. contradiction.
Qed.

Lemma dict_get_set_same (d : Dict.t K V) k v :
  Dict.get eqb (Dict.set eqb d k v) k = Some v.
Proof.
  induction d as [|[k' v'] d IH]; simpl.
  - now rewrite eqb_refl'.
  - destruct (eqb k k') eqn:E; simpl; rewrite E; [reflexivity | exact IH].
Qed.

Lemma dict_get_set_other (d : Dict.t K V) k k' v :
  k <> k' -> Dict.get eqb (Dict.set eqb d k v) k' = Dict.get eqb d k'.
Proof.
  intros N. induction d as [|[k0 v0] d IH]; simpl.
  - rewrite eqb_neq'; [reflexivity | congruence].
  - destruct (eqb k k0) eqn:E; simpl.
    + apply eqb_eq in E. subst k0.
      rewrite eqb_neq'; [|congruence].
      symmetry. reflexivity.
    + destruct (eqb k' k0); [reflexivity | exact IH].
Qed.

Lemma dict_keys_set (d : Dict.t K V) k v :
  Dict.keys (Dict.set eqb d k v) =
  if Dict.mem eqb d k then Dict.keys d else Dict.keys d ++ [k].
Proof.
  unfold Dict.mem, Dict.keys. induction d as [|[k0 v0] d IH]; simpl.
  - reflexivity.
  - destruct (eqb k k0) eqn:E; simpl; [reflexivity|].
    rewrite IH. destruct (Dict.get eqb d k); reflexivity.
Qed.

End DictFacts.

Lemma edge_eqb_eq (e1 e2 : PlainGraph.Edge) :
  PlainGraph.edge_eqb e1 e2 = true <-> e1 = e2.
Proof.
  destruct e1 as [a b], e2 as [a' b']. unfold PlainGraph.edge_eqb. simpl.
  rewrite andb_true_iff, !String.eqb_eq. split.
  - intros [-> ->]. reflexivity.
  - intros E. injection E as -> ->. auto.
Qed.

(** ** The graph that a plain CSV file gives *)

Lemma existsb_string l n :
  existsb (String.eqb n) l = true <-> In n l.
Proof.
  rewrite existsb_exists. split.
  - intros (x & Hin & E). apply String.eqb_eq in E. now subst.
  - intros Hin. exists n. split; [exact Hin | apply String.eqb_refl].
Qed.

Lemma existsb_edge l e :
  existsb (PlainGraph.edge_eqb e) l = true <-> In e l.
Proof.
  rewrite existsb_exists. split.
  - intros (x & Hin & E). apply edge_eqb_eq in E. now subst.
  - intros Hin. exists e. split; [exact Hin | now apply edge_eqb_eq].
Qed.

Lemma add_node_in l n m :
  In m (PlainGraph.add_node l n) <-> In m l \/ m = n.
Proof.
  unfold PlainGraph.add_node.
  destruct (existsb (String.eqb n) l) eqn:E.
  - apply existsb_string in E. split; [auto|]. intros [H | ->]; assumption.
  - rewrite in_app_iff. simpl. split; intros [H | H]; auto.
    + destruct H as [<- | []]. now right.
Qed.

Lemma add_node_nodup l n : NoDup l -> NoDup (PlainGraph.add_node l n).
Proof.
  intros H. unfold PlainGraph.add_node.
  destruct (existsb (String.eqb n) l) eqn:E; [exact H|].
  assert (N : ~ In n l).
  { intros Hin. apply existsb_string in Hin. congruence. }
  clear E. induction H as [|x l Hx Hl IH]; simpl.
  - constructor; [intros [] | constructor].
  - constructor.
    + rewrite in_app_iff. intros [Hin | [<- | []]]; [contradiction|].
      apply N. now left.
    + apply IH. intros Hin. apply N. now right.
Qed.

Lemma app_one_nodup {A : Type} (l : list A) x :
  NoDup l -> ~ In x l -> NoDup (l ++ [x]).
Proof.
  intros H N. induction H as [|y l Hy Hl IH]; simpl.
  - constructor; [intros [] | constructor].
  - constructor.
    + rewrite in_app_iff. intros [Hin | [<- | []]]; [contradiction|].
      apply N. now left.
    + apply IH. intros Hin. apply N. now right.
Qed.

Lemma read_row_well_formed c row :
  well_formed (PlainGraph.graph c) (PlainGraph.node_labels c) ->
  well_formed (PlainGraph.graph (PlainGraph.read_row c row))
    (PlainGraph.node_labels (PlainGraph.read_row c row)).
Proof.
  intros W. pose proof W as (Hn & He & Hl & Hj). unfold PlainGraph.read_row.
  destruct row as [|r0 [|r1 row]]; try exact W.
  set (a := PlainGraph.strip r0). set (b := PlainGraph.strip r1).
  destruct (String.eqb a "") eqn:Ea; [exact W|].
  destruct (String.eqb b "") eqn:Eb; [exact W|].
  apply String.eqb_neq in Ea, Eb. cbn [orb].
  cbn [PlainGraph.graph PlainGraph.node_labels PlainGraph.with_model].
  unfold well_formed, PlainGraph.add_edge.
  cbn [PlainGraph.nodes PlainGraph.edges].
  split; [now apply add_node_nodup, add_node_nodup|].
  split.
  { destruct (existsb (PlainGraph.edge_eqb (a, b)) (PlainGraph.edges _)) eqn:E;
      [exact He|].
    apply app_one_nodup; [exact He|].
    intros Hin. apply existsb_edge in Hin. congruence. }
  split.
  - intros n Hin. apply add_node_in in Hin. rewrite add_node_in in Hin.
    unfold PlainGraph.get, PlainGraph.set.
    destruct (string_dec n b) as [-> | Nb].
    { split; [exact Eb|]. apply dict_get_set_same. apply String.eqb_eq. }
    rewrite (dict_get_set_other _ String.eqb_eq) by congruence.
    destruct (string_dec n a) as [-> | Na].
    { split; [exact Ea|]. apply dict_get_set_same. apply String.eqb_eq. }
    rewrite (dict_get_set_other _ String.eqb_eq) by congruence.
    destruct Hin as [[Hin | ->] | ->]; try contradiction.
    now apply Hl.
  - intros x y Hin. rewrite !add_node_in.
    assert (Hc : In (x, y) (PlainGraph.edges (PlainGraph.graph c)) \/
                 (x, y) = (a, b)).
    { destruct (existsb _ _); [now left|].
      apply in_app_iff in Hin. destruct Hin as [H | [H | []]]; auto. }
    destruct Hc as [Hc | Hc].
    + destruct (Hj x y Hc). auto.
    + injection Hc as -> ->. auto.
Qed.

Lemma read_rows_well_formed data : forall c,
  well_formed (PlainGraph.graph c) (PlainGraph.node_labels c) ->
  well_formed (PlainGraph.graph (fold_left PlainGraph.read_row data c))
    (PlainGraph.node_labels (fold_left PlainGraph.read_row data c)).
Proof.
  induction data as [|row data IH]; intros c H; simpl; [exact H|].
  apply IH, read_row_well_formed, H.
Qed.

Lemma strip_empty_iff s :
  String.eqb (PlainGraph.strip s) "" = negb (Py.nonblank s).
Proof.
  unfold PlainGraph.strip, Py.nonblank.
  destruct (Py.strip (list_ascii_of_string s)); reflexivity.
Qed.

Lemma read_row_edge_row c row :
  (edge_row row = false -> PlainGraph.read_row c row = c) /\
  (edge_row row = true ->
   PlainGraph.nodes (PlainGraph.graph (PlainGraph.read_row c row)) <> []).
Proof.
  unfold PlainGraph.read_row, edge_row.
  destruct row as [|r0 [|r1 row]]; try (split; [reflexivity | discriminate]).
  rewrite !strip_empty_iff.
  destruct (Py.nonblank r0), (Py.nonblank r1); simpl;
    split; try reflexivity; try discriminate.
  intros _. apply add_node_not_nil.
Qed.

Lemma read_rows_nodes_iff data : forall c,
  PlainGraph.nodes (PlainGraph.graph c) = [] ->
  (PlainGraph.nodes
     (PlainGraph.graph (fold_left PlainGraph.read_row data c)) <> [] <->
   existsb edge_row data = true).
Proof.
  induction data as [|row data IH]; intros c Hc; simpl.
  - split; [intros H; contradiction | discriminate].
  - destruct (read_row_edge_row c row) as (Hf & Ht).
    destruct (edge_row row) eqn:E; simpl.
    + split; [reflexivity|]. intros _.
      apply read_rows_keep_nodes. now apply Ht.
    + rewrite Hf by reflexivity. now apply IH.
Qed.

Lemma graph_update_artists c n :
  PlainGraph.graph (PlainGraph.update_artists c n) = PlainGraph.graph c /\
  PlainGraph.node_labels (PlainGraph.update_artists c n) =
    PlainGraph.node_labels c /\
  PlainGraph.pos (PlainGraph.update_artists c n) = PlainGraph.pos c.
Proof.
  unfold PlainGraph.update_artists.
  destruct (PlainGraph.nodes (PlainGraph.graph c)); auto.
Qed.

Lemma graph_auto_scale c :
  PlainGraph.graph (PlainGraph.auto_scale c) = PlainGraph.graph c /\
  PlainGraph.node_labels (PlainGraph.auto_scale c) = PlainGraph.node_labels c /\
  PlainGraph.pos (PlainGraph.auto_scale c) = PlainGraph.pos c.
Proof.
  unfold PlainGraph.auto_scale.
  destruct (Dict.values (PlainGraph.pos c)); [auto|].
  match goal with
  | |- context [PlainGraph.update_artists ?c0 None] =>
      destruct (graph_update_artists c0 None) as (-> & -> & ->)
  end.
  auto.
Qed.

Lemma graph_apply_layout layout c t :
  PlainGraph.graph (PlainGraph.apply_layout layout c t) = PlainGraph.graph c /\
  PlainGraph.node_labels (PlainGraph.apply_layout layout c t) =
    PlainGraph.node_labels c.
Proof.
  unfold PlainGraph.apply_layout.
  destruct (PlainGraph.nodes (PlainGraph.graph c)); [auto|].
  match goal with
  | |- context [PlainGraph.update_artists ?c0 None] =>
      destruct (graph_update_artists c0 None) as (-> & -> & _)
  end.
  cbn [PlainGraph.create_artists PlainGraph.with_artists PlainGraph.graph
       PlainGraph.node_labels].
  match goal with
  | |- context [PlainGraph.auto_scale ?c0] =>
      destruct (graph_auto_scale c0) as (-> & -> & _)
  end.
  repeat match goal with
  | |- context [if ?b then _ else _] => destruct b
  end; auto.
Qed.

Lemma graph_of_load layout c header data :
  fst (PlainGraph.load_graph_from_csv layout c (Rows (header :: data))) = true ->
  let c0 := PlainGraph.clear_artists
              (PlainGraph.with_model c PlainGraph.empty_graph [] []) in
  let c' := snd (PlainGraph.load_graph_from_csv layout c
                   (Rows (header :: data))) in
  PlainGraph.graph c' = PlainGraph.graph (fold_left PlainGraph.read_row data c0)
  /\
  PlainGraph.node_labels c' =
    PlainGraph.node_labels (fold_left PlainGraph.read_row data c0).
Proof.
  unfold PlainGraph.load_graph_from_csv.
  destruct (List.length header <? 2)%nat; [discriminate|].
  set (c0 := PlainGraph.clear_artists _).
  set (c1 := fold_left PlainGraph.read_row data c0).
  destruct (PlainGraph.nodes (PlainGraph.graph c1)); [discriminate|].
  intros _. cbn [snd].
  match goal with
  | |- context [PlainGraph.update_artists ?x None] =>
      destruct (graph_update_artists x None) as (-> & -> & _)
  end.
  cbn [PlainGraph.create_artists PlainGraph.with_artists PlainGraph.graph
       PlainGraph.node_labels].
  match goal with
  | |- context [PlainGraph.auto_scale ?x] =>
      destruct (graph_auto_scale x) as (-> & -> & _)
  end.
  apply graph_apply_layout.
Qed.

(** X17: the graph that a successful load of a plain CSV file leaves is well
    formed: no node and no edge occurs twice, no node has an empty name,
    every edge joins two nodes of the graph, and every node is labelled with
    its own name. *)
Theorem loaded_graph_is_well_formed :
  forall layout (c : PlainGraph.Canvas) (file : CsvFile),
    fst (PlainGraph.load_graph_from_csv layout c file) = true ->
    let c' := snd (PlainGraph.load_graph_from_csv layout c file) in
    well_formed (PlainGraph.graph c') (PlainGraph.node_labels c') /\
    PlainGraph.nodes (PlainGraph.graph c') <> [].
Proof.
  intros layout c file Hok c'. subst c'.
  destruct file as [|[|header data]|[|header data]]; try discriminate;
    [|revert Hok; unfold PlainGraph.load_graph_from_csv;
      destruct (List.length header <? 2)%nat; discriminate].
  destruct (graph_of_load layout c header data Hok) as (Eg & El).
  rewrite Eg, El. split.
  - apply read_rows_well_formed. simpl.
    repeat split; try constructor; intros; contradiction.
  - revert Hok. unfold PlainGraph.load_graph_from_csv.
    destruct (List.length header <? 2)%nat; [discriminate|].
    destruct (PlainGraph.nodes (PlainGraph.graph (fold_left _ data _)));
      [discriminate | intros _; discriminate].
Qed.

Lemma loaded_graph_is_well_formed_witness :
  well_formed (PlainGraph.graph graph_canvas_edge)
    (PlainGraph.node_labels graph_canvas_edge).
Proof.
  apply (loaded_graph_is_well_formed (row_layout 1) graph_canvas_init csv_edge).
  vm_compute. reflexivity.
Defined.

(** X18: loading a plain CSV file succeeds exactly when the file can be read
    to its end, its first row has two columns at least and one of the rows
    after it has two columns at least whose first two are not blank; a file
    that cannot be opened or whose reader raises part-way is rejected. *)
Theorem load_graph_succeeds_iff_edge_row :
  forall layout (c : PlainGraph.Canvas) (header : list string)
         (data : list (list string)),
    (fst (PlainGraph.load_graph_from_csv layout c (Rows (header :: data)))
     = true <->
     (2 <= List.length header)%nat /\ existsb edge_row data = true) /\
    fst (PlainGraph.load_graph_from_csv layout c Unreadable) = false /\
    fst (PlainGraph.load_graph_from_csv layout c (Rows [])) = false /\
    fst (PlainGraph.load_graph_from_csv layout c (Truncated (header :: data)))
    = false /\
    fst (PlainGraph.load_graph_from_csv layout c (Truncated [])) = false.
Proof.
  intros layout c header data.
  split; [|split; [reflexivity|split; [reflexivity|split; [|reflexivity]]]];
    [|unfold PlainGraph.load_graph_from_csv;
      destruct (List.length header <? 2)%nat; reflexivity].
  unfold PlainGraph.load_graph_from_csv.
  set (c0 := PlainGraph.clear_artists _).
  pose proof (read_rows_nodes_iff data c0 eq_refl) as N.
  destruct (List.length header <? 2)%nat eqn:El.
  - apply Nat.ltb_lt in El. split; [discriminate | intros [H _]; lia].
  - apply Nat.ltb_ge in El.
    destruct (PlainGraph.nodes
                (PlainGraph.graph (fold_left PlainGraph.read_row data c0))).
    + split; [discriminate|]. intros [_ H]. apply N in H. contradiction.
    + split; [|reflexivity]. intros _. split; [exact El|].
      apply N. discriminate.
Qed.

(** ** Full and partial updates of the graph canvas *)

Section UpdateLoop.
Context {K V : Type}.
Variable eqb : K -> K -> bool.
Hypothesis eqb_eq : forall a b, eqb a b = true <-> a = b.
Variable val : K -> V.

Lemma key_eq_dec (a b : K) : {a = b} + {a <> b}.
Proof.
  destruct (eqb a b) eqn:E.
  - left. now apply eqb_eq.
  - right. intros ->. rewrite (eqb_refl' eqb eqb_eq) in E. discriminate.
Qed.

Lemma touch_get d k k' :
  Dict.get eqb (touch eqb val d k) k' =
  if key_eq_dec k k' then
    match Dict.get eqb d k' with Some _ => Some (val k') | None => None end
  else Dict.get eqb d k'.
Proof.
  unfold touch, Dict.mem. destruct (key_eq_dec k k') as [<- | N].
  - destruct (Dict.get eqb d k) eqn:E; [|now rewrite E].
    apply (dict_get_set_same eqb eqb_eq).
  - destruct (Dict.get eqb d k); [|reflexivity].
    now apply (dict_get_set_other eqb eqb_eq).
Qed.

Lemma touch_loop_get l : forall d k,
  Dict.get eqb (fold_left (touch eqb val) l d) k =
  if in_dec key_eq_dec k l then
    match Dict.get eqb d k with Some _ => Some (val k) | None => None end
  else Dict.get eqb d k.
Proof.
  induction l as [|k0 l IH]; intros d k; simpl; [reflexivity|].
  rewrite IH, touch_get.
  destruct (key_eq_dec k0 k) as [-> | N].
  - destruct (in_dec key_eq_dec k l); destruct (Dict.get eqb d k); reflexivity.
  - destruct (in_dec key_eq_dec k l); [reflexivity|].
    reflexivity.
Qed.

(** The loops of [create_artists]: every key of the list gets an artist. *)
Lemma create_loop_get (v0 : V) l : forall d k,
  In k l \/ Dict.get eqb d k = Some v0 ->
  Dict.get eqb (fold_left (fun d k => Dict.set eqb d k v0) l d) k = Some v0.
Proof.
  induction l as [|k0 l IH]; intros d k H; simpl.
  - destruct H as [[] | H]. exact H.
  - apply IH. destruct (key_eq_dec k0 k) as [-> | N].
    + right. apply (dict_get_set_same eqb eqb_eq).
    + destruct H as [[E | Hin] | H]; [contradiction | now left |].
      right. now rewrite (dict_get_set_other eqb eqb_eq).
Qed.

End UpdateLoop.

Lemma update_artists_unfold c changed n0 ns :
  PlainGraph.nodes (PlainGraph.graph c) = n0 :: ns ->
  PlainGraph.update_artists c changed =
  PlainGraph.with_artists c
    (fold_left (touch String.eqb (node_artist_of c))
       (match changed with
        | Some n => if PlainGraph.truthy changed then [n]
                    else PlainGraph.nodes (PlainGraph.graph c)
        | None => PlainGraph.nodes (PlainGraph.graph c)
        end)
       (PlainGraph.node_artists c))
    (fold_left (touch PlainGraph.edge_eqb (edge_artist_of c))
       (match changed with
        | Some n =>
            if PlainGraph.truthy changed
            then PlainGraph.in_edges (PlainGraph.graph c) n
                 ++ PlainGraph.out_edges (PlainGraph.graph c) n
            else PlainGraph.edges (PlainGraph.graph c)
        | None => PlainGraph.edges (PlainGraph.graph c)
        end)
       (PlainGraph.edge_artists c)).
Proof.
  intros E. unfold PlainGraph.update_artists. rewrite E. reflexivity.
Qed.

(** X19: a full update after [create_artists] places every artist of the
    graph canvas: the circle of every node is centred on the stored position
    of the node (the origin when it has none) with the node radius of the
    current view, and the arrow of every edge runs from the position of its
    source to the position of its target. *)
Theorem full_update_places_every_artist :
  forall (c : PlainGraph.Canvas),
    PlainGraph.nodes (PlainGraph.graph c) <> [] ->
    let c' := PlainGraph.update_artists (PlainGraph.create_artists c) None in
    (forall n, In n (PlainGraph.nodes (PlainGraph.graph c)) ->
       PlainGraph.get (PlainGraph.node_artists c') n =
       Some (node_artist_of c n)) /\
    (forall e, In e (PlainGraph.edges (PlainGraph.graph c)) ->
       edge_artist c' e = Some (edge_artist_of c e)) /\
    PlainGraph.graph c' = PlainGraph.graph c /\
    PlainGraph.pos c' = PlainGraph.pos c.
Proof.
  intros c Hne c'. subst c'.
  destruct (PlainGraph.nodes (PlainGraph.graph c)) as [|n0 ns] eqn:En;
    [contradiction|].
  rewrite (update_artists_unfold (PlainGraph.create_artists c) None n0 ns)
    by exact En.
  cbn [PlainGraph.with_artists PlainGraph.node_artists PlainGraph.edge_artists
       PlainGraph.graph PlainGraph.pos].
  unfold edge_artist, PlainGraph.get.
  cbn [PlainGraph.with_artists PlainGraph.node_artists PlainGraph.edge_artists
       PlainGraph.graph PlainGraph.pos PlainGraph.create_artists].
  rewrite En.
  split; [|split; [|split; reflexivity]].
  - intros n Hin.
    rewrite (touch_loop_get String.eqb String.eqb_eq).
    destruct (in_dec _ n (n0 :: ns)) as [_ | N]; [|contradiction].
    unfold PlainGraph.set.
    rewrite (create_loop_get String.eqb String.eqb_eq) by now left.
    reflexivity.
  - intros e Hin.
    rewrite (touch_loop_get PlainGraph.edge_eqb edge_eqb_eq).
    destruct (in_dec _ e _) as [_ | N]; [|contradiction].
    rewrite (create_loop_get PlainGraph.edge_eqb edge_eqb_eq) by now left.
    reflexivity.
Qed.

Lemma full_update_places_every_artist_witness :
  edge_artist
    (PlainGraph.update_artists (PlainGraph.create_artists graph_canvas_span) None)
    ("A", "B")%string = Some (edge_artist_of graph_canvas_span ("A", "B")%string).
Proof.
  apply (full_update_places_every_artist graph_canvas_span).
  - discriminate.
  - left. reflexivity.
Defined.

Lemma incident_edges g n e :
  In e (PlainGraph.in_edges g n ++ PlainGraph.out_edges g n) <->
  In e (PlainGraph.edges g) /\ (snd e = n \/ fst e = n).
Proof.
  unfold PlainGraph.in_edges, PlainGraph.out_edges.
  rewrite in_app_iff, !filter_In, !String.eqb_eq. tauto.
Qed.

(** X20: a partial update for a changed node touches that node and its
    incident edges only.  The circle of every other node and the arrow of
    every edge that neither starts nor ends at the node are what they were;
    the circle of the node, when it has one, is put at the stored position
    of the node, and every edge of the graph into or out of the node that has
    an arrow gets it from the position of its source to the position of its
    target.  Graph and positions are not changed. *)
Theorem partial_update_touches_node_and_incident_edges :
  forall (c : PlainGraph.Canvas) (n : string),
    n <> ""%string ->
    PlainGraph.nodes (PlainGraph.graph c) <> [] ->
    let c' := PlainGraph.update_artists c (Some n) in
    (forall m, m <> n ->
       PlainGraph.get (PlainGraph.node_artists c') m =
       PlainGraph.get (PlainGraph.node_artists c) m) /\
    (forall e, fst e <> n -> snd e <> n -> edge_artist c' e = edge_artist c e) /\
    (PlainGraph.get (PlainGraph.node_artists c) n <> None ->
     PlainGraph.get (PlainGraph.node_artists c') n = Some (node_artist_of c n)) /\
    (forall e, In e (PlainGraph.edges (PlainGraph.graph c)) ->
       fst e = n \/ snd e = n ->
       edge_artist c e <> None ->
       edge_artist c' e = Some (edge_artist_of c e)) /\
    PlainGraph.graph c' = PlainGraph.graph c /\
    PlainGraph.pos c' = PlainGraph.pos c.
Proof.
  intros c n Hn Hne c'. subst c'.
  destruct (PlainGraph.nodes (PlainGraph.graph c)) as [|n0 ns] eqn:En;
    [contradiction|].
  rewrite (update_artists_unfold c (Some n) n0 ns) by exact En.
  assert (Et : PlainGraph.truthy (Some n) = true).
  { simpl. apply negb_true_iff. now apply String.eqb_neq. }
  rewrite Et. unfold edge_artist, PlainGraph.get.
  cbn [PlainGraph.with_artists PlainGraph.node_artists PlainGraph.edge_artists
       PlainGraph.graph PlainGraph.pos].
  split; [|split; [|split; [|split; [|split; reflexivity]]]].
  - intros m Hm. rewrite (touch_loop_get String.eqb String.eqb_eq).
    match goal with |- context [in_dec ?d ?x ?l] =>
      destruct (in_dec d x l) as [[E | []] | _] end; [congruence | reflexivity].
  - intros e H1 H2. rewrite (touch_loop_get PlainGraph.edge_eqb edge_eqb_eq).
    match goal with |- context [in_dec ?d ?x ?l] =>
      destruct (in_dec d x l) as [Hin | _] end; [|reflexivity].
    apply incident_edges in Hin. destruct Hin as (_ & [H | H]); contradiction.
  - intros Ha. rewrite (touch_loop_get String.eqb String.eqb_eq).
    match goal with |- context [in_dec ?d ?x ?l] =>
      destruct (in_dec d x l) as [_ | N] end; [|exfalso; apply N; now left].
    destruct (Dict.get String.eqb (PlainGraph.node_artists c) n);
      [reflexivity | contradiction].
  - intros e Hin Hinc Ha.
    rewrite (touch_loop_get PlainGraph.edge_eqb edge_eqb_eq).
    match goal with |- context [in_dec ?d ?x ?l] =>
      destruct (in_dec d x l) as [_ | N] end.
    + destruct (Dict.get PlainGraph.edge_eqb (PlainGraph.edge_artists c) e);
        [reflexivity | contradiction].
    + exfalso. apply N. apply incident_edges. tauto.
Qed.

Lemma partial_update_touches_node_and_incident_edges_witness :
  edge_artist (PlainGraph.update_artists graph_canvas_edge (Some "A"%string))
    ("A", "B")%string = Some (edge_artist_of graph_canvas_edge ("A", "B")%string).
Proof.
  refine (proj1 (proj2 (proj2 (proj2
            (partial_update_touches_node_and_incident_edges graph_canvas_edge
               "A"%string _ _)))) ("A", "B")%string _ _ _).
  - discriminate.
  - vm_compute. discriminate.
  - vm_compute. left. reflexivity.
  - left. reflexivity.
  - vm_compute. discriminate.
Defined.

(** ** The zoom slider of the graph viewer *)

Lemma adjust_zoom_unfold c v n0 ns p ps :
  PlainGraph.nodes (PlainGraph.graph c) = n0 :: ns ->
  Dict.values (PlainGraph.pos c) = p :: ps ->
  let level := inject_Z v / 100 in
  let bw := width (fst (base_lims p ps)) in
  let bh := width (snd (base_lims p ps)) in
  let c' := PlainGraph.adjust_zoom c v in
  PlainGraph.xlim c' =
    (centre (PlainGraph.xlim c) - bw / level / 2,
     centre (PlainGraph.xlim c) + bw / level / 2) /\
  PlainGraph.ylim c' =
    (centre (PlainGraph.ylim c) - bh / level / 2,
     centre (PlainGraph.ylim c) + bh / level / 2) /\
  PlainGraph.zoom_level c' = level /\
  PlainGraph.graph c' = PlainGraph.graph c /\
  PlainGraph.pos c' = PlainGraph.pos c.
Proof.
  intros En Ep level bw bh c'. subst c'.
  unfold PlainGraph.adjust_zoom. rewrite En, Ep.
  match goal with
  | |- context [PlainGraph.update_artists ?c0 None] =>
      destruct (update_artists_view c0 None) as (-> & -> & ->);
      destruct (graph_update_artists c0 None) as (-> & _ & ->)
  end.
  repeat split.
Qed.

(** X21: the zoom slider of the graph viewer is absolute.  With a graph and
    positions on the canvas and slider values other than zero, [adjust_zoom]
    keeps the centre of the view and leaves graph and positions alone, and
    moving the slider to a first value and then to a second gives the limits
    and the zoom level that moving it to the second value at once gives. *)
Theorem adjust_zoom_is_absolute :
  forall (c : PlainGraph.Canvas) (v1 v2 : Z),
    v1 <> 0%Z -> v2 <> 0%Z ->
    PlainGraph.nodes (PlainGraph.graph c) <> [] ->
    PlainGraph.pos c <> [] ->
    let c1 := PlainGraph.adjust_zoom c v1 in
    let c2 := PlainGraph.adjust_zoom c1 v2 in
    (centre (PlainGraph.xlim c1) == centre (PlainGraph.xlim c) /\
     centre (PlainGraph.ylim c1) == centre (PlainGraph.ylim c) /\
     PlainGraph.graph c1 = PlainGraph.graph c /\
     PlainGraph.pos c1 = PlainGraph.pos c) /\
    (point_eq (PlainGraph.xlim c2) (PlainGraph.xlim (PlainGraph.adjust_zoom c v2)) /\
     point_eq (PlainGraph.ylim c2) (PlainGraph.ylim (PlainGraph.adjust_zoom c v2)) /\
     PlainGraph.zoom_level c2 =
       PlainGraph.zoom_level (PlainGraph.adjust_zoom c v2)).
Proof.
  intros c v1 v2 H1 H2 Hn Hp c1 c2. subst c1 c2.
  destruct (PlainGraph.nodes (PlainGraph.graph c)) as [|n0 ns] eqn:En;
    [contradiction|].
  destruct (PlainGraph.pos c) as [|[k p] ps] eqn:Ep; [contradiction|].
  assert (Ev : Dict.values (PlainGraph.pos c) = p :: map snd ps)
    by (rewrite Ep; reflexivity).
  destruct (adjust_zoom_unfold c v1 n0 ns p (map snd ps) En Ev)
    as (X1 & Y1 & _ & G1 & P1).
  destruct (adjust_zoom_unfold c v2 n0 ns p (map snd ps) En Ev)
    as (X2 & Y2 & Z2 & _ & _).
  assert (En1 : PlainGraph.nodes (PlainGraph.graph (PlainGraph.adjust_zoom c v1))
                = n0 :: ns) by (rewrite G1; exact En).
  assert (Ev1 : Dict.values (PlainGraph.pos (PlainGraph.adjust_zoom c v1))
                = p :: map snd ps) by (rewrite P1; exact Ev).
  destruct (adjust_zoom_unfold _ v2 n0 ns p (map snd ps) En1 Ev1)
    as (X3 & Y3 & Z3 & _ & _).
  assert (L1 : ~ inject_Z v1 == 0) by (unfold inject_Z, Qeq; simpl; lia).
  assert (L2 : ~ inject_Z v2 == 0) by (unfold inject_Z, Qeq; simpl; lia).
  rewrite X3, Y3, Z3, X2, Y2, Z2, X1, Y1, G1, P1.
  unfold point_eq, centre. cbn [fst snd].
  repeat match goal with |- _ /\ _ => split end;
    try reflexivity; try exact Ep; try exact En; field; auto.
Qed.

Lemma adjust_zoom_is_absolute_witness :
  point_eq
    (PlainGraph.xlim
       (PlainGraph.adjust_zoom (PlainGraph.adjust_zoom graph_canvas_edge 200) 100))
    (PlainGraph.xlim (PlainGraph.adjust_zoom graph_canvas_edge 100)).
Proof.
  refine (proj1 (proj2 (adjust_zoom_is_absolute graph_canvas_edge 200 100
                          _ _ _ _))); try lia; vm_compute; discriminate.
Defined.

(** ** The connection points of the dead helpers *)

(** X22: the point that [_get_loop_connection_point] computes lies on the
    circle of radius [node_size * 0.7 * 0.7] around the centre of the loop,
    whatever the target is, and the inward point is the mirror image of the
    outward one through the centre. *)
Theorem loop_connection_point_on_circle :
  forall (node_size : R) (loop_pos target_pos : R * R),
    let out := LoopRule._get_loop_connection_point node_size loop_pos
                 target_pos true in
    let inw := LoopRule._get_loop_connection_point node_size loop_pos
                 target_pos false in
    EdgePoint.dist2 out loop_pos =
      (node_size * (49 / 100) * (node_size * (49 / 100)))%R /\
    EdgePoint.dist2 inw loop_pos =
      (node_size * (49 / 100) * (node_size * (49 / 100)))%R /\
    (fst out + fst inw = 2 * fst loop_pos)%R /\
    (snd out + snd inw = 2 * snd loop_pos)%R.
Proof.
  intros node_size [lx ly] target_pos out inw. subst out inw.
  unfold LoopRule._get_loop_connection_point, EdgePoint.dist2.
  set (angle := LoopRule.arctan2 _ _). cbn [fst snd].
  pose proof (sin2_cos2 angle) as H. unfold Rsqr in H.
  assert (Hc : (cos angle * cos angle = 1 - sin angle * sin angle)%R)
    by Lra.lra.
  repeat match goal with |- _ /\ _ => split end.
  - transitivity
      (node_size * (7 / 10) * (7 / 10) * (node_size * (7 / 10) * (7 / 10)) *
       (cos angle * cos angle + sin angle * sin angle))%R; [ring|].
    rewrite Hc. field.
  - transitivity
      (node_size * (7 / 10) * (7 / 10) * (node_size * (7 / 10) * (7 / 10)) *
       (cos angle * cos angle + sin angle * sin angle))%R; [ring|].
    rewrite Hc. field.
  - ring.
  - ring.
Qed.

Lemma hypot_nonneg dx dy : (0 <= EdgePoint.hypot dx dy)%R.
Proof. apply sqrt_pos. Qed.

Lemma hypot_sqr dx dy :
  (EdgePoint.hypot dx dy * EdgePoint.hypot dx dy = dx * dx + dy * dy)%R.
Proof.
  unfold EdgePoint.hypot. apply sqrt_sqrt.
  pose proof (Rle_0_sqr dx). pose proof (Rle_0_sqr dy).
  unfold Rsqr in *. Lra.lra.
Qed.

(** The square of [hypot] is below the square of a bound of [hypot]. *)
Lemma hypot_sqr_le (dx dy b : R) :
  (EdgePoint.hypot dx dy <= b)%R ->
  (dx * dx + dy * dy <= b * b)%R.
Proof.
  intros Hb. rewrite <- hypot_sqr.
  assert (H0 : (0 <= EdgePoint.hypot dx dy)%R) by apply sqrt_pos.
  Lra.nra.
Qed.

(** X23: [_get_node_edge_point] divides by [max(0.001, hypot(dx, dy))], which
    is at least 0.001, so never by zero.  For a target at least 0.001 away
    from the node the point lies on the circle of radius [node_size / 2]
    around the node.  For a target closer than that the divisor is 0.001: the
    point is the node moved by the displacement times [node_size * 500]
    (towards the target, or away from it), at [node_size / 2] times
    [1000 * hypot(dx, dy)] from the node.  In every case the point is no
    further than [node_size / 2] from the node, and for a target at the node
    itself it is the node. *)
Theorem node_edge_point_on_circle :
  forall (node_size : R) (node_pos target_pos : R * R) (outward : bool),
    let dx := (fst target_pos - fst node_pos)%R in
    let dy := (snd target_pos - snd node_pos)%R in
    let d := EdgePoint.hypot dx dy in
    let p :=
      EdgePoint._get_node_edge_point node_size node_pos target_pos outward in
    let s := (if outward then node_size * 500 else - (node_size * 500))%R in
    (1 / 1000 <= EdgePoint.dist node_pos target_pos)%R /\
    ((1 / 1000 <= d)%R ->
     EdgePoint.dist2 p node_pos = (node_size / 2 * (node_size / 2))%R) /\
    ((d <= 1 / 1000)%R ->
     p = (fst node_pos + dx * s, snd node_pos + dy * s)%R /\
     EdgePoint.dist2 p node_pos
     = (node_size / 2 * (node_size / 2) * ((1000 * d) * (1000 * d)))%R) /\
    (EdgePoint.dist2 p node_pos <= node_size / 2 * (node_size / 2))%R /\
    EdgePoint._get_node_edge_point node_size node_pos node_pos outward
    = node_pos.
Proof.
  intros node_size [nx ny] [tx ty] outward. cbn [fst snd].
  set (dx := (tx - nx)%R). set (dy := (ty - ny)%R).
  set (d := EdgePoint.hypot dx dy). cbv zeta.
  assert (Hs : (d * d = dx * dx + dy * dy)%R) by apply hypot_sqr.
  assert (Hd0 : (0 <= d)%R) by apply sqrt_pos.
  assert (Hfar : (1 / 1000 <= d)%R ->
            EdgePoint.dist2
              (EdgePoint._get_node_edge_point node_size (nx, ny) (tx, ty)
                 outward) (nx, ny)
            = (node_size / 2 * (node_size / 2))%R).
  { intros Hd. unfold EdgePoint._get_node_edge_point, EdgePoint.dist2.
    unfold EdgePoint.dist.
    cbn [fst snd]. fold dx dy d. rewrite Rmax_right by exact Hd.
    assert (Hdn : d <> 0%R) by Lra.lra.
    set (f := if outward then (1 / 2)%R else (- (1 / 2))%R).
    assert (Hf : (f * f = 1 / 4)%R) by (subst f; destruct outward; Lra.lra).
    transitivity ((dx * dx + dy * dy) * (node_size * node_size) * (f * f)
                  / (d * d))%R.
    - field. exact Hdn.
    - rewrite <- Hs, Hf. field. exact Hdn. }
  assert (Hnear : (d <= 1 / 1000)%R ->
            EdgePoint.dist2
              (EdgePoint._get_node_edge_point node_size (nx, ny) (tx, ty)
                 outward) (nx, ny)
            = (node_size / 2 * (node_size / 2) * ((1000 * d) * (1000 * d)))%R).
  { intros Hd. unfold EdgePoint._get_node_edge_point, EdgePoint.dist2.
    unfold EdgePoint.dist.
    cbn [fst snd]. fold dx dy d. rewrite Rmax_left by exact Hd.
    set (f := if outward then (1 / 2)%R else (- (1 / 2))%R).
    assert (Hf : (f * f = 1 / 4)%R) by (subst f; destruct outward; Lra.lra).
    transitivity ((dx * dx + dy * dy) * (node_size * node_size) * (f * f)
                  * 1000000)%R.
    - field.
    - rewrite <- Hs, Hf. field. }
  split; [unfold EdgePoint.dist; apply Rmax_l|]. split; [exact Hfar|].
  split; [|split].
  - intros Hd. split; [|exact (Hnear Hd)].
    unfold EdgePoint._get_node_edge_point, EdgePoint.dist.
    cbn [fst snd]. fold dx dy d.
    rewrite Rmax_left by exact Hd.
    destruct outward; f_equal; field.
  - destruct (Rle_dec (1 / 1000) d) as [Hd | Hd].
    + rewrite (Hfar Hd). apply Rle_refl.
    + assert (Hd' : (d <= 1 / 1000)%R) by Lra.lra.
      rewrite (Hnear Hd').
      assert (H1 : (0 <= 1000 * d <= 1)%R) by Lra.lra.
      assert (H2 : (0 <= (1000 * d) * (1000 * d) <= 1)%R) by Lra.nra.
      assert (H3 : (0 <= node_size / 2 * (node_size / 2))%R) by Lra.nra.
      Lra.nra.
  - unfold EdgePoint._get_node_edge_point, EdgePoint.dist. cbn [fst snd].
    f_equal; unfold Rdiv; rewrite Rminus_diag; ring.
Qed.

Lemma node_edge_point_on_circle_witness :
  EdgePoint._get_node_edge_point 1 (0, 0)%R (1 / 2000, 0)%R true
  = (0 + (1 / 2000 - 0) * (1 * 500), 0 + (0 - 0) * (1 * 500))%R /\
  EdgePoint.dist2
    (EdgePoint._get_node_edge_point 1 (0, 0)%R (1, 0)%R true) (0, 0)%R
  = (1 / 2 * (1 / 2))%R.
Proof.
  split.
  - refine (proj1 (proj1 (proj2 (proj2
             (node_edge_point_on_circle 1 (0, 0)%R (1 / 2000, 0)%R true))) _)).
    cbn [fst snd]. unfold EdgePoint.hypot.
    replace ((1 / 2000 - 0) * (1 / 2000 - 0) + (0 - 0) * (0 - 0))%R
      with (1 / 2000 * (1 / 2000))%R by ring.
    rewrite sqrt_square by Lra.lra. Lra.lra.
  - refine (proj1 (proj2
             (node_edge_point_on_circle 1 (0, 0)%R (1, 0)%R true)) _).
    cbn [fst snd]. unfold EdgePoint.hypot.
    replace ((1 - 0) * (1 - 0) + (0 - 0) * (0 - 0))%R with 1%R by ring.
    rewrite sqrt_1. Lra.lra.
Defined.

(** ** The legacy canvas *)

Lemma update_loops_on_no_artists c r ns es :
  fold_left (PlainGraph.update_node c r) ns [] = [] /\
  fold_left (PlainGraph.update_edge c) es [] = [].
Proof.
  split.
  - induction ns as [|n ns IH]; [reflexivity | exact IH].
  - induction es as [|e es IH]; [reflexivity | exact IH].
Qed.

(** X24: the loader of legacy/graph_canvas.py never reports success.  A file
    without a usable edge is rejected as in app.py; with one, the layout is
    applied and the view fitted, then [create_artists] raises on the missing
    attribute [links] and the loader returns false, although the graph of
    the file and its positions are on the canvas by then, without artists. *)
Theorem legacy_load_never_succeeds :
  forall layout (c : PlainGraph.Canvas) (file : CsvFile),
    fst (Legacy.load_graph_from_csv layout c file) = false /\
    forall header data,
      file = Rows (header :: data) ->
      (2 <= List.length header)%nat ->
      existsb edge_row data = true ->
      let c' := snd (Legacy.load_graph_from_csv layout c file) in
      PlainGraph.nodes (PlainGraph.graph c') <> [] /\
      PlainGraph.pos c' =
        layout Spring (PlainGraph.nodes (PlainGraph.graph c'))
          (PlainGraph.edges (PlainGraph.graph c')) /\
      PlainGraph.node_artists c' = [] /\ PlainGraph.edge_artists c' = [].
Proof.
  intros layout c file. split.
  - unfold Legacy.load_graph_from_csv, Legacy.apply_layout,
      Legacy.create_artists.
    destruct file as [|[|header data]|[|header data]]; try reflexivity.
    + destruct (List.length header <? 2)%nat; [reflexivity|].
      destruct (PlainGraph.nodes (PlainGraph.graph (fold_left _ data _)));
        reflexivity.
    + destruct (List.length header <? 2)%nat; reflexivity.
  - intros header data -> Hh Hd.
    unfold Legacy.load_graph_from_csv, Legacy.apply_layout,
      Legacy.create_artists.
    replace (List.length header <? 2)%nat with false
      by (symmetry; apply Nat.ltb_ge; exact Hh).
    set (c0 := PlainGraph.clear_artists _).
    set (c1 := fold_left PlainGraph.read_row data c0).
    assert (Hn : PlainGraph.nodes (PlainGraph.graph c1) <> [])
      by (apply (read_rows_nodes_iff data c0 eq_refl); exact Hd).
    destruct (PlainGraph.nodes (PlainGraph.graph c1)) as [|n0 ns] eqn:En;
      [contradiction|].
    cbv zeta. cbn [snd].
    replace (LinksCanvas.layout_kind "spring") with Spring by reflexivity.
    set (P := layout Spring (n0 :: ns) (PlainGraph.edges (PlainGraph.graph c1))).
    set (c2 := PlainGraph.clear_artists (PlainGraph.with_pos c1 P)).
    destruct (graph_auto_scale c2) as (Hg & _ & Hp).
    rewrite Hg, Hp.
    change (PlainGraph.graph c2) with (PlainGraph.graph c1).
    change (PlainGraph.pos c2) with P.
    rewrite En. split; [discriminate|]. split; [reflexivity|].
    unfold PlainGraph.auto_scale.
    destruct (Dict.values (PlainGraph.pos c2)); [split; reflexivity|].
    unfold PlainGraph.update_artists.
    cbn [PlainGraph.graph PlainGraph.with_zoom_level PlainGraph.with_lims].
    change (PlainGraph.graph c2) with (PlainGraph.graph c1). rewrite En.
    cbn [PlainGraph.node_artists PlainGraph.edge_artists PlainGraph.with_artists
         PlainGraph.with_zoom_level PlainGraph.with_lims].
    change (PlainGraph.node_artists c2) with (@nil (string * PlainGraph.NodeArtist)).
    change (PlainGraph.edge_artists c2)
      with (@nil (PlainGraph.Edge * PlainGraph.EdgeArtist)).
    match goal with
    | |- fold_left (PlainGraph.update_node ?x ?r) ?l [] = [] /\
         fold_left (PlainGraph.update_edge ?y) ?m [] = [] =>
        exact (update_loops_on_no_artists x r l m)
    end.
Qed.

Lemma legacy_load_never_succeeds_witness :
  PlainGraph.nodes
    (PlainGraph.graph
       (snd (Legacy.load_graph_from_csv (row_layout 1) graph_canvas_init
               csv_edge))) <> [].
Proof.
  refine (proj1 (proj2 (legacy_load_never_succeeds (row_layout 1)
                          graph_canvas_init csv_edge)
                   ["from"; "to"]%string [["A"; "B"]]%string eq_refl _ _)).
  - simpl. lia.
  - vm_compute. reflexivity.
Defined.

(** ** The viewer of the links canvas *)

(** X25: the Reset View button of the links viewer gives the fitted view
    whatever the slider showed: the slider ends at 100, the limits are those
    that [reset_view] of the canvas sets, and links, positions and artists
    are not touched.  When the slider was not at 100 already, the stored zoom
    level ends at 1. *)
Theorem viewer_reset_view_restores_fit :
  forall (v : LinksViewer.Viewer),
    let v' := LinksViewer.reset_view v in
    let fitted := LinksCanvas.reset_view (LinksViewer.links_canvas v) in
    LinksViewer.zoom_slider v' = 100%Z /\
    point_eq (LinksCanvas.xlim (LinksViewer.links_canvas v'))
      (LinksCanvas.xlim fitted) /\
    point_eq (LinksCanvas.ylim (LinksViewer.links_canvas v'))
      (LinksCanvas.ylim fitted) /\
    LinksCanvas.links (LinksViewer.links_canvas v') =
      LinksCanvas.links (LinksViewer.links_canvas v) /\
    LinksCanvas.link_positions (LinksViewer.links_canvas v') =
      LinksCanvas.link_positions (LinksViewer.links_canvas v) /\
    LinksCanvas.link_artists (LinksViewer.links_canvas v') =
      LinksCanvas.link_artists (LinksViewer.links_canvas v) /\
    (LinksViewer.zoom_slider v <> 100%Z ->
     LinksCanvas.zoom_level (LinksViewer.links_canvas v') == 1).
Proof.
  intros v v' fitted. subst v' fitted.
  destruct (reset_view_model (LinksViewer.links_canvas v)) as (Hl & Hp & Ha).
  unfold LinksViewer.reset_view, LinksViewer.setValue.
  cbn [LinksViewer.zoom_slider LinksViewer.links_canvas Z.min Z.max Z.compare
       Pos.compare Pos.compare_cont].
  destruct (Z.eqb 100 (LinksViewer.zoom_slider v)) eqn:E.
  - apply Z.eqb_eq in E.
    cbn [LinksViewer.zoom_slider LinksViewer.links_canvas]. unfold point_eq.
    repeat match goal with |- _ /\ _ => split end;
      try assumption; try reflexivity; [now symmetry | intros N; congruence].
  - unfold LinksViewer.adjust_zoom, LinksCanvas.set_zoom, point_eq.
    cbn [LinksViewer.zoom_slider LinksViewer.links_canvas
         LinksCanvas.with_zoom_level LinksCanvas.with_lims LinksCanvas.xlim
         LinksCanvas.ylim LinksCanvas.zoom_level LinksCanvas.links
         LinksCanvas.link_positions LinksCanvas.link_artists fst snd].
    repeat match goal with |- _ /\ _ => split end;
      try assumption; try reflexivity; try field.
Qed.

(** ** Applying a layout *)

(** X26: [apply_layout] of the links canvas is a full redraw.  Without links
    it does nothing.  With links, the positions become those the layout of
    the given name (the default spring layout for an unknown name) gives for
    the links and their reference edges, every link gets the artist that
    drawing it from the new positions gives, nothing else has an artist, and
    the view is fitted to the new positions. *)
Theorem apply_layout_redraws_every_link :
  forall layout (c : LinksCanvas.Canvas) (layout_type : string),
    (LinksCanvas.links c = [] ->
     LinksCanvas.apply_layout layout c layout_type = c) /\
    (LinksCanvas.links c <> [] ->
     let c' := LinksCanvas.apply_layout layout c layout_type in
     LinksCanvas.links c' = LinksCanvas.links c /\
     LinksCanvas.link_positions c' =
       layout (LinksCanvas.layout_kind layout_type)
         (Dict.keys (LinksCanvas.links c))
         (LinksCanvas.reference_edges (LinksCanvas.links c)) /\
     (forall k,
        shape_of c' k =
        match LinksCanvas.get (LinksCanvas.links c) k with
        | Some l =>
            Some (LinksCanvas.shape
                    (LinksCanvas.draw_link c' k l
                       (LinksCanvas.pos_get (LinksCanvas.link_positions c')
                          (Some k))))
        | None => None
        end) /\
     LinksCanvas.reset_view c' = c').
Proof.
  intros layout c t. unfold LinksCanvas.apply_layout. split.
  - now intros ->.
  - intros Hne. destruct (LinksCanvas.links c) as [|e L0] eqn:EL;
      [contradiction|].
    cbn [Dict.is_empty]. rewrite <- EL.
    set (P := layout _ _ _).
    set (c2 := LinksCanvas.clear_artists (LinksCanvas.with_link_positions c P)).
    destruct (create_artists_spec c2) as (Hl3 & Hp3 & _ & _ & Ha3).
    set (c3 := LinksCanvas.create_artists c2) in *.
    destruct (reset_view_model c3) as (Hl4 & Hp4 & Ha4).
    cbv zeta. rewrite Hl4, Hl3, Hp4, Hp3.
    change (LinksCanvas.links c2) with (LinksCanvas.links c).
    change (LinksCanvas.link_positions c2) with P.
    split; [reflexivity|]. split; [reflexivity|]. split.
    + intros k. unfold shape_of. rewrite Ha4, Ha3.
      change (LinksCanvas.links c2) with (LinksCanvas.links c).
      change (LinksCanvas.link_positions c2) with P.
      destruct (LinksCanvas.get (LinksCanvas.links c) k) as [l|]; [|reflexivity].
      simpl. f_equal. f_equal. apply draw_link_ext.
      * now rewrite Hl4, Hl3.
      * now rewrite Hp4, Hp3.
    + unfold LinksCanvas.reset_view at 1. unfold LinksCanvas.reset_view.
      destruct (Dict.values (LinksCanvas.link_positions c3)) eqn:Ev.
      * rewrite Ev. reflexivity.
      * cbn [LinksCanvas.link_positions LinksCanvas.with_zoom_level
             LinksCanvas.with_lims]. rewrite Ev. reflexivity.
Qed.

Lemma apply_layout_redraws_every_link_witness :
  LinksCanvas.reset_view
    (LinksCanvas.apply_layout (row_layout 2) canvas_chain "nonsense")
  = LinksCanvas.apply_layout (row_layout 2) canvas_chain "nonsense".
Proof.
  apply (proj2 (apply_layout_redraws_every_link (row_layout 2) canvas_chain
                  "nonsense")).
  vm_compute. discriminate.
Defined.

Lemma full_update_centres (c : PlainGraph.Canvas) :
  PlainGraph.nodes (PlainGraph.graph c) <> [] ->
  let c' := PlainGraph.update_artists (PlainGraph.create_artists c) None in
  PlainGraph.graph c' = PlainGraph.graph c /\
  PlainGraph.pos c' = PlainGraph.pos c /\
  (forall n, In n (PlainGraph.nodes (PlainGraph.graph c)) ->
     option_map PlainGraph.center
       (PlainGraph.get (PlainGraph.node_artists c') n) =
     Some (PlainGraph.pos_get (PlainGraph.pos c) n)) /\
  (forall e, In e (PlainGraph.edges (PlainGraph.graph c)) ->
     edge_artist c' e = Some (edge_artist_of c e)).
Proof.
  intros Hne c'. subst c'.
  destruct (PlainGraph.nodes (PlainGraph.graph c)) as [|n0 ns] eqn:En;
    [contradiction|].
  rewrite (update_artists_unfold (PlainGraph.create_artists c) None n0 ns)
    by exact En.
  unfold edge_artist, PlainGraph.get.
  cbn [PlainGraph.with_artists PlainGraph.node_artists PlainGraph.edge_artists
       PlainGraph.graph PlainGraph.pos PlainGraph.create_artists].
  rewrite En.
  split; [reflexivity|]. split; [reflexivity|]. split.
  - intros n Hin.
    rewrite (touch_loop_get String.eqb String.eqb_eq).
    match goal with |- context [in_dec ?d ?x ?l] =>
      destruct (in_dec d x l) as [_ | N] end; [|contradiction].
    unfold PlainGraph.set.
    rewrite (create_loop_get String.eqb String.eqb_eq) by now left.
    reflexivity.
  - intros e Hin.
    rewrite (touch_loop_get PlainGraph.edge_eqb edge_eqb_eq).
    match goal with |- context [in_dec ?d ?x ?l] =>
      destruct (in_dec d x l) as [_ | N] end; [|contradiction].
    rewrite (create_loop_get PlainGraph.edge_eqb edge_eqb_eq) by now left.
    reflexivity.
Qed.

(** X27: [apply_layout] of the graph canvas with an unknown layout name keeps
    the stored positions, and with a known name takes the positions that
    layout gives; in both cases it redraws the whole graph: the graph is
    unchanged, every circle is centred on the position of its node and every
    arrow runs from the position of its source to that of its target.
    Without nodes it does nothing. *)
Theorem graph_apply_layout_redraws_everything :
  forall layout (c : PlainGraph.Canvas) (layout_type : string),
    (PlainGraph.nodes (PlainGraph.graph c) = [] ->
     PlainGraph.apply_layout layout c layout_type = c) /\
    (PlainGraph.nodes (PlainGraph.graph c) <> [] ->
     let c' := PlainGraph.apply_layout layout c layout_type in
     PlainGraph.graph c' = PlainGraph.graph c /\
     PlainGraph.pos c' =
       match graph_layout_kind layout_type with
       | Some kind =>
           layout kind (PlainGraph.nodes (PlainGraph.graph c))
             (PlainGraph.edges (PlainGraph.graph c))
       | None => PlainGraph.pos c
       end /\
     (forall n, In n (PlainGraph.nodes (PlainGraph.graph c)) ->
        option_map PlainGraph.center
          (PlainGraph.get (PlainGraph.node_artists c') n) =
        Some (PlainGraph.pos_get (PlainGraph.pos c') n)) /\
     (forall e, In e (PlainGraph.edges (PlainGraph.graph c)) ->
        edge_artist c' e = Some (edge_artist_of c' e))).
Proof.
  intros layout c t. unfold PlainGraph.apply_layout. split.
  - now intros ->.
  - intros Hne.
    destruct (PlainGraph.nodes (PlainGraph.graph c)) as [|n0 ns] eqn:En;
      [contradiction|].
    rewrite <- En.
    set (c1 := if String.eqb t "spring" then _ else _).
    assert (E1 : PlainGraph.graph c1 = PlainGraph.graph c /\
                 PlainGraph.pos c1 =
                   match graph_layout_kind t with
                   | Some kind =>
                       layout kind (PlainGraph.nodes (PlainGraph.graph c))
                         (PlainGraph.edges (PlainGraph.graph c))
                   | None => PlainGraph.pos c
                   end).
    { subst c1. unfold graph_layout_kind.
      repeat match goal with
      | |- context [if String.eqb t ?s then _ else _] =>
          destruct (String.eqb t s)
      end; split; reflexivity. }
    destruct E1 as (Eg1 & Ep1).
    set (c3 := PlainGraph.auto_scale (PlainGraph.clear_artists c1)).
    destruct (graph_auto_scale (PlainGraph.clear_artists c1)) as (Eg3 & _ & Ep3).
    fold c3 in Eg3, Ep3.
    change (PlainGraph.graph (PlainGraph.clear_artists c1))
      with (PlainGraph.graph c1) in Eg3.
    change (PlainGraph.pos (PlainGraph.clear_artists c1))
      with (PlainGraph.pos c1) in Ep3.
    assert (Hn3 : PlainGraph.nodes (PlainGraph.graph c3) <> []).
    { rewrite Eg3, Eg1, En. discriminate. }
    destruct (full_update_centres c3 Hn3) as (G & P & HN & HE).
    cbv zeta. rewrite G, P, Eg3, Eg1, Ep3, Ep1.
    split; [reflexivity|]. split; [reflexivity|].
    rewrite Eg3, Eg1, Ep3, Ep1 in HN.
    unfold edge_artist_of in *. rewrite Eg3, Eg1, Ep3, Ep1 in HE.
    rewrite P, Ep3, Ep1.
    split; [exact HN | exact HE].
Qed.

Lemma graph_apply_layout_redraws_everything_witness :
  PlainGraph.pos (PlainGraph.apply_layout (row_layout 2) graph_canvas_edge "nonsense")
  = PlainGraph.pos graph_canvas_edge.
Proof.
  refine (proj1 (proj2 (proj2 (graph_apply_layout_redraws_everything
                                 (row_layout 2) graph_canvas_edge "nonsense") _))).
  vm_compute. discriminate.
Defined.

(** ** The viewer of the graph canvas *)

(** X28: the Reset View button of the graph viewer gives the fitted view
    whatever the slider showed: the slider ends at 100, the limits are those
    that [auto_scale] sets, and graph and positions are not touched. *)
Theorem graph_viewer_reset_view_restores_fit :
  forall (v : GraphViewer.Viewer),
    let v' := GraphViewer.reset_view v in
    let fitted := PlainGraph.auto_scale (GraphViewer.graph_canvas v) in
    GraphViewer.zoom_slider v' = 100%Z /\
    point_eq (PlainGraph.xlim (GraphViewer.graph_canvas v'))
      (PlainGraph.xlim fitted) /\
    point_eq (PlainGraph.ylim (GraphViewer.graph_canvas v'))
      (PlainGraph.ylim fitted) /\
    PlainGraph.graph (GraphViewer.graph_canvas v') =
      PlainGraph.graph (GraphViewer.graph_canvas v) /\
    PlainGraph.pos (GraphViewer.graph_canvas v') =
      PlainGraph.pos (GraphViewer.graph_canvas v).
Proof.
  intros v v' fitted. subst v' fitted.
  set (c := GraphViewer.graph_canvas v).
  destruct (graph_auto_scale c) as (Hg & _ & Hp).
  unfold GraphViewer.reset_view, GraphViewer.setValue.
  cbn [GraphViewer.zoom_slider GraphViewer.graph_canvas Z.min Z.max Z.compare
       Pos.compare Pos.compare_cont].
  fold c.
  destruct (Z.eqb 100 (GraphViewer.zoom_slider v)) eqn:E.
  - apply Z.eqb_eq in E.
    cbn [GraphViewer.zoom_slider GraphViewer.graph_canvas]. unfold point_eq.
    repeat match goal with |- _ /\ _ => split end;
      try assumption; try reflexivity. now symmetry.
  - unfold GraphViewer.adjust_zoom.
    cbn [GraphViewer.zoom_slider GraphViewer.graph_canvas].
    split; [reflexivity|].
    destruct (PlainGraph.nodes (PlainGraph.graph c)) as [|n0 ns] eqn:En.
    { assert (Ez : PlainGraph.adjust_zoom (PlainGraph.auto_scale c) 100 =
                   PlainGraph.auto_scale c).
      { unfold PlainGraph.adjust_zoom. rewrite Hg, En. reflexivity. }
      rewrite Ez. unfold point_eq.
      repeat match goal with |- _ /\ _ => split end;
        try assumption; reflexivity. }
    destruct (PlainGraph.pos c) as [|[k p] ps] eqn:Ep.
    { assert (Ez : PlainGraph.adjust_zoom (PlainGraph.auto_scale c) 100 =
                   PlainGraph.auto_scale c).
      { unfold PlainGraph.adjust_zoom. rewrite Hg, En, Hp. reflexivity. }
      rewrite Ez. unfold point_eq.
      repeat match goal with |- _ /\ _ => split end;
        try assumption; reflexivity. }
    assert (En' : PlainGraph.nodes (PlainGraph.graph (PlainGraph.auto_scale c))
                  = n0 :: ns) by (rewrite Hg; exact En).
    assert (Ev' : Dict.values (PlainGraph.pos (PlainGraph.auto_scale c))
                  = p :: map snd ps) by (rewrite Hp; reflexivity).
    destruct (adjust_zoom_unfold _ 100 n0 ns p (map snd ps) En' Ev')
      as (X & Y & _ & G & P).
    rewrite X, Y, G, P, Hg.
    assert (Fx : PlainGraph.xlim (PlainGraph.auto_scale c) =
                 fst (base_lims p (map snd ps)) /\
                 PlainGraph.ylim (PlainGraph.auto_scale c) =
                 snd (base_lims p (map snd ps))).
    { unfold PlainGraph.auto_scale. fold c. rewrite Ep.
      cbn [Dict.values map snd].
      match goal with
      | |- context [PlainGraph.update_artists ?c0 None] =>
          destruct (update_artists_view c0 None) as (-> & -> & _)
      end.
      split; reflexivity. }
    destruct Fx as (-> & ->).
    unfold point_eq, centre, width. cbn [fst snd].
    repeat match goal with |- _ /\ _ => split end;
      try reflexivity; try exact Hp; field.
Qed.

(** ** The hit test at the stored position of an entity *)

(** The hit test at a point where an entity is stored answers with the first
    entity within the radius. *)
Lemma hit_test_at_entry {K : Type} fig xl yl (l1 l2 : Dict.t K Point) id px py :
  ~ px == 0 -> ~ py == 0 ->
  ~ width xl == 0 -> ~ width yl == 0 ->
  exists k,
    hit_test fig xl yl (l1 ++ (id, (px, py)) :: l2) (Some px, Some py)
    = Some k /\
    first_hit (l1 ++ (id, (px, py)) :: l2) px py (node_radius fig xl yl) k.
Proof.
  intros Hx Hy Hxl Hyl. unfold hit_test, width in *. simpl.
  rewrite !Qeq_bool_false by assumption. simpl.
  destruct (first_within (l1 ++ (id, (px, py)) :: l2) px py
              (node_radius fig xl yl)) as [k|] eqn:E.
  - exists k. split; [reflexivity|]. now apply first_within_some.
  - exfalso. apply first_within_none in E.
    apply (E id (px, py)).
    + apply in_or_app. right. now left.
    + apply within_self.
Qed.

(** The radius of every circle after a full update of the graph canvas. *)
Lemma full_update_radius (c : PlainGraph.Canvas) (n : string) :
  In n (PlainGraph.nodes (PlainGraph.graph c)) ->
  option_map PlainGraph.radius
    (PlainGraph.get
       (PlainGraph.node_artists
          (PlainGraph.update_artists (PlainGraph.create_artists c) None)) n)
  = Some (PlainGraph.node_radius_in_data_units c).
Proof.
  intros Hin.
  destruct (PlainGraph.nodes (PlainGraph.graph c)) as [|n0 ns] eqn:En;
    [destruct Hin|].
  rewrite (update_artists_unfold (PlainGraph.create_artists c) None n0 ns)
    by exact En.
  unfold PlainGraph.get.
  cbn [PlainGraph.with_artists PlainGraph.node_artists PlainGraph.edge_artists
       PlainGraph.graph PlainGraph.pos PlainGraph.create_artists].
  rewrite En.
  rewrite (touch_loop_get String.eqb String.eqb_eq).
  match goal with |- context [in_dec ?d ?x ?l] =>
    destruct (in_dec d x l) as [_ | N] end; [|contradiction].
  unfold PlainGraph.set.
  rewrite (create_loop_get String.eqb String.eqb_eq) by now left.
  reflexivity.
Qed.

Lemma node_radius_in_pixels (fig : Figure) (xl yl : Lim) :
  ~ fig_width fig == 0 -> ~ fig_height fig == 0 -> ~ dpi fig == 0 ->
  node_radius fig xl yl ==
  15 * ((dataUnitsPerDevicePixel (fig_width fig) (dpi fig) xl +
         dataUnitsPerDevicePixel (fig_height fig) (dpi fig) yl) / 2).
Proof.
  intros Hw Hh Hd. unfold node_radius, dataUnitsPerDevicePixel, width.
  cbv zeta. field. repeat split; assumption.
Qed.

(** C7, as the code has it.  In a view that is not degenerate, the hit test
    at the stored position of an entity, when neither coordinate of that
    position is 0, answers with an entity: the first one in insertion order
    whose stored position lies within the hit radius of that point.  It is
    the entity itself when no entity before it lies that close.  The hit
    radius is 15 / dpi times the average over both axes of the data units per
    inch, which is 15 times the average of the data units per device pixel.
    In the graph canvas it is the radius that a full update gives every
    circle.  The links canvas draws a link without a [from] or a [to] as a
    circle of the fixed radius [node_size / 2], whatever the view is. *)
Theorem hit_test_at_own_position :
  forall (lc : LinksCanvas.Canvas) (gc : PlainGraph.Canvas)
         (l1 l2 : Dict.t Z Point) (link_id : Z)
         (n1 n2 : Dict.t string Point) (node : string) (px py : Q),
    ~ px == 0 -> ~ py == 0 ->
    (LinksCanvas.link_positions lc = l1 ++ (link_id, (px, py)) :: l2 ->
     ~ width (LinksCanvas.xlim lc) == 0 ->
     ~ width (LinksCanvas.ylim lc) == 0 ->
     let r := node_radius (LinksCanvas.fig lc) (LinksCanvas.xlim lc)
                (LinksCanvas.ylim lc) in
     (exists k,
        LinksCanvas._get_link_at_position lc (Some px, Some py) = Some k /\
        first_hit (LinksCanvas.link_positions lc) px py r k) /\
     ((forall k p, In (k, p) l1 -> ~ within p px py r) ->
      LinksCanvas._get_link_at_position lc (Some px, Some py)
      = Some link_id)) /\
    (PlainGraph.pos gc = n1 ++ (node, (px, py)) :: n2 ->
     ~ width (PlainGraph.xlim gc) == 0 ->
     ~ width (PlainGraph.ylim gc) == 0 ->
     let r := node_radius (PlainGraph.fig gc) (PlainGraph.xlim gc)
                (PlainGraph.ylim gc) in
     (exists k,
        PlainGraph.get_node_at_position gc (Some px, Some py) = Some k /\
        first_hit (PlainGraph.pos gc) px py r k) /\
     ((forall k p, In (k, p) n1 -> ~ within p px py r) ->
      PlainGraph.get_node_at_position gc (Some px, Some py) = Some node) /\
     (forall n, In n (PlainGraph.nodes (PlainGraph.graph gc)) ->
        option_map PlainGraph.radius
          (PlainGraph.get
             (PlainGraph.node_artists
                (PlainGraph.update_artists (PlainGraph.create_artists gc)
                   None)) n)
        = Some r)) /\
    (forall (fig : Figure) (xl yl : Lim),
       ~ fig_width fig == 0 -> ~ fig_height fig == 0 -> ~ dpi fig == 0 ->
       node_radius fig xl yl ==
       15 * ((dataUnitsPerDevicePixel (fig_width fig) (dpi fig) xl +
              dataUnitsPerDevicePixel (fig_height fig) (dpi fig) yl) / 2)) /\
    (forall (c : LinksCanvas.Canvas) (k : Z) (l : LinksCanvas.Link)
            (pos : Point),
       LinksCanvas.from l = None \/ LinksCanvas.to l = None ->
       LinksCanvas.shape (LinksCanvas.draw_link c k l pos)
       = LinksCanvas.Circle (fst pos, snd pos) (LinksCanvas.node_size / 2)).
Proof.
  intros lc gc l1 l2 link_id n1 n2 node px py Hx Hy.
  split; [|split; [|split]].
  - intros E Hxl Hyl r. subst r.
    unfold LinksCanvas._get_link_at_position. rewrite E. split.
    + now apply hit_test_at_entry.
    + intros Hl1. apply hit_test_first; assumption.
  - intros E Hxl Hyl r. subst r.
    unfold PlainGraph.get_node_at_position. rewrite E.
    split; [|split].
    + now apply hit_test_at_entry.
    + intros Hn1. apply hit_test_first; assumption.
    + intros n Hin. rewrite (full_update_radius gc n Hin).
      unfold PlainGraph.node_radius_in_data_units, PlainGraph.degenerate.
      unfold width in Hxl, Hyl.
      rewrite !Qeq_bool_false by assumption. reflexivity.
  - exact node_radius_in_pixels.
  - intros c k [f t] pos H. cbn [LinksCanvas.from LinksCanvas.to] in H.
    unfold LinksCanvas.draw_link, LinksCanvas.is_self_link.
    cbn [LinksCanvas.from LinksCanvas.to].
    destruct H as [-> | ->].
    + reflexivity.
    + destruct f as [f|]; [|reflexivity].
      cbn [Zopt_eqb]. rewrite andb_false_r. reflexivity.
Qed.

Lemma hit_test_at_own_position_witness :
  LinksCanvas._get_link_at_position canvas_two_links (Some 2, Some 1) =
  Some 2%Z.
Proof.
  refine (proj2 (proj1 (hit_test_at_own_position canvas_two_links
                          graph_canvas_on_axis
                          [(1%Z, (1, 1))] [] 2%Z [] [] "A"%string 2 1 _ _)
                   _ _ _) _).
  - intros H; vm_compute in H; discriminate.
  - intros H; vm_compute in H; discriminate.
  - vm_compute. reflexivity.
  - intros H; vm_compute in H; discriminate.
  - intros H; vm_compute in H; discriminate.
  - intros k p [E | []]. injection E as <- <-.
    unfold within. vm_compute. intros H. apply H. reflexivity.
Defined.

(** C7 at concrete inputs.  Right after the rows [1,1] and [2,1] are loaded
    with the two links laid out closer than the hit radius, the hit test at
    the stored position of link 2, (1001/1000, 1), answers link 1.  Right
    after four rows are loaded on the 10 by 8 inch figure at 100 dpi, link 1
    has no [from] and is drawn as a circle of radius 0.075 around (1, 1),
    the hit radius is 0.03525, and the hit test at (1.05, 1), a point of the
    drawn circle, answers none.  That hit radius is not the one the formula
    of the specification gives, which is dpi times smaller. *)
Lemma own_centre_hits_earlier_link :
  (LinksCanvas.link_positions canvas_close_links =
     [(1%Z, (1, 1)); (2%Z, (1 + (1 # 1000), 1))] /\
   LinksCanvas._get_link_at_position canvas_close_links
     (Some (1 + (1 # 1000)), Some 1) = Some 1%Z /\
   LinksCanvas._get_link_at_position canvas_close_links
     (Some (1 + (1 # 1000)), Some 1) <> Some 2%Z) /\
  (shape_of canvas_chain 1 =
     Some (LinksCanvas.Circle (1, 1) (LinksCanvas.node_size / 2)) /\
   node_radius (LinksCanvas.fig canvas_chain) (LinksCanvas.xlim canvas_chain)
     (LinksCanvas.ylim canvas_chain) == 141 # 4000 /\
   ~ node_radius (LinksCanvas.fig canvas_chain) (LinksCanvas.xlim canvas_chain)
       (LinksCanvas.ylim canvas_chain) == LinksCanvas.node_size / 2 /\
   within (1, 1) (1 + (1 # 20)) 1 (LinksCanvas.node_size / 2) /\
   LinksCanvas._get_link_at_position canvas_chain
     (Some (1 + (1 # 20)), Some 1) = None) /\
  ~ node_radius (LinksCanvas.fig canvas_chain) (LinksCanvas.xlim canvas_chain)
      (LinksCanvas.ylim canvas_chain)
    == nodeRadius (LinksCanvas.fig canvas_chain)
         (LinksCanvas.xlim canvas_chain) (LinksCanvas.ylim canvas_chain).
Proof.
  split; [|split].
  - split; [run|]. split; [run|]. vm_compute. discriminate.
  - split; [vm_compute; reflexivity|].
    split; [vm_compute; reflexivity|].
    split; [intros H; vm_compute in H; discriminate|].
    split; [unfold within; vm_compute; discriminate|].
    vm_compute. reflexivity.
  - intros H. vm_compute in H. discriminate.
Qed.
